(** * ConvoHelper: normalisation, clustering, analytics and export

    A shallow embedding of the JavaScript sources of ConvoHelper
    ([js/parser.js], the [Processor], [Stats], [StatsIndividual] and
    [Exporter] modules and the [processData] driver) together with the
    properties of its specification that concern them.

    Conventions of the embedding.
    - A JavaScript string is a [string] holding its UTF-8 encoding; every
      pattern of the sources is ASCII, so matching byte by byte agrees with
      matching code unit by code unit, and the few non-ASCII white-space and
      line-terminator characters are recognised by their encodings.
    - Integral numbers (time values, calendar fields) are in [Z], counters
      in [nat]; the few non-integral quantities are exact rationals in [Q]
      (IEEE rounding is not modelled), with [NaN] and the infinities added
      where a division by zero can produce them.
    - A plain object used as a dictionary is an association list in insertion
      order, read and written through [JS.obj_get] and [JS.obj_set]; only own
      properties are modelled.
    - Code that can throw returns a [JS.result].
    - The host time zone is UTC, so local and universal calendar fields agree.
    - What the browser supplies ([URL], [JSON.parse], the non-ISO fallback of
      [Date], the page globals) is collected in the record [Host]. *)

From Stdlib Require Import ZArith QArith Qround Qabs List String Ascii Bool Arith Lia
  Permutation DecimalString Sorted.
Import ListNotations.

Set Warnings "-register-all".

Local Open Scope list_scope.
Local Open Scope string_scope.
Local Open Scope nat_scope.

(** * Part I. The model *)

(** ** JavaScript values and library functions *)
Module JS.

(** Exceptions the modelled code can raise; messages are not modelled. *)
Inductive error : Type :=
| TypeError
| URIError
| SyntaxError
| RangeError
| Error.

(** A computation that returns or throws. *)
Inductive result (A : Type) : Type :=
| Ok (a : A)
| Throw (e : error).
Arguments Ok {A} a.
Arguments Throw {A} e.

Definition bind {A B : Type} (r : result A) (k : A -> result B) : result B :=
  match r with
  | Ok a => k a
  | Throw e => Throw e
  end.

Notation "x <- r ;; k" := (bind r (fun x => k))
  (at level 61, r at next level, right associativity).

(** [arr.map(f)] for an [f] that may throw: the first exception wins. *)
Fixpoint mapM {A B : Type} (f : A -> result B) (l : list A) : result (list B) :=
  match l with
  | [] => Ok []
  | a :: l' => b <- f a ;; bs <- mapM f l' ;; Ok (b :: bs)
  end.

(** *** Strings *)

Definition code (c : ascii) : nat := nat_of_ascii c.

Definition startsWith (s p : string) : bool := String.prefix p s.

Fixpoint drop (n : nat) (s : string) : string :=
  match n, s with
  | O, _ => s
  | S k, String _ s' => drop k s'
  | S _, EmptyString => EmptyString
  end.

Definition take (n : nat) (s : string) : string := substring 0 n s.

Definition endsWith (s suffix : string) : bool :=
  let n := String.length s in
  let k := String.length suffix in
  (k <=? n) && String.eqb (drop (n - k) s) suffix.

(** [p] removed from the front of [s], when [s] starts with it. *)
Fixpoint strip_prefix (p s : string) : option string :=
  match p, s with
  | EmptyString, _ => Some s
  | String a p', String b s' => if Ascii.eqb a b then strip_prefix p' s' else None
  | String _ _, EmptyString => None
  end.

(** ASCII lower-casing. [String.prototype.toLowerCase] also maps non-ASCII
    letters, but the only such letter whose image contains an ASCII letter
    is U+0130, mapped to "i" followed by U+0307, and U+212A, mapped to "k";
    neither can complete one of the ASCII suffixes the sources test for. *)
Definition lower (c : ascii) : ascii :=
  let n := code c in
  if (65 <=? n) && (n <=? 90) then ascii_of_nat (n + 32) else c.

Fixpoint toLowerCase (s : string) : string :=
  match s with
  | EmptyString => EmptyString
  | String c s' => String (lower c) (toLowerCase s')
  end.

(** Case-insensitive [strip_prefix] (the [i] flag of a regular expression
    without the [u] flag folds ASCII letters only). *)
Fixpoint strip_prefix_ci (p s : string) : option string :=
  match p, s with
  | EmptyString, _ => Some s
  | String a p', String b s' =>
      if Ascii.eqb (lower a) (lower b) then strip_prefix_ci p' s' else None
  | String _ _, EmptyString => None
  end.

(** [s.replace(pat, rep)] for a non-empty string pattern: the first
    occurrence only. *)
Fixpoint replace_first (pat rep s : string) : string :=
  match strip_prefix pat s with
  | Some rest => rep ++ rest
  | None =>
      match s with
      | EmptyString => EmptyString
      | String c s' => String c (replace_first pat rep s')
      end
  end.

(** Does the byte [c] occur in [s]? *)
Fixpoint occurs (c : ascii) (s : string) : bool :=
  match s with
  | EmptyString => false
  | String d s' => Ascii.eqb c d || occurs c s'
  end.

(** *** White space

    [WhiteSpace] and [LineTerminator] of ECMAScript, which is what [\s] and
    [trim] use: TAB, LF, VT, FF, CR, SP, U+00A0, U+1680, U+2000..U+200A,
    U+2028, U+2029, U+202F, U+205F, U+3000 and U+FEFF, by UTF-8 encoding. *)
Definition ws1 (a : ascii) : bool :=
  let x := code a in ((9 <=? x) && (x <=? 13)) || (x =? 32).

Definition ws2 (a b : ascii) : bool :=
  (code a =? 194) && (code b =? 160).

Definition ws3 (a b c : ascii) : bool :=
  let x := code a in let y := code b in let z := code c in
  ((x =? 225) && (y =? 154) && (z =? 128))
  || ((x =? 226) && (y =? 128)
      && (((128 <=? z) && (z <=? 138)) || (z =? 168) || (z =? 169) || (z =? 175)))
  || ((x =? 226) && (y =? 129) && (z =? 159))
  || ((x =? 227) && (y =? 128) && (z =? 128))
  || ((x =? 239) && (y =? 187) && (z =? 191)).

(** Does a white-space character start at the head of [s]? *)
Definition ws_at (s : string) : bool :=
  match s with
  | String a (String b (String c _)) => ws1 a || ws2 a b || ws3 a b c
  | String a (String b EmptyString) => ws1 a || ws2 a b
  | String a EmptyString => ws1 a
  | EmptyString => false
  end.

(** [s.trim()] is the empty string: [s] consists of white space only. *)
Fixpoint blank (s : string) : bool :=
  match s with
  | EmptyString => true
  | String a r1 =>
      if ws1 a then blank r1
      else
        match r1 with
        | String b r2 =>
            if ws2 a b then blank r2
            else
              match r2 with
              | String c r3 => if ws3 a b c then blank r3 else false
              | EmptyString => false
              end
        | EmptyString => false
        end
  end.

(** Length of the longest prefix of [s] free of white space ([[^\s]*]). *)
Fixpoint nonws_run (s : string) : nat :=
  match s with
  | EmptyString => 0
  | String _ s' => if ws_at s then 0 else S (nonws_run s')
  end.

(** Line terminators, which [.] does not match: LF, CR, U+2028, U+2029. *)
Definition lt_at (s : string) : bool :=
  match s with
  | String a r =>
      (code a =? 10) || (code a =? 13)
      || match r with
         | String b (String c _) =>
             (code a =? 226) && (code b =? 128) && ((code c =? 168) || (code c =? 169))
         | _ => false
         end
  | EmptyString => false
  end.

(** Length of the longest prefix matched by [.*]. *)
Fixpoint dot_run (s : string) : nat :=
  match s with
  | EmptyString => 0
  | String _ s' => if lt_at s then 0 else S (dot_run s')
  end.

(** Length of the longest prefix whose bytes all satisfy [p]. *)
Fixpoint class_run (p : ascii -> bool) (s : string) : nat :=
  match s with
  | EmptyString => 0
  | String c s' => if p c then S (class_run p s') else 0
  end.

Definition is_digit (c : ascii) : bool := (48 <=? code c) && (code c <=? 57).

(** [\w]: ASCII letters, digits and the underscore. *)
Definition is_word (c : ascii) : bool :=
  let n := code c in
  ((48 <=? n) && (n <=? 57)) || ((65 <=? n) && (n <=? 90))
  || ((97 <=? n) && (n <=? 122)) || (n =? 95).

(** *** Numbers as text *)

(** The number written by a string of decimal digits, after [acc]. *)
Fixpoint number_of (s : string) (acc : Z) : option Z :=
  match s with
  | EmptyString => Some acc
  | String c s' =>
      if is_digit c then number_of s' (acc * 10 + (Z.of_nat (code c) - 48))%Z
      else None
  end.

(** [String(n)] for an integral number. *)
Definition String_of_Z (z : Z) : string := NilZero.string_of_int (Z.to_int z).

Definition String_of_nat (n : nat) : string := String_of_Z (Z.of_nat n).

Fixpoint repeat_string (fill : string) (n : nat) : string :=
  match n with
  | O => EmptyString
  | S k => fill ++ repeat_string fill k
  end.

(** [s.padStart(n, c)] for a one-character filler [c]. *)
Definition padStart (s : string) (n : nat) (fill : string) : string :=
  repeat_string fill (n - String.length s) ++ s.

(** The numbers a division can produce. *)
Inductive number : Type :=
| Num (q : Q)
| NaN
| Infinity
| NegInfinity.

(** [a / b] on finite operands. *)
Definition div (a b : Q) : number :=
  if Qeq_bool b 0 then
    if Qeq_bool a 0 then NaN
    else if Qle_bool 0 a then Infinity else NegInfinity
  else Num (a / b)%Q.

(** [x * k] for a finite positive constant [k]. *)
Definition scale (x : number) (k : Q) : number :=
  match x with
  | Num q => Num (q * k)%Q
  | other => other
  end.

(** [x.toFixed(1)] for |x| below 10^21: the nearest tenth, the larger one
    on a tie, written with one decimal. *)
Definition toFixed1_Q (q : Q) : string :=
  let neg := negb (Qle_bool 0 q) in
  let a := if neg then Qopp q else q in
  let n := Qfloor (a * 10 + (1 # 2))%Q in
  (if neg then "-" else "") ++ String_of_Z (n / 10)%Z ++ "." ++ String_of_Z (n mod 10)%Z.

Definition toFixed1 (x : number) : string :=
  match x with
  | Num q => toFixed1_Q q
  | NaN => "NaN"
  | Infinity => "Infinity"
  | NegInfinity => "-Infinity"
  end.

(** *** Plain objects as dictionaries *)

Definition obj (V : Type) : Type := list (string * V).

(** [o[k]] on own properties; [None] is [undefined]. *)
Fixpoint obj_get {V : Type} (o : obj V) (k : string) : option V :=
  match o with
  | [] => None
  | (k', v) :: o' => if String.eqb k' k then Some v else obj_get o' k
  end.

(** [o[k] = v]: an existing property keeps its place, a new one goes last. *)
Fixpoint obj_set {V : Type} (o : obj V) (k : string) (v : V) : obj V :=
  match o with
  | [] => [(k, v)]
  | (k', v') :: o' =>
      if String.eqb k' k then (k', v) :: o' else (k', v') :: obj_set o' k v
  end.

(** *** Sorting

    [Array.prototype.sort] is stable; for a comparator that induces a total
    preorder its result is the unique stable sorted arrangement, computed
    here by insertion. [le a b] stands for [compare(a, b) <= 0]. *)
Section Sort.
Variable A : Type.
Variable le : A -> A -> bool.

Fixpoint insert_sorted (x : A) (l : list A) : list A :=
  match l with
  | [] => [x]
  | y :: l' => if le x y then x :: l else y :: insert_sorted x l'
  end.

Fixpoint sort (l : list A) : list A :=
  match l with
  | [] => []
  | x :: l' => insert_sorted x (sort l')
  end.

End Sort.
Arguments sort {A} le l.
Arguments insert_sorted {A} le x l.

(** *** Enumeration order

    [for (k in o)] visits the keys that are array indices first, in
    ascending order, and then the other keys in insertion order. *)
Definition index_of (k : string) : option Z :=
  match k with
  | EmptyString => None
  | String _ _ =>
      match number_of k 0 with
      | Some n =>
          if String.eqb (String_of_Z n) k && (n <? 4294967295)%Z
          then Some n else None
      | None => None
      end
  end.

Definition is_index (k : string) : bool :=
  match index_of k with
  | Some _ => true
  | None => false
  end.

Definition index_le {V : Type} (a b : string * V) : bool :=
  match index_of (fst a), index_of (fst b) with
  | Some x, Some y => (x <=? y)%Z
  | _, _ => true
  end.

Definition enumerate {V : Type} (o : list (string * V)) : list (string * V) :=
  (sort index_le (filter (fun kv => is_index (fst kv)) o)
   ++ filter (fun kv => negb (is_index (fst kv))) o)%list.

End JS.

(** ** Dates

    A [Date] object is its time value, in milliseconds since the epoch; the
    calendar is the proleptic Gregorian one and local time is UTC. *)
Module JSDate.
Local Open Scope Z_scope.

Definition msPerDay : Z := 86400000.

Definition Day (t : Z) : Z := t / msPerDay.
Definition TimeWithinDay (t : Z) : Z := t mod msPerDay.

(** Day number of the civil date [y]-[m]-[d], [m] in 1..12. *)
Definition days_from_civil (y m d : Z) : Z :=
  let y' := if m <=? 2 then y - 1 else y in
  let era := y' / 400 in
  let yoe := y' - era * 400 in
  let mp := (m + 9) mod 12 in
  let doy := (153 * mp + 2) / 5 + d - 1 in
  let doe := yoe * 365 + yoe / 4 - yoe / 100 + doy in
  era * 146097 + doe - 719468.

(** Civil date (year, month 1..12, day) of a day number. *)
Definition civil_from_days (z : Z) : Z * Z * Z :=
  let z' := z + 719468 in
  let era := z' / 146097 in
  let doe := z' - era * 146097 in
  let yoe := (doe - doe / 1460 + doe / 36524 - doe / 146096) / 365 in
  let doy := doe - (365 * yoe + yoe / 4 - yoe / 100) in
  let mp := (5 * doy + 2) / 153 in
  let d := doy - (153 * mp + 2) / 5 + 1 in
  let m := if mp <? 10 then mp + 3 else mp - 9 in
  let y := yoe + era * 400 in
  (if m <=? 2 then y + 1 else y, m, d).

Definition getFullYear (t : Z) : Z := fst (fst (civil_from_days (Day t))).
Definition getMonth (t : Z) : Z := snd (fst (civil_from_days (Day t))) - 1.
Definition getDate (t : Z) : Z := snd (civil_from_days (Day t)).
Definition getDay (t : Z) : Z := (Day t + 4) mod 7.
Definition getHours (t : Z) : Z := TimeWithinDay t / 3600000.
Definition getMinutes (t : Z) : Z := (TimeWithinDay t / 60000) mod 60.
Definition getSeconds (t : Z) : Z := (TimeWithinDay t / 1000) mod 60.
Definition getMilliseconds (t : Z) : Z := TimeWithinDay t mod 1000.

(** [MakeDay], [MakeTime] and [MakeDate] of ECMAScript: a month outside
    0..11 carries into the year, a day outside the month into the
    neighbouring months. *)
Definition MakeDay (year month date : Z) : Z :=
  days_from_civil (year + month / 12) (month mod 12 + 1) 1 + date - 1.

Definition MakeTime (h m s ms : Z) : Z := h * 3600000 + m * 60000 + s * 1000 + ms.

Definition MakeDate (day time : Z) : Z := day * msPerDay + time.

(** [new Date(year, monthIndex, day)]; years 0..99 mean 1900..1999. *)
Definition Date_ymd (year month day : Z) : Z :=
  let y := if (0 <=? year) && (year <=? 99) then 1900 + year else year in
  MakeDate (MakeDay y month day) 0.

Definition setDate (t d : Z) : Z :=
  MakeDate (MakeDay (getFullYear t) (getMonth t) d) (TimeWithinDay t).

(** [date.setMonth(month, day)]. *)
Definition setMonth (t month d : Z) : Z :=
  MakeDate (MakeDay (getFullYear t) month d) (TimeWithinDay t).

Definition setHours (t h : Z) : Z :=
  MakeDate (Day t) (MakeTime h (getMinutes t) (getSeconds t) (getMilliseconds t)).

Definition setFullYear (t y : Z) : Z :=
  MakeDate (MakeDay y (getMonth t) (getDate t)) (TimeWithinDay t).

(** *** The date-time form [YYYY-MM-DDTHH:mm:ss] *)

Definition field (s : string) (pos len : nat) : option Z :=
  JS.number_of (substring pos len s) 0.

Definition daysInMonth (y m : Z) : Z :=
  MakeDay y m 1 - MakeDay y (m - 1) 1.

(** A string of exactly that form, with every field in range, is read as a
    local time. Any other string is left to the host (see [Host]): the
    standard lets an implementation accept further formats. *)
Definition parse_iso (s : string) : option Z :=
  if (String.length s =? 19)%nat
     && String.eqb (substring 4 1 s) "-" && String.eqb (substring 7 1 s) "-"
     && String.eqb (substring 10 1 s) "T"
     && String.eqb (substring 13 1 s) ":" && String.eqb (substring 16 1 s) ":"
  then
    match field s 0 4, field s 5 2, field s 8 2, field s 11 2, field s 14 2, field s 17 2 with
    | Some y, Some mo, Some d, Some h, Some mi, Some se =>
        if (1 <=? mo) && (mo <=? 12) && (1 <=? d) && (d <=? daysInMonth y mo)
           && (h <=? 23) && (mi <=? 59) && (se <=? 59)
        then Some (MakeDate (MakeDay y (mo - 1) d) (MakeTime h mi se 0))
        else None
    | _, _, _, _, _, _ => None
    end
  else None.

(** Month names of [Parser.formatDate] and [Processor.getMonthName]. *)
Definition monthNames : list string :=
  ["January"; "February"; "March"; "April"; "May"; "June"; "July"; "August";
   "September"; "October"; "November"; "December"]%string.

End JSDate.

(** ** Parsed JSON *)
Module Json.

Inductive json : Type :=
| JNull
| JBool (b : bool)
| JNum (q : Q)
| JStr (s : string)
| JArr (items : list json)
| JObj (fields : list (string * json)).

(** [!v] is false. *)
Definition truthy (v : json) : bool :=
  match v with
  | JNull => false
  | JBool b => b
  | JNum q => negb (Qeq_bool q 0)
  | JStr s => negb (String.eqb s "")
  | JArr _ => true
  | JObj _ => true
  end.

(** Truthiness of a value that may be [undefined]. *)
Definition truthy_opt (v : option json) : bool :=
  match v with
  | Some v => truthy v
  | None => false
  end.

(** [v[k]] for a key [k] that is neither an index nor the name of a
    built-in member: reading from [null] throws, an object yields its own
    property, everything else yields [undefined]. *)
Definition get (v : json) (k : string) : JS.result (option json) :=
  match v with
  | JNull => JS.Throw JS.TypeError
  | JObj fields => JS.Ok (JS.obj_get fields k)
  | _ => JS.Ok None
  end.

(** [v[k]] when [v] itself may be [undefined]. *)
Definition get_opt (v : option json) (k : string) : JS.result (option json) :=
  match v with
  | None => JS.Throw JS.TypeError
  | Some v => get v k
  end.

Fixpoint indices (n : nat) : list string :=
  match n with
  | O => []
  | S k => (indices k ++ [JS.String_of_nat k])%list
  end.

(** The properties [for (k in v)] enumerates, each with the value [v[k]]
    read in the loop: the fields of an object (as [JSON.parse] builds it:
    no key twice), the elements of an array and the characters of a string
    under their indices, nothing for the other values. *)
Definition entries (v : json) : list (string * json) :=
  match v with
  | JObj fields => fields
  | JArr items => combine (indices (List.length items)) items
  | JStr s =>
      combine (indices (String.length s))
              (map (fun c => JStr (String c EmptyString)) (list_ascii_of_string s))
  | _ => []
  end.

(** The values [for (x of v)] iterates over; only arrays and strings are
    iterable. *)
Definition iterate (v : json) : JS.result (list json) :=
  match v with
  | JArr items => JS.Ok items
  | JStr s => JS.Ok (map (fun c => JStr (String c EmptyString)) (list_ascii_of_string s))
  | _ => JS.Throw JS.TypeError
  end.

Definition isArray (v : json) : bool :=
  match v with
  | JArr _ => true
  | _ => false
  end.

End Json.

(** ** The host

    What the browser and the page provide to the modelled code. *)
Record Host : Type := {
  (** [new URL(u)]: the [hostname] and [pathname] of the parsed URL, or
      [None] when the constructor throws a [TypeError]. *)
  URL_parse : string -> option (string * string);
  (** [Date.parse] on strings that are not of the form [YYYY-MM-DDTHH:mm:ss]
      with fields in range; [None] is an invalid date. *)
  Date_parse_other : string -> option Z;
  (** [JSON.parse]; [None] is a [SyntaxError]. *)
  JSON_parse : string -> option Json.json;
  (** [window.convoHelper]: absent, or present with its [timezoneOffset]
      property (a whole number of hours) set or not. *)
  convoHelper : option (option Z);
  (** [new Date().toLocaleDateString()] at the time of an export. *)
  exportDate : string;
  (** [n.toLocaleString()] for a whole number [n]. *)
  Number_toLocaleString : Z -> string
}.

(** ** Messages *)
Module Message.

Inductive messageType : Type := text | link | media | sticker | empty.

Definition type_eqb (a b : messageType) : bool :=
  match a, b with
  | text, text | link, link | media, media | sticker, sticker | empty, empty => true
  | _, _ => false
  end.

(** The object built by [Parser.parseMessage]. [N] is the type of its
    numeric fields and [F] the type of [from]: see [message] and
    [Parser.parsed] below. *)
Record t (N F : Type) : Type := mk {
  date : N;
  timestamp : N;
  from : F;
  content : string;
  type : messageType;
  week : N;
  year : N;
  month : N;
  day : N;
  hour : N;
  dayOfWeek : N
}.
Arguments mk {N F}.
Arguments date {N F} _.
Arguments timestamp {N F} _.
Arguments from {N F} _.
Arguments content {N F} _.
Arguments type {N F} _.
Arguments week {N F} _.
Arguments year {N F} _.
Arguments month {N F} _.
Arguments day {N F} _.
Arguments hour {N F} _.
Arguments dayOfWeek {N F} _.

End Message.

(** A normalized message: the date is valid, so every numeric field is a
    number, and the sender is a string. This is what the clusterer, the
    analytics and the exporter work on. *)
Definition message : Type := Message.t Z string.

(** ** [Parser] (js/parser.js) *)
Module Parser.
Import JS Json.

(** What [parseMessage] returns in general: the numeric fields are [None]
    ([NaN]) when the date string is not a date, and [from] is whatever JSON
    value the element carried ([None] for [undefined]). *)
Definition parsed : Type := Message.t (option Z) (option json).

(** The normalized message a parsed one is, if it is one. *)
Definition normalized (p : parsed) : option message :=
  match Message.date p, Message.timestamp p, Message.from p, Message.week p,
        Message.year p, Message.month p, Message.day p, Message.hour p,
        Message.dayOfWeek p with
  | Some d, Some ts, Some (JStr f), Some w, Some y, Some mo, Some dd, Some h, Some dw =>
      Some (Message.mk d ts f (Message.content p) (Message.type p) w y mo dd h dw)
  | _, _, _, _, _, _, _, _, _ => None
  end.

(** *** Regular expressions

    A regular expression is given by its anchored matcher: [exec s] is the
    capture and the unmatched rest when a match starts at the head of [s].
    The three expressions of [processContent] never match the empty string
    and have at most one match at a given position, so scanning from the
    left yields what [test], [match] and [replace] yield with the [g] flag
    (each of these starts at index 0: the expressions are fresh objects of
    the call and the preceding [replace] and [match] reset [lastIndex]). *)
Section Regex.
Variable A : Type.
Variable exec : string -> option (A * string).

(** [re.test(s)] *)
Fixpoint test (s : string) : bool :=
  match exec s with
  | Some _ => true
  | None =>
      match s with
      | EmptyString => false
      | String _ s' => test s'
      end
  end.

(** [s.replace(re, f)]; [skip] counts the bytes still covered by the last
    match. *)
Fixpoint replace_from (f : A -> result string) (skip : nat) (s : string)
  : result string :=
  match s with
  | EmptyString => Ok EmptyString
  | String c s' =>
      match skip with
      | S k => replace_from f k s'
      | O =>
          match exec s with
          | Some (a, rest) =>
              r <- f a ;;
              tl <- replace_from f (String.length s - String.length rest - 1) s' ;;
              Ok (r ++ tl)
          | None => tl <- replace_from f 0 s' ;; Ok (String c tl)
          end
      end
  end.

Definition replace (f : A -> result string) (s : string) : result string :=
  replace_from f 0 s.

(** [s.match(re) || []] *)
Fixpoint matches_from (skip : nat) (s : string) : list string :=
  match s with
  | EmptyString => []
  | String _ s' =>
      match skip with
      | S k => matches_from k s'
      | O =>
          match exec s with
          | Some (_, rest) =>
              let len := String.length s - String.length rest in
              take len s :: matches_from (len - 1) s'
          | None => matches_from 0 s'
          end
      end
  end.

Definition matches (s : string) : list string := matches_from 0 s.

End Regex.
Arguments test {A} exec s.
Arguments replace_from {A} exec f skip s.
Arguments replace {A} exec f s.
Arguments matches_from {A} exec skip s.
Arguments matches {A} exec s.

(** [https?:\/\/] *)
Definition scheme (s : string) : option string :=
  match strip_prefix "https://" s with
  | Some r => Some r
  | None => strip_prefix "http://" s
  end.

(** The text before the first "]" and the text after it. *)
Fixpoint until_close (s : string) : option (string * string) :=
  match s with
  | EmptyString => None
  | String c s' =>
      if Ascii.eqb c "]" then Some (EmptyString, s')
      else
        match until_close s' with
        | Some (body, rest) => Some (String c body, rest)
        | None => None
        end
  end.

(** The text after the last "/", when there is a "/". *)
Fixpoint after_last_slash (s : string) : option string :=
  match s with
  | EmptyString => None
  | String c s' =>
      match after_last_slash s' with
      | Some r => Some r
      | None => if Ascii.eqb c "/" then Some s' else None
      end
  end.

Definition stickerExtensions : list string := ["webp"; "gif"; "png"; "jpg"; "jpeg"].

(** [file] without its extension, when it is a non-empty name followed by
    "." and one of [stickerExtensions]. *)
Definition file_stem (file : string) : option string :=
  match
    find (fun ext => endsWith file ("." ++ ext)
                     && (String.length ext + 1 <? String.length file))
         stickerExtensions
  with
  | Some ext => Some (take (String.length file - String.length ext - 1) file)
  | None => None
  end.

(** [/\[https?:\/\/[^\]]*\/([^\/\]]+?)\.(webp|gif|png|jpg|jpeg)\]/g];
    the capture is group 1. No class of the expression admits "]", so a
    match ends at the first "]" after the scheme; group 1 admits no "/", so
    it starts after the last "/" before that "]". *)
Definition stickerRegex (s : string) : option (string * string) :=
  match strip_prefix "[" s with
  | Some s1 =>
      match scheme s1 with
      | Some s2 =>
          match until_close s2 with
          | Some (body, rest) =>
              match after_last_slash body with
              | Some file =>
                  match file_stem file with
                  | Some p1 => Some (p1, rest)
                  | None => None
                  end
              | None => None
              end
          | None => None
          end
      | None => None
      end
  | None => None
  end.

Definition scheme_ci (s : string) : option string :=
  match strip_prefix_ci "https://" s with
  | Some r => Some r
  | None => strip_prefix_ci "http://" s
  end.

(** An optional literal: taken when present. *)
Definition optional_ci (p s : string) : string :=
  match strip_prefix_ci p s with
  | Some r => r
  | None => s
  end.

(** [[\w.-]] *)
Definition is_handle_char (c : ascii) : bool :=
  is_word c || Ascii.eqb c "." || Ascii.eqb c "-".

(** [[/?#&]] *)
Definition is_tail_start (c : ascii) : bool :=
  Ascii.eqb c "/" || Ascii.eqb c "?" || Ascii.eqb c "#" || Ascii.eqb c "&".

(** The expression [tiktokRegex], with flags [gi]: the scheme [https?:\/\/],
    an optional [www\.] or [m\.], [tiktok], an optional [v], [\.com\/],
    then [share\/video\/] or [@[\w.-]+\/video\/], the digits [(\d+)] and an
    optional tail made of one of [/?#&] and the rest of the line. The
    capture is not used. Every optional or repeated part is followed by
    text it cannot itself match, so the greedy choice is the only one. *)
Definition tiktokRegex (s : string) : option (unit * string) :=
  match scheme_ci s with
  | Some s1 =>
      let s2 :=
        match strip_prefix_ci "www." s1 with
        | Some r => r
        | None => optional_ci "m." s1
        end in
      match strip_prefix_ci "tiktok" s2 with
      | Some s3 =>
          match strip_prefix_ci ".com/" (optional_ci "v" s3) with
          | Some s5 =>
              let video :=
                match strip_prefix_ci "share/video/" s5 with
                | Some r => Some r
                | None =>
                    match strip_prefix "@" s5 with
                    | Some r =>
                        let n := class_run is_handle_char r in
                        if n =? 0 then None else strip_prefix_ci "/video/" (drop n r)
                    | None => None
                    end
                end in
              match video with
              | Some s6 =>
                  let n := class_run is_digit s6 in
                  if n =? 0 then None
                  else
                    let s7 := drop n s6 in
                    match s7 with
                    | String c r =>
                        if is_tail_start c then Some (tt, drop (dot_run r) r)
                        else Some (tt, s7)
                    | EmptyString => Some (tt, s7)
                    end
              | None => None
              end
          | None => None
          end
      | None => None
      end
  | None => None
  end.

(** [/https?:\/\/[^\s]+/g] *)
Definition linkRegex (s : string) : option (unit * string) :=
  match scheme s with
  | Some r =>
      let n := nonws_run r in
      if n =? 0 then None else Some (tt, drop n r)
  | None => None
  end.

(** *** [decodeURIComponent]

    The [Decode] operation of ECMAScript with an empty set of preserved
    escapes. An escape below 0x80 yields that character; a larger one must
    start a sequence of escapes that is the UTF-8 encoding of a code point,
    and yields that code point (here: its encoding). Anything else is a
    [URIError]. *)
Definition hex_val (c : ascii) : option nat :=
  let n := code c in
  if (48 <=? n) && (n <=? 57) then Some (n - 48)
  else if (65 <=? n) && (n <=? 70) then Some (n - 55)
  else if (97 <=? n) && (n <=? 102) then Some (n - 87)
  else None.

Definition hex_octet (a b : ascii) : option nat :=
  match hex_val a, hex_val b with
  | Some x, Some y => Some (16 * x + y)
  | _, _ => None
  end.

(** Number of octets announced by a leading octet. *)
Definition sequence_length (b : nat) : option nat :=
  if b <? 128 then Some 1
  else if b <? 192 then None
  else if b <? 224 then Some 2
  else if b <? 240 then Some 3
  else if b <? 248 then Some 4
  else None.

Definition continuation (b : nat) : bool := (128 <=? b) && (b <=? 191).

Definition valid_utf8 (octets : list nat) : bool :=
  match octets with
  | [a; b] => (194 <=? a) && (a <=? 223) && continuation b
  | [a; b; c] =>
      (((a =? 224) && (160 <=? b) && (b <=? 191))
       || ((((225 <=? a) && (a <=? 236)) || ((238 <=? a) && (a <=? 239))) && continuation b)
       || ((a =? 237) && (128 <=? b) && (b <=? 159)))
      && continuation c
  | [a; b; c; d] =>
      (((a =? 240) && (144 <=? b) && (b <=? 191))
       || ((241 <=? a) && (a <=? 243) && continuation b)
       || ((a =? 244) && (128 <=? b) && (b <=? 143)))
      && continuation c && continuation d
  | _ => false
  end.

Definition string_of_octets (octets : list nat) : string :=
  string_of_list_ascii (map ascii_of_nat octets).

(** [pending] holds the octets of the sequence being read and [need] the
    number of escapes still expected for it. *)
Fixpoint decode_from (pending : list nat) (need : nat) (s : string) {struct s}
  : result string :=
  match need with
  | S k =>
      match s with
      | String p (String a (String b rest)) =>
          if Ascii.eqb p "%" then
            match hex_octet a b with
            | Some o =>
                let octets := (pending ++ [o])%list in
                match k with
                | O =>
                    if valid_utf8 octets
                    then tl <- decode_from [] 0 rest ;; Ok (string_of_octets octets ++ tl)
                    else Throw URIError
                | S _ => decode_from octets k rest
                end
            | None => Throw URIError
            end
          else Throw URIError
      | _ => Throw URIError
      end
  | O =>
      match s with
      | EmptyString => Ok EmptyString
      | String c s1 =>
          if Ascii.eqb c "%" then
            match s1 with
            | String a (String b rest) =>
                match hex_octet a b with
                | Some o =>
                    match sequence_length o with
                    | Some 1 => tl <- decode_from [] 0 rest ;; Ok (String (ascii_of_nat o) tl)
                    | Some n => decode_from [o] (n - 1) rest
                    | None => Throw URIError
                    end
                | None => Throw URIError
                end
            | _ => Throw URIError
            end
          else tl <- decode_from [] 0 s1 ;; Ok (String c tl)
      end
  end.

Definition decodeURIComponent (s : string) : result string := decode_from [] 0 s.

(** *** Calendar helpers *)

(** [getISOWeek(date)] *)
Definition getISOWeek (date : Z) : Z :=
  (let target := date in
   let dayNr := (JSDate.getDay date + 6) mod 7 in
   let target := JSDate.setDate target (JSDate.getDate target - dayNr + 3) in
   let firstThursday := target in
   let target := JSDate.setMonth target 0 1 in
   let target :=
     if negb (JSDate.getDay target =? 4)
     then JSDate.setMonth target 0 (1 + ((4 - JSDate.getDay target) + 7) mod 7)
     else target in
   (* 1 + Math.ceil((firstThursday - target) / 604800000) *)
   1 - (- (firstThursday - target)) / 604800000)%Z.

Module DateRange.
Record t : Type := mk { start : Z; end_ : Z }.
End DateRange.

(** [getWeekDateRange(year, week)]; [ISOweekStart] is the object [simple]
    itself, and the arguments of [setDate] are read before it is changed. *)
Definition getWeekDateRange (year week : Z) : DateRange.t :=
  (let simple := JSDate.Date_ymd year 0 (1 + (week - 1) * 7) in
   let dow := JSDate.getDay simple in
   let ISOweekStart :=
     if dow <=? 4
     then JSDate.setDate simple (JSDate.getDate simple - JSDate.getDay simple + 1)
     else JSDate.setDate simple (JSDate.getDate simple + 8 - JSDate.getDay simple) in
   let ISOweekEnd := JSDate.setDate ISOweekStart (JSDate.getDate ISOweekStart + 6) in
   DateRange.mk ISOweekStart ISOweekEnd)%Z.

(** [formatDate(date)] *)
Definition formatDate (date : Z) : string :=
  nth (Z.to_nat (JSDate.getMonth date)) JSDate.monthNames "undefined"
  ++ " " ++ String_of_Z (JSDate.getDate date)
  ++ ", " ++ String_of_Z (JSDate.getFullYear date).

(** [formatDateRange(start, end)] *)
Definition formatDateRange (start end_ : Z) : string :=
  if (JSDate.getFullYear start =? JSDate.getFullYear end_)%Z
     && (JSDate.getMonth start =? JSDate.getMonth end_)%Z
  then formatDate start ++ " - " ++ String_of_Z (JSDate.getDate end_)
  else formatDate start ++ " - " ++ formatDate end_.

(** *** Functions that depend on the host *)
Section WithHost.
Variable host : Host.

Definition mediaExtensions : list string :=
  [".jpg"; ".jpeg"; ".png"; ".gif"; ".webp"; ".mp4"; ".mov"; ".avi"].

(** The replacer of the sticker expression. *)
Definition stickerPlaceholder (p1 : string) : result string :=
  d <- decodeURIComponent p1 ;; Ok ("[Sticker: " ++ d ++ "]").

(** The replacer of the TikTok expression. *)
Definition tiktokPlaceholder (_ : unit) : result string :=
  Ok "[Media: TikTok Video]".

(** [processContent(content)] for a string [content]. *)
Definition processContent (content : string) : result (string * Message.messageType) :=
  cleanContent <- replace stickerRegex stickerPlaceholder content ;;
  cleanContent <- replace tiktokRegex tiktokPlaceholder cleanContent ;;
  if blank cleanContent then Ok (EmptyString, Message.empty)
  else if test stickerRegex content then Ok (cleanContent, Message.sticker)
  else if test tiktokRegex content then Ok (cleanContent, Message.media)
  else if test linkRegex content then
    let links := matches linkRegex content in
    if existsb (fun link =>
                  existsb (fun ext => endsWith (toLowerCase link) ext) mediaExtensions)
               links
    then Ok (cleanContent, Message.media)
    else
      match links with
      | first :: _ =>
          match URL_parse host first with
          | Some (hostname, pathname) =>
              Ok ("[Link: " ++ hostname ++ pathname ++ "]", Message.link)
          | None => Throw TypeError
          end
      | [] => Throw TypeError
      end
  else Ok (cleanContent, Message.text).

(** [new Date(s)] for a string [s]. *)
Definition Date_of_string (s : string) : option Z :=
  match JSDate.parse_iso s with
  | Some t => Some t
  | None => Date_parse_other host s
  end.

(** [validateStructure(data)] *)
Definition validateStructure (data : json) : result bool :=
  dm <- get data "Direct Message" ;;
  if negb (truthy_opt dm) then Ok false
  else
    dms <- get_opt dm "Direct Messages" ;;
    if negb (truthy_opt dms) then Ok false
    else
      ch <- get_opt dms "ChatHistory" ;;
      match ch with
      | Some chatHistory =>
          if negb (truthy chatHistory) then Ok false
          else if (List.length (entries chatHistory) =? 0) then Ok false
          else
            Ok (forallb
                  (fun kv =>
                     startsWith (fst kv) "Chat History with " && endsWith (fst kv) ":"
                     && isArray (snd kv))
                  (entries chatHistory))
      | None => Ok false
      end.

(** [parseJSON(jsonString)]: whatever goes wrong inside the [try] is thrown
    again as a plain [Error]. *)
Definition parseJSON (jsonString : string) : result json :=
  match JSON_parse host jsonString with
  | Some data =>
      match validateStructure data with
      | Ok true => Ok data
      | Ok false => Throw Error
      | Throw _ => Throw Error
      end
  | None => Throw Error
  end.

(** [validateMessage(message)] *)
Definition validateMessage (message : json) : result bool :=
  d <- get message "Date" ;;
  if negb (truthy_opt d) then Ok false
  else
    f <- get message "From" ;;
    if negb (truthy_opt f) then Ok false
    else
      c <- get message "Content" ;;
      match c with
      | None => Ok false
      | Some _ => Ok true
      end.

(** [parseMessage(message)]. [window.convoHelper.timezoneOffset] is read
    first; [message.Date.replace] and the [replace] calls on the content
    exist only on strings. *)
Definition parseMessage (message : json) : result parsed :=
  timezoneOffset <-
    match convoHelper host with
    | None => Throw TypeError
    | Some None => Ok 0%Z
    | Some (Some k) => Ok k
    end ;;
  d <- get message "Date" ;;
  match d with
  | Some (JStr dateString) =>
      let date := Date_of_string (replace_first " " "T" dateString) in
      let date :=
        option_map (fun t => JSDate.setHours t (JSDate.getHours t + timezoneOffset)%Z) date in
      c <- get message "Content" ;;
      match c with
      | Some (JStr content) =>
          pc <- processContent content ;;
          f <- get message "From" ;;
          Ok (Message.mk date date f (fst pc) (snd pc)
                (option_map getISOWeek date)
                (option_map JSDate.getFullYear date)
                (option_map JSDate.getMonth date)
                (option_map JSDate.getDate date)
                (option_map JSDate.getHours date)
                (option_map JSDate.getDay date))
      | _ => Throw TypeError
      end
  | _ => Throw TypeError
  end.

(** The inner loop of [extractConversations]: the valid elements, parsed. *)
Fixpoint validMessages (messages : list json) : result (list parsed) :=
  match messages with
  | [] => Ok []
  | msg :: rest =>
      valid <- validateMessage msg ;;
      if valid
      then p <- parseMessage msg ;; ps <- validMessages rest ;; Ok (p :: ps)
      else validMessages rest
  end.

Definition personName (key : string) : string :=
  replace_first ":" "" (replace_first "Chat History with " "" key).

(** One turn of the outer loop of [extractConversations]. *)
Definition extractOne (conversations : obj (list parsed)) (kv : string * json)
  : result (obj (list parsed)) :=
  messages <- iterate (snd kv) ;;
  valid <- validMessages messages ;;
  Ok (if (0 <? List.length valid) then obj_set conversations (personName (fst kv)) valid
      else conversations).

Fixpoint extractAll (conversations : obj (list parsed)) (l : list (string * json))
  : result (obj (list parsed)) :=
  match l with
  | [] => Ok conversations
  | kv :: rest => c <- extractOne conversations kv ;; extractAll c rest
  end.

(** [extractConversations(data)] *)
Definition extractConversations (data : json) : result (obj (list parsed)) :=
  dm <- get data "Direct Message" ;;
  dms <- get_opt dm "Direct Messages" ;;
  ch <- get_opt dms "ChatHistory" ;;
  match ch with
  | Some chatHistory => extractAll [] (entries chatHistory)
  | None => Ok []
  end.

End WithHost.

End Parser.

(** ** [Processor]: clustering and analytics *)
Module WeekCluster.
Record t : Type := mk {
  year : Z;
  week : Z;
  messages : list message;
  count : nat;
  (** [null] until the second loop of [clusterByWeeks] fills it in *)
  dateRange : option Parser.DateRange.t
}.
End WeekCluster.

Module MonthWeek.
(** An element of [weeks] in a month group: [{ key: weekKey, ...week }]. *)
Record t : Type := mk {
  key : string;
  year : Z;
  week : Z;
  messages : list message;
  count : nat;
  dateRange : option Parser.DateRange.t
}.
End MonthWeek.

Module MonthGroup.
Record t : Type := mk {
  year : Z;
  month : Z;
  weeks : list MonthWeek.t;
  totalMessages : nat;
  (** [undefined] for a month index outside 0..11 *)
  monthName : option string
}.
End MonthGroup.

Module ProcessedData.
Record t : Type := mk {
  messages : list message;
  totalMessages : nat;
  weekClusters : JS.obj WeekCluster.t;
  monthGroups : JS.obj MonthGroup.t;
  (** [messages[0]] and [messages[messages.length - 1]] *)
  firstMessage : option message;
  lastMessage : option message
}.
End ProcessedData.

Module Burst.
Record t : Type := mk {
  start : Z;
  end_ : Z;
  messageCount : nat;
  (** minutes *)
  duration : Q
}.
End Burst.

(** A field that holds a number on some paths and the text of [toFixed] on
    others. *)
Inductive value : Type :=
| NumV (x : JS.number)
| StrV (s : string).

Module BalanceScore.
Record t : Type := mk {
  score : value;
  yourPercentage : value;
  theirPercentage : value;
  youCount : nat;
  themCount : nat
}.
End BalanceScore.

Module ResponseTimes.
Record t : Type := mk {
  yourAverage : Q;
  theirAverage : Q;
  yourMedian : Q;
  theirMedian : Q
}.
End ResponseTimes.

Module InitiatorScore.
Record t : Type := mk {
  youInitiated : nat;
  themInitiated : nat;
  yourPercentage : value;
  theirPercentage : value
}.
End InitiatorScore.

Module Processor.
Import JS.

(** The key of a message's week, [`${msg.year}-W${String(msg.week).padStart(2, '0')}`]. *)
Definition weekKey (year week : Z) : string :=
  String_of_Z year ++ "-W" ++ padStart (String_of_Z week) 2 "0".

(** [`${firstMsg.year}-${String(firstMsg.month + 1).padStart(2, '0')}`] *)
Definition monthKey (year month : Z) : string :=
  String_of_Z year ++ "-" ++ padStart (String_of_Z (month + 1)%Z) 2 "0".

(** The body of the first loop of [clusterByWeeks]. *)
Definition addToWeek (weeks : obj WeekCluster.t) (msg : message) : obj WeekCluster.t :=
  let key := weekKey (Message.year msg) (Message.week msg) in
  let w :=
    match obj_get weeks key with
    | Some w => w
    | None => WeekCluster.mk (Message.year msg) (Message.week msg) [] 0 None
    end in
  obj_set weeks key
    (WeekCluster.mk (WeekCluster.year w) (WeekCluster.week w)
       (WeekCluster.messages w ++ [msg])%list (S (WeekCluster.count w))
       (WeekCluster.dateRange w)).

(** The body of its second loop. *)
Definition setDateRange (weekData : WeekCluster.t) : WeekCluster.t :=
  WeekCluster.mk (WeekCluster.year weekData) (WeekCluster.week weekData)
    (WeekCluster.messages weekData) (WeekCluster.count weekData)
    (Some (Parser.getWeekDateRange (WeekCluster.year weekData) (WeekCluster.week weekData))).

(** [clusterByWeeks(messages)]. A week key contains "-W", so it is not an
    array index and the keys are enumerated in insertion order. *)
Definition clusterByWeeks (messages : list message) : obj WeekCluster.t :=
  map (fun kv => (fst kv, setDateRange (snd kv))) (fold_left addToWeek messages []).

(** [getMonthName(monthIndex)] *)
Definition getMonthName (monthIndex : Z) : option string :=
  if (monthIndex <? 0)%Z then None
  else nth_error JSDate.monthNames (Z.to_nat monthIndex).

(** The body of the first loop of [groupIntoMonths]. *)
Definition addToMonth (months : obj MonthGroup.t) (kv : string * WeekCluster.t)
  : obj MonthGroup.t :=
  let weekKey := fst kv in
  let week := snd kv in
  match WeekCluster.messages week with
  | firstMsg :: _ =>
      let monthKey := monthKey (Message.year firstMsg) (Message.month firstMsg) in
      let m :=
        match obj_get months monthKey with
        | Some m => m
        | None =>
            MonthGroup.mk (Message.year firstMsg) (Message.month firstMsg) [] 0
              (getMonthName (Message.month firstMsg))
        end in
      obj_set months monthKey
        (MonthGroup.mk (MonthGroup.year m) (MonthGroup.month m)
           (MonthGroup.weeks m
            ++ [MonthWeek.mk weekKey (WeekCluster.year week) (WeekCluster.week week)
                  (WeekCluster.messages week) (WeekCluster.count week)
                  (WeekCluster.dateRange week)])%list
           (MonthGroup.totalMessages m + WeekCluster.count week)
           (MonthGroup.monthName m))
  | [] => months
  end.

(** [(a, b) => a.year === b.year ? a.week - b.week : a.year - b.year] is
    not positive. *)
Definition weekOrder (a b : MonthWeek.t) : bool :=
  if (MonthWeek.year a =? MonthWeek.year b)%Z
  then (MonthWeek.week a <=? MonthWeek.week b)%Z
  else (MonthWeek.year a <=? MonthWeek.year b)%Z.

Definition sortWeeks (m : MonthGroup.t) : MonthGroup.t :=
  MonthGroup.mk (MonthGroup.year m) (MonthGroup.month m)
    (sort weekOrder (MonthGroup.weeks m)) (MonthGroup.totalMessages m)
    (MonthGroup.monthName m).

(** [groupIntoMonths(weekClusters)]; month keys contain "-". *)
Definition groupIntoMonths (weekClusters : obj WeekCluster.t) : obj MonthGroup.t :=
  map (fun kv => (fst kv, sortWeeks (snd kv))) (fold_left addToMonth weekClusters []).

(** [(a, b) => a.timestamp - b.timestamp] is not positive. *)
Definition byTimestamp (a b : message) : bool :=
  (Message.timestamp a <=? Message.timestamp b)%Z.

(** What the body of the loop of [processConversations] computes for one
    person. The source sorts the array of the conversation in place;
    [ProcessedData.messages] of the result is that array. *)
Definition processOne (messages : list message) : ProcessedData.t :=
  let messages := sort byTimestamp messages in
  let weekClusters := clusterByWeeks messages in
  let monthGroups := groupIntoMonths weekClusters in
  ProcessedData.mk messages (List.length messages) weekClusters monthGroups
    (hd_error messages) (hd_error (rev messages)).

(** What [for (const person in conversations)] meets under a name, and
    what [conversations[person]] then reads. [conversations] is the object
    [extractConversations] has built from [{}] by assignments
    [conversations[personName] = validMessages]. For the name [__proto__]
    that assignment creates no property: through the setter inherited from
    [Object.prototype] it makes the array the prototype of [conversations].
    The loop then meets, after the own names, the indices of that array
    which are not own names, and reads the elements of the array under
    them. The entry of [conversations] under [__proto__] stands for that
    prototype. *)
Inductive property (M : Type) : Type :=
| Own (messages : list M)
| Inherited (element : M).
Arguments Own {M} messages.
Arguments Inherited {M} element.

Definition own {V : Type} (o : obj V) : obj V :=
  filter (fun kv => negb (String.eqb (fst kv) "__proto__")) o.

Definition isOwn {V : Type} (o : obj V) (k : string) : bool :=
  match obj_get (own o) k with
  | Some _ => true
  | None => false
  end.

Definition forIn {M : Type} (conversations : obj (list M)) : list (string * property M) :=
  (map (fun kv => (fst kv, Own (snd kv))) (enumerate (own conversations))
   ++ match obj_get conversations "__proto__" with
      | Some prototype =>
          map (fun kx => (fst kx, Inherited (snd kx)))
              (filter (fun kx => negb (isOwn conversations (fst kx)))
                      (combine (Json.indices (List.length prototype)) prototype))
      | None => []
      end)%list.

Section Conversations.
Context {M P : Type}.

(** The body of the loop on an array: the array as [sort] leaves it, and
    the entry stored in [processed]. *)
Variable body : list M -> list M * P.

(** The loop of [processConversations], on [conversations] (whose arrays it
    sorts in place) and [processed]. [messages.sort] is not a function when
    [messages] is a message and not an array. *)
Fixpoint processLoop (entries : list (string * property M))
  (conversations : obj (list M)) (processed : obj P) : obj (list M) * result (obj P) :=
  match entries with
  | [] => (conversations, Ok processed)
  | (person, Own messages) :: rest =>
      let (sorted, entry) := body messages in
      processLoop rest (obj_set conversations person sorted) (obj_set processed person entry)
  | (person, Inherited _) :: _ => (conversations, Throw TypeError)
  end.

(** [processConversations(conversations)]: what [conversations] holds when
    it returns or throws, and what it returns. *)
Definition processConversations (conversations : obj (list M))
  : obj (list M) * result (obj P) :=
  processLoop (forIn conversations) conversations [].

End Conversations.

(** [processConversations] on normalized messages. *)
Definition processAll (conversations : obj (list message))
  : obj (list message) * result (obj ProcessedData.t) :=
  processConversations
    (fun messages => let p := processOne messages in (ProcessedData.messages p, p))
    conversations.

(** [detectMessageBursts(messages)] *)
Definition BURST_THRESHOLD : Q := 30.
Definition MIN_BURST_SIZE : nat := 5.

(** The object pushed for a run, [currentBurst[0]] being its first message. *)
Definition burstOf (first : message) (currentBurst : list message) : Burst.t :=
  let lastMsg := last currentBurst first in
  Burst.mk (Message.date first) (Message.date lastMsg) (List.length currentBurst)
    (inject_Z (Message.timestamp lastMsg - Message.timestamp first) / inject_Z (1000 * 60))%Q.

(** [if (currentBurst.length >= MIN_BURST_SIZE) bursts.push({...})] *)
Definition pushBurst (bursts : list Burst.t) (currentBurst : list message) : list Burst.t :=
  if MIN_BURST_SIZE <=? List.length currentBurst then
    match currentBurst with
    | first :: _ => (bursts ++ [burstOf first currentBurst])%list
    | [] => bursts
    end
  else bursts.

(** One turn of the loop, on the state [(bursts, currentBurst)]. *)
Definition burstStep (state : list Burst.t * list message) (msg : message)
  : list Burst.t * list message :=
  let (bursts, currentBurst) := state in
  match currentBurst with
  | [] => (bursts, [msg])
  | first :: _ =>
      let lastMsg := last currentBurst first in
      let timeDiff :=
        (inject_Z (Message.timestamp msg - Message.timestamp lastMsg)
         / inject_Z (1000 * 60))%Q in
      if Qle_bool timeDiff BURST_THRESHOLD
      then (bursts, (currentBurst ++ [msg])%list)
      else (pushBurst bursts currentBurst, [msg])
  end.

Definition detectMessageBursts (messages : list message) : list Burst.t :=
  let (bursts, currentBurst) := fold_left burstStep messages ([], []) in
  pushBurst bursts currentBurst.

(** [calculateMedian(arr)] *)
Definition calculateMedian (arr : list Q) : Q :=
  if List.length arr =? 0 then 0%Q
  else
    let sorted := sort Qle_bool arr in
    let mid := List.length sorted / 2 in
    if List.length sorted mod 2 =? 0
    then ((nth (mid - 1) sorted 0 + nth mid sorted 0) / 2)%Q
    else nth mid sorted 0%Q.

Definition average (l : list Q) : Q :=
  if 0 <? List.length l
  then (fold_left Qplus l 0 / inject_Z (Z.of_nat (List.length l)))%Q
  else 0%Q.

Section WithIdentity.
(** [window.appData.userIdentity]; [None] is [null]. *)
Variable userIdentity : option string.

(** [getUserIdentity(messages)] *)
Definition getUserIdentity (messages : list message) : string :=
  match userIdentity with
  | None => "you"
  | Some u =>
      if String.eqb u "" then "you"
      else if existsb (fun m => String.eqb (Message.from m) u) messages then u
      else
        match messages with
        | m :: _ => Message.from m
        | [] => "you"
        end
  end.

(** The counting loop of [calculateBalanceScore], on [(youCount, themCount)]. *)
Definition countStep (who : string) (counts : nat * nat) (msg : message) : nat * nat :=
  if String.eqb (Message.from msg) who
  then (S (fst counts), snd counts)
  else (fst counts, S (snd counts)).

(** [100 - (Math.abs(50 - yourPercentage) * 2)] *)
Definition balanceOf (yourPercentage : Q) : Q :=
  (100 - Qabs (50 - yourPercentage) * 2)%Q.

Definition percentageOf (part total : nat) : Q :=
  (inject_Z (Z.of_nat part) / inject_Z (Z.of_nat total) * 100)%Q.

Definition noBalance : BalanceScore.t :=
  BalanceScore.mk (NumV (Num 0)) (NumV (Num 0)) (NumV (Num 0)) 0 0.

(** [calculateBalanceScore(messages)] *)
Definition calculateBalanceScore (messages : list message) : BalanceScore.t :=
  if List.length messages =? 0 then noBalance
  else
    let who := getUserIdentity messages in
    let counts := fold_left (countStep who) messages (0, 0) in
    let youCount := fst counts in
    let themCount := snd counts in
    let total := youCount + themCount in
    if total =? 0 then noBalance
    else
      let yourPercentage := percentageOf youCount total in
      let theirPercentage := percentageOf themCount total in
      let score := balanceOf yourPercentage in
      BalanceScore.mk (StrV (toFixed1_Q score)) (StrV (toFixed1_Q yourPercentage))
        (StrV (toFixed1_Q theirPercentage)) youCount themCount.

(** The loop of [calculateResponseTimes], on [(you, them)], over the
    adjacent pairs. *)
Fixpoint responseLoop (who : string) (prevMsg : message) (rest : list message)
  (times : list Q * list Q) : list Q * list Q :=
  match rest with
  | [] => times
  | currMsg :: rest' =>
      let times' :=
        if negb (String.eqb (Message.from prevMsg) (Message.from currMsg)) then
          let timeDiff :=
            (inject_Z (Message.timestamp currMsg - Message.timestamp prevMsg)
             / inject_Z (1000 * 60))%Q in
          if String.eqb (Message.from currMsg) who
          then ((fst times ++ [timeDiff])%list, snd times)
          else (fst times, (snd times ++ [timeDiff])%list)
        else times in
      responseLoop who currMsg rest' times'
  end.

(** [calculateResponseTimes(messages)] *)
Definition calculateResponseTimes (messages : list message) : ResponseTimes.t :=
  match messages with
  | [] => ResponseTimes.mk 0 0 0 0
  | first :: rest =>
      let who := getUserIdentity messages in
      let times := responseLoop who first rest ([], []) in
      ResponseTimes.mk (average (fst times)) (average (snd times))
        (calculateMedian (fst times)) (calculateMedian (snd times))
  end.

(** The loop of [calculateInitiatorScore], on [(youInitiated, themInitiated)]. *)
Fixpoint initiatorLoop (who : string) (prevMsg : message) (rest : list message)
  (counts : nat * nat) : nat * nat :=
  match rest with
  | [] => counts
  | msg :: rest' =>
      let counts' :=
        if (6 * 60 * 60 * 1000 <? Message.timestamp msg - Message.timestamp prevMsg)%Z
        then countStep who counts msg
        else counts in
      initiatorLoop who msg rest' counts'
  end.

Definition initiatorPercentage (part total : nat) : value :=
  if 0 <? total then StrV (toFixed1_Q (percentageOf part total)) else NumV (Num 0).

(** [calculateInitiatorScore(messages)] *)
Definition calculateInitiatorScore (messages : list message) : InitiatorScore.t :=
  match messages with
  | [] => InitiatorScore.mk 0 0 (NumV (Num 0)) (NumV (Num 0))
  | first :: rest =>
      let who := getUserIdentity messages in
      let counts := initiatorLoop who first rest (0, 0) in
      let counts := countStep who counts first in
      let total := fst counts + snd counts in
      InitiatorScore.mk (fst counts) (snd counts)
        (initiatorPercentage (fst counts) total) (initiatorPercentage (snd counts) total)
  end.

End WithIdentity.

(** *** Overview and chart data *)

(** [for (const person in processed)]: [processed] is built by
    [processConversations], which stores under enumerated names only, so
    its names are own properties. *)

(** [getTotalMessageCount(processed)] *)
Definition getTotalMessageCount (processed : obj ProcessedData.t) : nat :=
  fold_left (fun total kv => total + ProcessedData.totalMessages (snd kv))
            (enumerate processed) 0.

(** [(a, b) => b.count - a.count] is not positive. *)
Definition byCount (a b : string * nat) : bool := snd b <=? snd a.

(** [sortParticipantsByCount(processed)]: the objects [{ name, count }]. *)
Definition sortParticipantsByCount (processed : obj ProcessedData.t) : list (string * nat) :=
  sort byCount
       (map (fun kv => (fst kv, ProcessedData.totalMessages (snd kv))) (enumerate processed)).

(** [!earliest]: [null] and the number 0 are falsy. *)
Definition unset (x : option Z) : bool :=
  match x with
  | None => true
  | Some t => (t =? 0)%Z
  end.

(** The body of the loop of [getDateRange], on [(earliest, latest)];
    [data.firstMessage.timestamp] is a property read on [undefined] when
    the conversation has no message. *)
Definition rangeStep (range : option Z * option Z) (data : ProcessedData.t)
  : result (option Z * option Z) :=
  match ProcessedData.firstMessage data with
  | None => Throw TypeError
  | Some first =>
      let earliest :=
        match fst range with
        | Some e =>
            if unset (fst range) || (Message.timestamp first <? e)%Z
            then Some (Message.timestamp first) else fst range
        | None => Some (Message.timestamp first)
        end in
      match ProcessedData.lastMessage data with
      | None => Throw TypeError
      | Some final =>
          let latest :=
            match snd range with
            | Some l =>
                if unset (snd range) || (l <? Message.timestamp final)%Z
                then Some (Message.timestamp final) else snd range
            | None => Some (Message.timestamp final)
            end in
          Ok (earliest, latest)
      end
  end.

Fixpoint rangeLoop (entries : list (string * ProcessedData.t)) (range : option Z * option Z)
  : result (option Z * option Z) :=
  match entries with
  | [] => Ok range
  | kv :: rest => range' <- rangeStep range (snd kv) ;; rangeLoop rest range'
  end.

(** [getDateRange(processed)]; [new Date(null)] is the epoch. *)
Definition getDateRange (processed : obj ProcessedData.t) : result Parser.DateRange.t :=
  range <- rangeLoop (enumerate processed) (None, None) ;;
  let time (x : option Z) := match x with Some t => t | None => 0%Z end in
  Ok (Parser.DateRange.mk (time (fst range)) (time (snd range))).

(** [counts[i]++] on an array of counters, for an index within it. *)
Fixpoint increment (counts : list nat) (i : nat) : list nat :=
  match counts, i with
  | [], _ => []
  | c :: rest, O => S c :: rest
  | c :: rest, S k => c :: increment rest k
  end.

(** [getMessagesByDayOfWeek(messages)]: [new Array(7).fill(0)], and for
    each message the counter of [new Date(msg.timestamp).getDay()], which
    is one of 0..6. *)
Definition getMessagesByDayOfWeek (messages : list message) : list nat :=
  fold_left
    (fun byDay msg => increment byDay (Z.to_nat (JSDate.getDay (Message.timestamp msg))))
    messages (repeat 0 7).

(** [{ morning, afternoon, evening, night }] *)
Record timeOfDay : Type := mkTimeOfDay {
  morning : nat;
  afternoon : nat;
  evening : nat;
  night : nat
}.

(** The body of the loop of [getTimeOfDayDistribution]. *)
Definition timeOfDayStep (distribution : timeOfDay) (msg : message) : timeOfDay :=
  let hour := Message.hour msg in
  let (m, a, e, n) := distribution in
  if (5 <=? hour)%Z && (hour <=? 11)%Z then mkTimeOfDay (S m) a e n
  else if (12 <=? hour)%Z && (hour <=? 17)%Z then mkTimeOfDay m (S a) e n
  else if (18 <=? hour)%Z && (hour <=? 22)%Z then mkTimeOfDay m a (S e) n
  else mkTimeOfDay m a e (S n).

(** [getTimeOfDayDistribution(messages)] *)
Definition getTimeOfDayDistribution (messages : list message) : timeOfDay :=
  fold_left timeOfDayStep messages (mkTimeOfDay 0 0 0 0).

(** The body of the loop of [findMostActiveMonth], on
    [(mostActive, maxCount)]. *)
Definition activeStep (state : option MonthGroup.t * nat) (kv : string * MonthGroup.t)
  : option MonthGroup.t * nat :=
  if snd state <? MonthGroup.totalMessages (snd kv)
  then (Some (snd kv), MonthGroup.totalMessages (snd kv))
  else state.

(** [findMostActiveMonth(monthGroups)]; [None] is [null]. *)
Definition findMostActiveMonth (monthGroups : obj MonthGroup.t) : option MonthGroup.t :=
  fst (fold_left activeStep (enumerate monthGroups) (None, 0)).

End Processor.

(** ** [Stats] and [StatsIndividual] *)
Module TypeCounts.
(** [{ text: 0, link: 0, media: 0, sticker: 0, empty: 0 }] *)
Record t : Type := mk {
  text : nat;
  link : nat;
  media : nat;
  sticker : nat;
  empty : nat
}.
End TypeCounts.

Module TypePercentages.
Record t : Type := mk {
  text : string;
  link : string;
  media : string;
  sticker : string;
  empty : string
}.
End TypePercentages.

Module ContentBreakdown.
Record t : Type := mk {
  counts : TypeCounts.t;
  percentages : TypePercentages.t
}.
End ContentBreakdown.

Module Milestone.
Inductive kind : Type := first | count | anniversary.
Record t : Type := mk {
  type : kind;
  date : Z;
  message : string;
  icon : string
}.
End Milestone.

Module Stats.

(** [types[msg.type]++]; every type of the model is a key of [types]. *)
Definition countType (types : TypeCounts.t) (msg : message) : TypeCounts.t :=
  let (t, l, m, s, e) := types in
  match Message.type msg with
  | Message.text => TypeCounts.mk (S t) l m s e
  | Message.link => TypeCounts.mk t (S l) m s e
  | Message.media => TypeCounts.mk t l (S m) s e
  | Message.sticker => TypeCounts.mk t l m (S s) e
  | Message.empty => TypeCounts.mk t l m s (S e)
  end.

(** [countMessageTypes(messages)] *)
Definition countMessageTypes (messages : list message) : TypeCounts.t :=
  fold_left countType messages (TypeCounts.mk 0 0 0 0 0).

(** [countLinks(messages)] *)
Definition countLinks (messages : list message) : nat :=
  List.length (filter (fun m => Message.type_eqb (Message.type m) Message.link) messages).

(** [countMedia(messages)] *)
Definition countMedia (messages : list message) : nat :=
  List.length (filter (fun m => Message.type_eqb (Message.type m) Message.media) messages).

End Stats.

Module StatsIndividual.
Import JS.

(** [((n / total) * 100).toFixed(1)] *)
Definition percentText (n total : nat) : string :=
  toFixed1 (scale (div (inject_Z (Z.of_nat n)) (inject_Z (Z.of_nat total))) 100).

(** [getDetailedContentBreakdown(messages)] *)
Definition getDetailedContentBreakdown (messages : list message) : ContentBreakdown.t :=
  let breakdown := Stats.countMessageTypes messages in
  let total := List.length messages in
  ContentBreakdown.mk breakdown
    (TypePercentages.mk
       (percentText (TypeCounts.text breakdown) total)
       (percentText (TypeCounts.link breakdown) total)
       (percentText (TypeCounts.media breakdown) total)
       (percentText (TypeCounts.sticker breakdown) total)
       (percentText (TypeCounts.empty breakdown) total)).

Definition countMilestones : list Z := [100; 500; 1000; 5000; 10000]%Z.

(** [(a, b) => a.date - b.date] is not positive. *)
Definition byDate (a b : Milestone.t) : bool :=
  (Milestone.date a <=? Milestone.date b)%Z.

Section WithHost.
Variable host : Host.

(** The body of the loop over [countMilestones]. *)
Definition addCountMilestone (messages : list message) (milestones : list Milestone.t)
  (milestone : Z) : list Milestone.t :=
  if (milestone <=? Z.of_nat (List.length messages))%Z then
    match nth_error messages (Z.to_nat (milestone - 1)) with
    | Some milestoneMsg =>
        (milestones
         ++ [Milestone.mk Milestone.count (Message.date milestoneMsg)
               (Number_toLocaleString host milestone ++ "th message")
               "💯"])%list
    | None => milestones
    end
  else milestones.

(** The object pushed for the anniversary number [year]. *)
Definition anniversaryOf (firstDate : Z) (year : nat) : Milestone.t :=
  let y := Z.of_nat year in
  Milestone.mk Milestone.anniversary
    (JSDate.setFullYear firstDate (JSDate.getFullYear firstDate + y)%Z)
    (String_of_Z y ++ " year" ++ (if (1 <? y)%Z then "s" else "") ++ " of conversation")
    "🎂".

(** [calculateMilestones(processedData)]. [messages[0].date] is read without
    a test on the length: on an empty list it is a property read on
    [undefined]. *)
Definition calculateMilestones (processedData : ProcessedData.t)
  : result (list Milestone.t) :=
  let messages := ProcessedData.messages processedData in
  let milestones :=
    match messages with
    | m0 :: _ => [Milestone.mk Milestone.first (Message.date m0) "First message" "🎉"]
    | [] => []
    end in
  let milestones := fold_left (addCountMilestone messages) countMilestones milestones in
  match messages with
  | [] => Throw TypeError
  | m0 :: _ =>
      let firstDate := Message.date m0 in
      let lastDate := Message.date (last messages m0) in
      (* Math.floor(yearsDiff) *)
      let years := ((lastDate - firstDate) / (1000 * 60 * 60 * 24 * 365))%Z in
      let anniversaries := map (anniversaryOf firstDate) (seq 1 (Z.to_nat years)) in
      Ok (sort byDate (milestones ++ anniversaries)%list)
  end.

End WithHost.

(** [{ questionCount, textMessageCount, percentage }] *)
Record questionRatio : Type := mkQuestionRatio {
  questionCount : nat;
  textMessageCount : nat;
  percentage : value
}.

(** The body of the loop of [calculateQuestionRatio], on
    [(questionCount, textMessageCount)]; an empty [content] is falsy. *)
Definition questionStep (counts : nat * nat) (msg : message) : nat * nat :=
  if Message.type_eqb (Message.type msg) Message.text
     && negb (String.eqb (Message.content msg) "")
  then
    (if occurs "?" (Message.content msg) then S (fst counts) else fst counts,
     S (snd counts))
  else counts.

(** [calculateQuestionRatio(messages)] *)
Definition calculateQuestionRatio (messages : list message) : questionRatio :=
  let counts := fold_left questionStep messages (0, 0) in
  mkQuestionRatio (fst counts) (snd counts)
    (if 0 <? snd counts then StrV (percentText (fst counts) (snd counts))
     else NumV (Num 0)).

End StatsIndividual.

(** ** [Exporter] *)
Module Exporter.
Import JS.

(** The line feed written [\n] in the sources. *)
Definition nl : string := String (ascii_of_nat 10) EmptyString.

Definition pad2 (z : Z) : string := padStart (String_of_Z z) 2 "0".

(** The body of the loop that groups the messages by date. The keys are
    formatted dates, which are not array indices. *)
Definition addByDate (byDate : obj (list message)) (msg : message) : obj (list message) :=
  let dateKey := Parser.formatDate (Message.date msg) in
  let group :=
    match obj_get byDate dateKey with
    | Some g => g
    | None => []
    end in
  obj_set byDate dateKey (group ++ [msg])%list.

Definition groupByDate (messages : list message) : obj (list message) :=
  fold_left addByDate messages [].

(** The line written for one message. *)
Definition messageLine (msg : message) : string :=
  let time :=
    pad2 (Message.hour msg) ++ ":" ++ pad2 (JSDate.getMinutes (Message.date msg))
    ++ ":" ++ pad2 (JSDate.getSeconds (Message.date msg)) in
  "**" ++ time ++ "** - [**" ++ Message.from msg ++ "**]: " ++ Message.content msg ++ nl.

(** The section written for one date of [byDate]. *)
Definition dateSection (group : string * list message) : string :=
  "### " ++ fst group ++ nl ++ nl ++ String.concat "" (map messageLine (snd group)).

(** The message log: the sections of the dates in the order of [byDate]. *)
Definition messageLog (messages : list message) : string :=
  String.concat "" (map dateSection (groupByDate messages)).

(** [bySender[msg.from] = (bySender[msg.from] || 0) + 1] *)
Definition addBySender (bySender : obj nat) (msg : message) : obj nat :=
  let n :=
    match obj_get bySender (Message.from msg) with
    | Some n => n
    | None => 0
    end in
  obj_set bySender (Message.from msg) (n + 1).

Definition senderLine (total : nat) (entry : string * nat) : string :=
  "- **Messages from " ++ fst entry ++ "**: " ++ String_of_nat (snd entry)
  ++ " (" ++ StatsIndividual.percentText (snd entry) total ++ "%)" ++ nl.

(** [Math.ceil((dateRange.end - dateRange.start) / (1000 * 60 * 60 * 24)) || 1] *)
Definition daysOf (range : Parser.DateRange.t) : Z :=
  let d :=
    (- ((- (Parser.DateRange.end_ range - Parser.DateRange.start range))
        / (1000 * 60 * 60 * 24)))%Z in
  if (d =? 0)%Z then 1%Z else d.

Section WithHost.
Variable host : Host.

(** The statistics footer. *)
Definition statistics (messages : list message) (range : Parser.DateRange.t) : string :=
  let total := List.length messages in
  let bySender := fold_left addBySender messages [] in
  let types := Stats.countMessageTypes messages in
  "---" ++ nl ++ nl
  ++ "## Statistics" ++ nl ++ nl
  ++ "- **Total Messages**: " ++ String_of_nat total ++ nl
  ++ String.concat "" (map (senderLine total) (enumerate bySender))
  ++ "- **Text Messages**: " ++ String_of_nat (TypeCounts.text types) ++ nl
  ++ "- **Links**: " ++ String_of_nat (TypeCounts.link types) ++ nl
  ++ "- **Media (Photos/Videos)**: " ++ String_of_nat (TypeCounts.media types) ++ nl
  ++ "- **Stickers**: " ++ String_of_nat (TypeCounts.sticker types) ++ nl
  ++ (if 0 <? TypeCounts.empty types
      then "- **Empty Messages**: " ++ String_of_nat (TypeCounts.empty types) ++ nl
      else "")
  ++ "- **Average messages per day**: "
  ++ toFixed1 (div (inject_Z (Z.of_nat total)) (inject_Z (daysOf range))) ++ nl
  ++ nl ++ "---" ++ nl ++ nl
  ++ "*Exported by ConvoHelper Standalone Edition*" ++ nl
  ++ "*Export Date: " ++ exportDate host ++ "*" ++ nl.

(** The header, up to the title of the message log. *)
Definition header (personName : string) (week : WeekCluster.t) (range : Parser.DateRange.t)
  : string :=
  "# Conversation Export: " ++ personName ++ nl ++ nl
  ++ "**Week**: " ++ String_of_Z (WeekCluster.week week)
  ++ " (" ++ String_of_Z (WeekCluster.year week) ++ ")" ++ nl
  ++ "**Total Messages**: " ++ String_of_nat (List.length (WeekCluster.messages week)) ++ nl
  ++ "**Date Range**: "
  ++ Parser.formatDateRange (Parser.DateRange.start range) (Parser.DateRange.end_ range)
  ++ nl ++ nl
  ++ "---" ++ nl ++ nl
  ++ "## Messages" ++ nl ++ nl.

(** [generateWeekMarkdown(personName, week)]; reading [dateRange.start]
    throws when [dateRange] is still [null]. *)
Definition generateWeekMarkdown (personName : string) (week : WeekCluster.t)
  : result string :=
  match WeekCluster.dateRange week with
  | None => Throw TypeError
  | Some range =>
      Ok (header personName week range
          ++ messageLog (WeekCluster.messages week)
          ++ statistics (WeekCluster.messages week) range)
  end.

(** The body of the loop of [exportToZip]; [zip.file(name, text)] adds the
    file [name] to the archive, or replaces it. *)
Definition exportWeek (personName : string) (weekClusters : obj WeekCluster.t)
  (zip : obj string) (weekKey : string) : result (obj string) :=
  match obj_get weekClusters weekKey with
  | None => Ok zip
  | Some week =>
      markdown <- generateWeekMarkdown personName week ;;
      let filename := personName ++ "_" ++ weekKey ++ ".md" in
      Ok (obj_set zip filename markdown)
  end.

Fixpoint exportWeeks (personName : string) (weekClusters : obj WeekCluster.t)
  (zip : obj string) (selectedWeeks : list string) : result (obj string) :=
  match selectedWeeks with
  | [] => Ok zip
  | weekKey :: rest =>
      zip' <- exportWeek personName weekClusters zip weekKey ;;
      exportWeeks personName weekClusters zip' rest
  end.

(** [exportToZip(personName, processedData, selectedWeeks)]: the files of
    the archive that is then serialised. *)
Definition exportToZip (personName : string) (processedData : ProcessedData.t)
  (selectedWeeks : list string) : result (obj string) :=
  exportWeeks personName (ProcessedData.weekClusters processedData) [] selectedWeeks.

(** [generatePreview(personName, processedData, selectedWeeks)]. [marked]
    is the global of that name when the page has loaded the library, and
    then its [parse]. *)
Definition generatePreview (marked : option (string -> string)) (personName : string)
  (processedData : ProcessedData.t) (selectedWeeks : list string) : result string :=
  match selectedWeeks with
  | [] => Ok "<p>No weeks selected</p>"
  | firstKey :: _ =>
      match obj_get (ProcessedData.weekClusters processedData) firstKey with
      | None => Ok "<p>Invalid selection</p>"
      | Some firstWeek =>
          markdown <- generateWeekMarkdown personName firstWeek ;;
          match marked with
          | Some parse => Ok (parse markdown)
          | None => Ok ("<pre>" ++ markdown ++ "</pre>")
          end
      end
  end.

End WithHost.

End Exporter.

(** ** The driver [processData] *)
Module App.
Import JS.

Section Pipeline.
Variable host : Host.

(** The work on one conversation and the stages after clustering are
    parameters: the values they produce, or the exception they leave with.
    [processOne] is the body of the loop of [processConversations]: the
    array as [sort] leaves it, and the entry stored for the person. *)
Variables Processed Overview Enhanced : Type.
Variable processOne : list Parser.parsed -> list Parser.parsed * Processed.
Variable generateOverviewStats : obj Processed -> result Overview.
Variable generateEnhancedOverviewStats : obj Processed -> result Enhanced.
(** The calls on [UI] that end the [try] block. *)
Variable populateOverview : Overview -> result unit.

(** [window.appData] *)
Record appData : Type := mkAppData {
  rawData : option string;
  conversations : option (obj (list Parser.parsed));
  processed : option (obj Processed);
  overviewStats : option Overview;
  enhancedOverviewStats : option Enhanced;
  userIdentity : option string;
  allSenders : list string
}.

Definition setConversations (d : appData) (c : obj (list Parser.parsed)) : appData :=
  mkAppData (rawData d) (Some c) (processed d) (overviewStats d)
    (enhancedOverviewStats d) (userIdentity d) (allSenders d).

Definition setProcessed (d : appData) (p : obj Processed) : appData :=
  mkAppData (rawData d) (conversations d) (Some p) (overviewStats d)
    (enhancedOverviewStats d) (userIdentity d) (allSenders d).

Definition setOverviewStats (d : appData) (o : Overview) : appData :=
  mkAppData (rawData d) (conversations d) (processed d) (Some o)
    (enhancedOverviewStats d) (userIdentity d) (allSenders d).

Definition setEnhancedOverviewStats (d : appData) (e : Enhanced) : appData :=
  mkAppData (rawData d) (conversations d) (processed d) (overviewStats d)
    (Some e) (userIdentity d) (allSenders d).

(** Where a run of [processData] ended. *)
Inductive outcome : Type :=
| NoIdentity
| Completed
| FailedParse
| FailedExtract
| FailedCluster
| FailedStats
| FailedDisplay.

Definition failed (o : outcome) : bool :=
  match o with
  | NoIdentity | Completed => false
  | _ => true
  end.

Definition identitySelected (d : appData) : bool :=
  match userIdentity d with
  | Some u => negb (String.eqb u "")
  | None => false
  end.

(** [processData()]: the session after the run and where the run ended.
    The [catch] clause only reports the error. [JSON.parse(null)] reads the
    text "null". *)
Definition processData (d : appData) : appData * outcome :=
  if negb (identitySelected d) then (d, NoIdentity)
  else
    let text := match rawData d with Some s => s | None => "null" end in
    match Parser.parseJSON host text with
    | Throw _ => (d, FailedParse)
    | Ok data =>
        match Parser.extractConversations host data with
        | Throw _ => (d, FailedExtract)
        | Ok convs =>
            let (sorted, r) := Processor.processConversations processOne convs in
            let d1 := setConversations d sorted in
            match r with
            | Throw _ => (d1, FailedCluster)
            | Ok p =>
                let d2 := setProcessed d1 p in
                match generateOverviewStats p with
                | Throw _ => (d2, FailedStats)
                | Ok o =>
                    let d3 := setOverviewStats d2 o in
                    match generateEnhancedOverviewStats p with
                    | Throw _ => (d3, FailedStats)
                    | Ok e =>
                        let d4 := setEnhancedOverviewStats d3 e in
                        match populateOverview o with
                        | Throw _ => (d4, FailedDisplay)
                        | Ok _ => (d4, Completed)
                        end
                    end
                end
            end
        end
    end.

End Pipeline.

End App.

(** ** [DateRangeFilter] *)
Module DateRangeFilter.
Import JS.

(** The sign and digits matched by [([+-]\d+)] at the head of [s], read by
    [parseInt]. *)
Definition signed_digits (s : string) : option Z :=
  match s with
  | String sign rest =>
      if Ascii.eqb sign "+" || Ascii.eqb sign "-" then
        match class_run is_digit rest with
        | O => None
        | n =>
            match number_of (substring 0 n rest) 0 with
            | Some v => Some (if Ascii.eqb sign "-" then (- v)%Z else v)
            | None => None
            end
        end
      else None
  | EmptyString => None
  end.

(** [currentTimezone.match(/gmt([+-]\d+)/)]: the leftmost match, and its
    group as a number. *)
Fixpoint match_gmt (s : string) : option Z :=
  match
    match strip_prefix "gmt" s with
    | Some rest => signed_digits rest
    | None => None
    end
  with
  | Some v => Some v
  | None =>
      match s with
      | EmptyString => None
      | String _ s' => match_gmt s'
      end
  end.

(** [getTimezoneOffset()], from [this.currentTimezone]. *)
Definition getTimezoneOffset (currentTimezone : string) : Z :=
  if String.eqb currentTimezone "auto" then 0%Z
  else
    match match_gmt currentTimezone with
    | Some v => v
    | None => 0%Z
    end.

(** The entries [{ value, offset }] of the time-zone selector. *)
Definition timezones : list (string * Z) :=
  [("auto", 0); ("gmt-12", -12); ("gmt-11", -11); ("gmt-10", -10); ("gmt-9", -9);
   ("gmt-8", -8); ("gmt-7", -7); ("gmt-6", -6); ("gmt-5", -5); ("gmt-4", -4);
   ("gmt-3", -3); ("gmt-2", -2); ("gmt-1", -1); ("gmt+0", 0); ("gmt+1", 1);
   ("gmt+2", 2); ("gmt+3", 3); ("gmt+4", 4); ("gmt+5", 5); ("gmt+6", 6);
   ("gmt+7", 7); ("gmt+8", 8); ("gmt+9", 9); ("gmt+10", 10); ("gmt+11", 11);
   ("gmt+12", 12)]%Z.

(** [getWeekString(date)]. [d] and [yearStart] are both at midnight;
    [Math.ceil((((d - yearStart) / 86400000) + 1) / 7)] is the ceiling of
    [(d - yearStart + 86400000) / 604800000]. *)
Definition getWeekString (date : Z) : string :=
  (let d := date in
   let d := JSDate.MakeDate (JSDate.Day d) (JSDate.MakeTime 0 0 0 0) in
   let d :=
     JSDate.setDate d
       (JSDate.getDate d + 4 - (if JSDate.getDay d =? 0 then 7 else JSDate.getDay d)) in
   let yearStart := JSDate.Date_ymd (JSDate.getFullYear d) 0 1 in
   let weekNo := - ((- (d - yearStart + 86400000)) / 604800000) in
   String_of_Z (JSDate.getFullYear d) ++ "-W" ++ padStart (String_of_Z weekNo) 2 "0")%Z.

End DateRangeFilter.
(** * Part II. The vocabulary of the properties

    The notions in which the properties of Part III are stated: what the
    specification says of a dictionary of clusters, of a run of messages,
    of a balance, of an element of an upload, of an export; and the sample
    inputs on which the properties are exercised. *)

Local Open Scope list_scope.

(** ** Clusters *)
Section ClusterNotions.
Import JS Processor.

(** The sum of a measure over the values of a dictionary. *)
Definition total {V : Type} (f : V -> nat) (o : JS.obj V) : nat :=
  list_sum (map (fun kv => f (snd kv)) o).

(** The messages held by the clusters, cluster after cluster. *)
Definition clustered (weeks : JS.obj WeekCluster.t) : list message :=
  List.concat (map (fun kv => WeekCluster.messages (snd kv)) weeks).

(** The messages held by the weeks of the month groups. *)
Definition grouped (months : JS.obj MonthGroup.t) : list message :=
  List.concat (map (fun kv => List.concat (map MonthWeek.messages (MonthGroup.weeks (snd kv)))) months).

(** Every cluster counts its own messages. *)
Definition counted (weeks : JS.obj WeekCluster.t) : Prop :=
  Forall (fun kv => WeekCluster.count (snd kv) = List.length (WeekCluster.messages (snd kv)))
         weeks.

(** A message is filed under the key of its own year and week. *)
Definition filed (weeks : obj WeekCluster.t) (m : message) : Prop :=
  exists c,
    obj_get weeks (weekKey (Message.year m) (Message.week m)) = Some c
    /\ In m (WeekCluster.messages c).

(** Every cluster is stored under the key of its own year and week. *)
Definition keyed (weeks : obj WeekCluster.t) : Prop :=
  forall k c, In (k, c) weeks -> k = weekKey (WeekCluster.year c) (WeekCluster.week c).

End ClusterNotions.

(** ** Runs and bursts *)
Section BurstNotions.
Import Processor.

(** [b] comes within 30 minutes of [a]. *)
Definition within30 (a b : message) : Prop :=
  (Message.timestamp b - Message.timestamp a <= 30 * 60 * 1000)%Z.

(** A run: messages in a row, each within 30 minutes of the one before. *)
Inductive run : list message -> Prop :=
| run_one (m : message) : run [m]
| run_cons (a b : message) (l : list message) :
    within30 a b -> run (b :: l) -> run (a :: b :: l).

(** [maximal_runs messages runs]: [runs] cuts [messages] into runs, and two
    neighbouring runs cannot be joined: the first message of the second is
    not within 30 minutes of the last message of the first. *)
Inductive maximal_runs : list message -> list (list message) -> Prop :=
| runs_none : maximal_runs [] []
| runs_last (r : list message) : run r -> maximal_runs r [r]
| runs_more (l : list message) (a b : message) (l' rest : list message)
    (rs : list (list message)) :
    run (l ++ [a]) ->
    ~ within30 a b ->
    maximal_runs rest ((b :: l') :: rs) ->
    maximal_runs ((l ++ [a]) ++ rest) ((l ++ [a]) :: (b :: l') :: rs).

(** The burst the specification describes for a run: its first and last
    dates, its number of messages, and the minutes from its first to its
    last message. *)
Definition burst_of_run (r : list message) : list Burst.t :=
  match r with
  | [] => []
  | first :: _ =>
      let final := last r first in
      [Burst.mk (Message.date first) (Message.date final) (List.length r)
         (inject_Z (Message.timestamp final - Message.timestamp first) / 60000)%Q]
  end.

(** The bursts of a list of runs: those of the runs of five messages or
    more. *)
Definition bursts_of (runs : list (list message)) : list Burst.t :=
  flat_map (fun r => if 5 <=? List.length r then burst_of_run r else []) runs.

End BurstNotions.

(** ** Balance *)
Section BalanceNotions.
Import Processor.

(** Number of messages sent by [who]. *)
Definition sent_by (who : string) (messages : list message) : nat :=
  List.length (filter (fun m => String.eqb (Message.from m) who) messages).

(** The score before [toFixed]: [100 - 2 * |50 - yourPercentage|], with
    [yourPercentage] the share of the messages sent by the resolved
    identity. *)
Definition balance (userIdentity : option string) (messages : list message) : Q :=
  let who := getUserIdentity userIdentity messages in
  100 - 2 * Qabs (50 - percentageOf (sent_by who messages) (List.length messages)).

(** Has an identity been selected in the session? *)
Definition identity_selected (userIdentity : option string) : Prop :=
  exists u, userIdentity = Some u /\ u <> EmptyString.

End BalanceNotions.

(** ** Content *)
Section ContentNotions.
Import JS Parser.

(** Does some byte of [s] satisfy [p]? *)
Fixpoint any_byte (p : ascii -> bool) (s : string) : bool :=
  match s with
  | EmptyString => false
  | String c s' => p c || any_byte p s'
  end.

(** Does [p] occur in [s], letter case apart? *)
Fixpoint contains_ci (p s : string) : bool :=
  match strip_prefix_ci p s with
  | Some _ => true
  | None =>
      match s with
      | EmptyString => false
      | String _ s' => contains_ci p s'
      end
  end.

(** The byte that opens a decorated URL. *)
Definition is_open (c : ascii) : bool := Ascii.eqb c "[".

(** A byte that can occur in a blank string. *)
Definition ws_byte (c : ascii) : bool := ws1 c || (128 <=? code c).

(** Some link ends, letter case apart, in one of [mediaExtensions]. *)
Definition hasMediaExtension (links : list string) : bool :=
  existsb (fun link => existsb (fun ext => endsWith (toLowerCase link) ext) mediaExtensions)
          links.

End ContentNotions.

(** ** Elements of an upload *)
Section ElementNotions.
Import JS Json Parser.

(** The test of the specification on a field: present, a string, and not
    the empty one. *)
Definition nonempty_string (v : option json) : bool :=
  match v with
  | Some (JStr s) => negb (String.eqb s "")
  | _ => false
  end.

(** A field that is present. *)
Definition defined (v : option json) : bool :=
  match v with
  | Some _ => true
  | None => false
  end.

(** An element the specification keeps: it carries a non-empty string
    [Date], a non-empty string [From] and some [Content]. *)
Definition spec_keeps (element : json) : bool :=
  match element with
  | JObj fields =>
      nonempty_string (obj_get fields "Date") && nonempty_string (obj_get fields "From")
      && defined (obj_get fields "Content")
  | _ => false
  end.

(** A field that is a string when it is present. *)
Definition string_or_absent (v : option json) : bool :=
  match v with
  | None | Some (JStr _) => true
  | Some _ => false
  end.

(** An element of the documented format: an object whose [Date] and [From],
    when present, are strings. *)
Definition well_typed (element : json) : bool :=
  match element with
  | JObj fields =>
      string_or_absent (obj_get fields "Date") && string_or_absent (obj_get fields "From")
  | _ => false
  end.

(** An element [validateMessage] accepts. *)
Definition accepted (element : json) : bool :=
  match validateMessage element with
  | Ok b => b
  | Throw _ => false
  end.

End ElementNotions.

(** ** The session *)
Section SessionNotions.
Import JS App.

(** The fields no stage writes. *)
Definition same_upload {Processed Overview Enhanced : Type}
  (d d' : appData Processed Overview Enhanced) : Prop :=
  rawData _ _ _ d' = rawData _ _ _ d
  /\ userIdentity _ _ _ d' = userIdentity _ _ _ d
  /\ allSenders _ _ _ d' = allSenders _ _ _ d.

End SessionNotions.

(** ** Exported files *)
Section ExportNotions.
Import JS Processor Exporter.

(** The name of the file written for a week key. *)
Definition fileName (personName weekKey : string) : string :=
  (personName ++ "_" ++ weekKey ++ ".md")%string.

(** The keys of [l] that are not in [seen], each once, in the order of
    their first occurrence. *)
Fixpoint first_occurrences (seen l : list string) : list string :=
  match l with
  | [] => []
  | k :: l' =>
      if existsb (String.eqb k) seen then first_occurrences seen l'
      else k :: first_occurrences (seen ++ [k]) l'
  end.

(** The selected keys that are keys of [weekClusters], each once. *)
Definition selected_present (weekClusters : obj WeekCluster.t) (selectedWeeks : list string)
  : list string :=
  first_occurrences []
    (filter (fun k => match obj_get weekClusters k with Some _ => true | None => false end)
            selectedWeeks).

(** Every group of [byDate] holds messages of the date that is its key. *)
Definition dated (byDate : obj (list message)) : Prop :=
  forall k g, In (k, g) byDate ->
              Forall (fun m => Parser.formatDate (Message.date m) = k) g.

(** The text written for the week stored under [key], if there is one. *)
Definition markdownOf (host : Host) (personName : string) (weekClusters : obj WeekCluster.t)
  (key : string) : string :=
  match obj_get weekClusters key with
  | Some week =>
      match generateWeekMarkdown host personName week with
      | Ok markdown => markdown
      | Throw _ => EmptyString
      end
  | None => EmptyString
  end.

(** The file written for the week stored under [key]. *)
Definition fileOf (host : Host) (personName : string) (weekClusters : obj WeekCluster.t) (key : string)
  : string * string :=
  (fileName personName key, markdownOf host personName weekClusters key).

End ExportNotions.

(** ** Sample inputs *)

(** [message_at ts sender text type] is the normalized message whose date
    has the time value [ts]: its calendar fields are those [parseMessage]
    computes from that date. *)
Definition message_at (ts : Z) (sender text : string) (type : Message.messageType)
  : message :=
  Message.mk ts ts sender text type (Parser.getISOWeek ts) (JSDate.getFullYear ts)
    (JSDate.getMonth ts) (JSDate.getDate ts) (JSDate.getHours ts) (JSDate.getDay ts).

(** A host for the examples:

    The answers of a browser on the inputs the examples below use: [URL]
    on the one URL they parse, the time zone GMT+0 applied, and [JSON.parse]
    on the uploads of the pipeline examples. Every date string used is
    of the ISO form, and no number above 999 is formatted. *)
Module Sample.
Import Json.

Definition quote : string := String (ascii_of_nat 34) EmptyString.

(** The JSON text of a string. *)
Definition str (s : string) : string := (quote ++ s ++ quote)%string.

Definition element (date sender text : string) : json :=
  JObj [("Date"%string, JStr date); ("From"%string, JStr sender);
        ("Content"%string, JStr text)].

Definition element_text (date sender text : string) : string :=
  ("{" ++ str "Date" ++ ":" ++ str date ++ "," ++ str "From" ++ ":" ++ str sender ++ ","
   ++ str "Content" ++ ":" ++ str text ++ "}")%string.

(** An upload with the conversation [bob], and its text. *)
Definition upload : json :=
  JObj [("Direct Message"%string,
         JObj [("Direct Messages"%string,
                JObj [("ChatHistory"%string,
                       JObj [("Chat History with bob:"%string,
                              JArr [element "2024-12-30 12:00:00" "bob" "hi";
                                    element "2024-12-30 12:01:00" "you" "hello"])])])])].

Definition upload_text : string :=
  ("{" ++ str "Direct Message" ++ ":{" ++ str "Direct Messages" ++ ":{"
   ++ str "ChatHistory" ++ ":{" ++ str "Chat History with bob:" ++ ":["
   ++ element_text "2024-12-30 12:00:00" "bob" "hi" ++ ","
   ++ element_text "2024-12-30 12:01:00" "you" "hello" ++ "]}}}}")%string.

(** An upload whose one conversation is with the partner [__proto__], and
    its text. *)
Definition upload_proto : json :=
  JObj [("Direct Message"%string,
         JObj [("Direct Messages"%string,
                JObj [("ChatHistory"%string,
                       JObj [("Chat History with __proto__:"%string,
                              JArr [element "2024-12-30 12:00:00" "bob" "hi"])])])])].

Definition upload_proto_text : string :=
  ("{" ++ str "Direct Message" ++ ":{" ++ str "Direct Messages" ++ ":{"
   ++ str "ChatHistory" ++ ":{" ++ str "Chat History with __proto__:" ++ ":["
   ++ element_text "2024-12-30 12:00:00" "bob" "hi" ++ "]}}}}")%string.

(** An upload without the [ChatHistory] key, and its text. *)
Definition upload_without_history : json :=
  JObj [("Direct Message"%string, JObj [("Direct Messages"%string, JObj [])])].

Definition upload_without_history_text : string :=
  ("{" ++ str "Direct Message" ++ ":{" ++ str "Direct Messages" ++ ":{}}}")%string.

Definition host : Host := {|
  URL_parse := fun u =>
    if String.eqb u "https://example.com/page"
    then Some ("example.com"%string, "/page"%string) else None;
  Date_parse_other := fun _ => None;
  JSON_parse := fun s =>
    if String.eqb s upload_text then Some upload
    else if String.eqb s upload_without_history_text then Some upload_without_history
    else if String.eqb s upload_proto_text then Some upload_proto
    else None;
  convoHelper := Some (Some 0%Z);
  exportDate := "1/2/2025";
  Number_toLocaleString := JS.String_of_Z
|}.

End Sample.


(** ** Weeks of the calendar *)
Section WeekNotions.
Import JSDate.
Local Open Scope Z_scope.

(** Day number of the first of January of the year [y]. *)
Definition january (y : Z) : Z := days_from_civil y 1 1.

(** The year [new Date(year, 0, d)] means: 0..99 stand for 1900..1999. *)
Definition effective_year (year : Z) : Z :=
  if (0 <=? year) && (year <=? 99) then 1900 + year else year.

(** The Monday that [getWeekDateRange] computes, as a day number. *)
Definition week_start_day (year week : Z) : Z :=
  let s := january (effective_year year) + (week - 1) * 7 in
  let dow := (s + 4) mod 7 in
  if dow <=? 4 then s - dow + 1 else s + 8 - dow.

(** The day number of the Thursday of the Monday-to-Sunday week of [t]. *)
Definition thursday_day (t : Z) : Z := 7 * ((Day t + 3) / 7).

(** The year that Thursday falls in. *)
Definition iso_year (t : Z) : Z := fst (fst (civil_from_days (thursday_day t))).

(** The first Thursday of a year, as a day number. *)
Definition first_thursday (y : Z) : Z :=
  january y + ((4 - (january y + 4) mod 7) + 7) mod 7.

End WeekNotions.

(** ** The vocabulary of the further properties *)

(** [host] once the time zone of offset [k] has been applied. *)
Definition with_offset (host : Host) (k : Z) : Host := {|
  URL_parse := URL_parse host;
  Date_parse_other := Date_parse_other host;
  JSON_parse := JSON_parse host;
  convoHelper := Some (Some k);
  exportDate := exportDate host;
  Number_toLocaleString := Number_toLocaleString host
|}.

(** Two conversations that differ by a shift of the clock: the same
    senders in the same order, every timestamp moved by [c]. *)
Definition shifted (c : Z) (l l' : list message) : Prop :=
  Forall2 (fun m m' => Message.from m' = Message.from m
                       /\ Message.timestamp m' = (Message.timestamp m + c)%Z) l l'.

(** Two messages of conversations that differ by the shift [c]. *)
Definition related (c : Z) (m m' : message) : Prop :=
  Message.from m' = Message.from m /\ Message.timestamp m' = (Message.timestamp m + c)%Z.

(** What of a burst does not depend on the clock. *)
Definition extent (b : Burst.t) : nat * Q := (Burst.messageCount b, Burst.duration b).

(** [a] was sent no later than [b]. *)
Definition earlier (a b : message) : Prop := (Message.timestamp a <= Message.timestamp b)%Z.

(** The key of the week a message is filed under. *)
Definition keyOf (m : message) : string :=
  Processor.weekKey (Message.year m) (Message.week m).

(** The messages of a list that are filed under the key [k]. *)
Definition filedUnder (k : string) (messages : list message) : list message :=
  filter (fun m => String.eqb (keyOf m) k) messages.

(** The cluster the specification describes for a non-empty list of
    messages of one week. *)
Definition clusterOf (range : bool) (ms : list message) : option WeekCluster.t :=
  match ms with
  | [] => None
  | first :: _ =>
      Some (WeekCluster.mk (Message.year first) (Message.week first) ms (List.length ms)
              (if range
               then Some (Parser.getWeekDateRange (Message.year first) (Message.week first))
               else None))
  end.

(** The element of [weeks] that [groupIntoMonths] makes of a cluster. *)
Definition monthWeekOf (key : string) (c : WeekCluster.t) : MonthWeek.t :=
  MonthWeek.mk key (WeekCluster.year c) (WeekCluster.week c) (WeekCluster.messages c)
    (WeekCluster.count c) (WeekCluster.dateRange c).

(** A week of the month stored under [k]: it is made of a cluster whose
    first message is of that month. *)
Definition weekOfMonth (weekClusters : JS.obj WeekCluster.t) (k : string) (w : MonthWeek.t)
  : Prop :=
  exists c first rest,
    In (MonthWeek.key w, c) weekClusters
    /\ w = monthWeekOf (MonthWeek.key w) c
    /\ WeekCluster.messages c = first :: rest
    /\ Processor.monthKey (Message.year first) (Message.month first) = k.

(** What holds of every month group. *)
Definition monthOf (weekClusters : JS.obj WeekCluster.t) (k : string) (m : MonthGroup.t)
  : Prop :=
  MonthGroup.totalMessages m = list_sum (map MonthWeek.count (MonthGroup.weeks m))
  /\ MonthGroup.weeks m <> []
  /\ Forall (weekOfMonth weekClusters k) (MonthGroup.weeks m).

(** An own property of the conversations object, as the loop meets it. *)
Definition ownEntry {M : Type} (kv : string * list M) : string * Processor.property M :=
  (fst kv, Processor.Own (snd kv)).

(** Number of messages of the type [t]. *)
Definition typed (t : Message.messageType) (messages : list message) : nat :=
  List.length (filter (fun m => Message.type_eqb (Message.type m) t) messages).

(** Number of messages whose hour lies in [lo]..[hi]. *)
Definition in_hours (lo hi : Z) (messages : list message) : nat :=
  List.length
    (filter (fun m => (lo <=? Message.hour m)%Z && (Message.hour m <=? hi)%Z) messages).

(** Number of messages sent on the day [d] of the week, 0 being Sunday. *)
Definition on_day (d : nat) (messages : list message) : nat :=
  List.length
    (filter (fun m => Nat.eqb (Z.to_nat (JSDate.getDay (Message.timestamp m))) d) messages).

(** The entries of a conversation whose first or last message is missing. *)
Definition without_messages (data : ProcessedData.t) : Prop :=
  ProcessedData.firstMessage data = None \/ ProcessedData.lastMessage data = None.

(** The time stamps of the first and of the last message, when both exist
    and neither is 0. *)
Definition spans (data : ProcessedData.t) (first final : Z) : Prop :=
  (exists f, ProcessedData.firstMessage data = Some f /\ Message.timestamp f = first)
  /\ (exists l, ProcessedData.lastMessage data = Some l /\ Message.timestamp l = final)
  /\ first <> 0%Z /\ final <> 0%Z.

(** The heading a message is written under in an exported week. *)
Definition headingOf (m : message) : string := Parser.formatDate (Message.date m).

(** The messages of a list written under the heading [d]. *)
Definition writtenUnder (d : string) (messages : list message) : list message :=
  filter (fun m => String.eqb (headingOf m) d) messages.

(** A non-empty list, or nothing. *)
Definition nonempty {A : Type} (l : list A) : option (list A) :=
  match l with
  | [] => None
  | _ => Some l
  end.

(** Is the milestone of the kind [k]? *)
Definition of_kind (k : Milestone.kind) (m : Milestone.t) : bool :=
  match k, Milestone.type m with
  | Milestone.first, Milestone.first
  | Milestone.count, Milestone.count
  | Milestone.anniversary, Milestone.anniversary => true
  | _, _ => false
  end.


(** * Part III. Properties *)

(** ** Dictionaries *)
Section ObjFacts.
Context {V : Type}.

Lemma total_set (f : V -> nat) (o : JS.obj V) (k : string) (v : V) :
  total f (JS.obj_set o k v)
  + match JS.obj_get o k with Some old => f old | None => 0 end
  = total f o + f v.
Proof.
  induction o as [|[k' v'] o IH]; simpl.
  - unfold total; simpl; lia.
  - destruct (String.eqb k' k); unfold total in *; simpl in *; lia.
Qed.

Lemma obj_set_In (o : JS.obj V) (k : string) (v : V) (kv : string * V) :
  In kv (JS.obj_set o k v) -> In kv o \/ snd kv = v.
Proof.
  induction o as [|[k' v'] o IH]; simpl.
  - intros [<-|[]]; auto.
  - destruct (String.eqb k' k); simpl.
    + intros [<-|H]; auto.
    + intros [<-|H]; auto. destruct (IH H); auto.
Qed.

Lemma obj_get_In (o : JS.obj V) (k : string) (v : V) :
  JS.obj_get o k = Some v -> In (k, v) o.
Proof.
  induction o as [|[k' v'] o IH]; simpl; [discriminate|].
  destruct (String.eqb_spec k' k) as [->|_].
  - intros [= ->]; auto.
  - auto.
Qed.

Lemma obj_get_set_same (o : JS.obj V) (k : string) (v : V) :
  JS.obj_get (JS.obj_set o k v) k = Some v.
Proof.
  induction o as [|[k' v'] o IH]; simpl.
  - now rewrite String.eqb_refl.
  - destruct (String.eqb k' k) eqn:E; simpl; now rewrite E.
Qed.

Lemma obj_get_set_other (o : JS.obj V) (k k' : string) (v : V) :
  k <> k' -> JS.obj_get (JS.obj_set o k v) k' = JS.obj_get o k'.
Proof.
  intros Hne. induction o as [|[k0 v0] o IH]; simpl.
  - destruct (String.eqb_spec k k'); [contradiction|reflexivity].
  - destruct (String.eqb_spec k0 k) as [->|Hk]; simpl.
    + destruct (String.eqb_spec k k'); [contradiction|reflexivity].
    + now rewrite IH.
Qed.

Lemma obj_set_keys (o : JS.obj V) (k : string) (v : V) :
  map fst (JS.obj_set o k v)
  = match JS.obj_get o k with
    | Some _ => map fst o
    | None => (map fst o ++ [k])
    end.
Proof.
  induction o as [|[k' v'] o IH]; simpl; [reflexivity|].
  destruct (String.eqb k' k); simpl; [reflexivity|].
  rewrite IH. now destruct (JS.obj_get o k).
Qed.

End ObjFacts.

(** ** Clustering conserves the messages *)
Section Clustering.
Import Processor.

Lemma addToWeek_total (weeks : JS.obj WeekCluster.t) (msg : message) :
  total WeekCluster.count (addToWeek weeks msg) = S (total WeekCluster.count weeks).
Proof.
  unfold addToWeek.
  set (key := weekKey _ _).
  pose proof (total_set WeekCluster.count weeks key) as H.
  destruct (JS.obj_get weeks key) as [w|]; simpl.
  - specialize (H (WeekCluster.mk (WeekCluster.year w) (WeekCluster.week w)
                     (WeekCluster.messages w ++ [msg]) (S (WeekCluster.count w))
                     (WeekCluster.dateRange w))).
    simpl in H. lia.
  - specialize (H (WeekCluster.mk (Message.year msg) (Message.week msg) [msg] 1 None)).
    simpl in H. lia.
Qed.

Lemma addToWeek_counted (weeks : JS.obj WeekCluster.t) (msg : message) :
  counted weeks -> counted (addToWeek weeks msg).
Proof.
  unfold counted. rewrite !Forall_forall. intros H kv Hin.
  unfold addToWeek in Hin. apply obj_set_In in Hin. destruct Hin as [Hin| ->]; auto.
  simpl. rewrite length_app. simpl.
  destruct (JS.obj_get weeks _) as [w|] eqn:E; simpl; [|reflexivity].
  apply obj_get_In in E. specialize (H _ E). simpl in H. lia.
Qed.

Lemma addToWeek_clustered (weeks : JS.obj WeekCluster.t) (msg : message) :
  Permutation (clustered (addToWeek weeks msg)) (clustered weeks ++ [msg]).
Proof.
  unfold addToWeek, clustered.
  set (key := weekKey _ _). clearbody key.
  induction weeks as [|[k w] weeks IH]; simpl.
  - reflexivity.
  - destruct (String.eqb k key) eqn:E; simpl.
    + rewrite <- !app_assoc. apply Permutation_app_head, Permutation_app_comm.
    + rewrite <- app_assoc. now apply Permutation_app_head.
Qed.

Lemma weeks_fold (messages : list message) (weeks : JS.obj WeekCluster.t) :
  counted weeks ->
  let weeks' := fold_left addToWeek messages weeks in
  total WeekCluster.count weeks' = total WeekCluster.count weeks + List.length messages
  /\ counted weeks'
  /\ Permutation (clustered weeks') (clustered weeks ++ messages).
Proof.
  revert weeks. induction messages as [|msg messages IH]; intros weeks Hc; simpl.
  - rewrite app_nil_r. repeat split; auto.
  - destruct (IH (addToWeek weeks msg) (addToWeek_counted _ _ Hc)) as (Ht & Hc' & Hp).
    repeat split; auto.
    + rewrite Ht, addToWeek_total. lia.
    + rewrite Hp, addToWeek_clustered, <- app_assoc. reflexivity.
Qed.

Lemma setDateRange_map (f : WeekCluster.t -> nat) (weeks : JS.obj WeekCluster.t) :
  (forall w, f (setDateRange w) = f w) ->
  total f (map (fun kv => (fst kv, setDateRange (snd kv))) weeks) = total f weeks.
Proof.
  intros Hf. unfold total. rewrite map_map. simpl.
  f_equal. apply map_ext. intros kv. apply Hf.
Qed.

(** The weeks of [clusterByWeeks] hold the messages of the conversation,
    each exactly once, and count them. *)
Lemma clusterByWeeks_conserves (messages : list message) :
  total WeekCluster.count (clusterByWeeks messages) = List.length messages
  /\ counted (clusterByWeeks messages)
  /\ Permutation (clustered (clusterByWeeks messages)) messages.
Proof.
  destruct (weeks_fold messages [] (Forall_nil _)) as (Ht & Hc & Hp).
  unfold clusterByWeeks. repeat split.
  - rewrite setDateRange_map by reflexivity. exact Ht.
  - unfold counted in *. rewrite Forall_map. simpl. exact Hc.
  - unfold clustered in *. rewrite map_map. simpl. exact Hp.
Qed.

Lemma addToMonth_total (months : JS.obj MonthGroup.t) (kv : string * WeekCluster.t) :
  WeekCluster.count (snd kv) = List.length (WeekCluster.messages (snd kv)) ->
  total MonthGroup.totalMessages (addToMonth months kv)
  = total MonthGroup.totalMessages months + WeekCluster.count (snd kv).
Proof.
  intros Hc. unfold addToMonth.
  destruct (WeekCluster.messages (snd kv)) as [|firstMsg rest] eqn:Em.
  - simpl in Hc. lia.
  - set (key := monthKey _ _).
    pose proof (total_set MonthGroup.totalMessages months key) as H.
    destruct (JS.obj_get months key) as [m|]; simpl.
    + match goal with |- total _ (JS.obj_set _ _ ?v) = _ => specialize (H v) end.
      simpl in H. lia.
    + match goal with |- total _ (JS.obj_set _ _ ?v) = _ => specialize (H v) end.
      simpl in H. lia.
Qed.

Lemma addToMonth_grouped (months : JS.obj MonthGroup.t) (kv : string * WeekCluster.t) :
  Permutation (grouped (addToMonth months kv))
              (grouped months ++ WeekCluster.messages (snd kv)).
Proof.
  unfold addToMonth.
  destruct (WeekCluster.messages (snd kv)) as [|firstMsg rest] eqn:Em.
  - now rewrite app_nil_r.
  - set (key := monthKey _ _). clearbody key. unfold grouped.
    induction months as [|[k m] months IH]; simpl.
    + now rewrite !app_nil_r.
    + destruct (String.eqb k key) eqn:E; simpl.
      * rewrite map_app, List.concat_app. simpl. rewrite app_nil_r, <- !app_assoc.
        apply Permutation_app_head, Permutation_app_comm.
      * rewrite <- app_assoc. now apply Permutation_app_head.
Qed.

Lemma months_fold (weeks : JS.obj WeekCluster.t) (months : JS.obj MonthGroup.t) :
  counted weeks ->
  let months' := fold_left addToMonth weeks months in
  total MonthGroup.totalMessages months'
  = total MonthGroup.totalMessages months + total WeekCluster.count weeks
  /\ Permutation (grouped months') (grouped months ++ clustered weeks).
Proof.
  revert months. induction weeks as [|kv weeks IH]; intros months Hc; simpl.
  - unfold total, clustered. simpl. rewrite app_nil_r. split; [lia|reflexivity].
  - inversion Hc as [|? ? Hkv Hc']; subst.
    destruct (IH (addToMonth months kv) Hc') as [Ht Hp]. split.
    + rewrite Ht, addToMonth_total by exact Hkv. unfold total. simpl. lia.
    + rewrite Hp, addToMonth_grouped. unfold clustered. simpl.
      rewrite <- !app_assoc. reflexivity.
Qed.

Lemma insert_sorted_perm {A : Type} (le : A -> A -> bool) (x : A) (l : list A) :
  Permutation (JS.insert_sorted le x l) (x :: l).
Proof.
  induction l as [|y l IH]; simpl; [reflexivity|].
  destruct (le x y); [reflexivity|].
  rewrite IH. apply perm_swap.
Qed.

Lemma sort_perm {A : Type} (le : A -> A -> bool) (l : list A) :
  Permutation (JS.sort le l) l.
Proof.
  induction l as [|x l IH]; simpl; [reflexivity|].
  rewrite insert_sorted_perm. now constructor.
Qed.

Lemma flat_map_perm {A B : Type} (f : A -> list B) (l l' : list A) :
  Permutation l l' -> Permutation (List.concat (map f l)) (List.concat (map f l')).
Proof.
  induction 1; simpl.
  - reflexivity.
  - now apply Permutation_app_head.
  - rewrite !app_assoc. apply Permutation_app_tail, Permutation_app_comm.
  - etransitivity; eassumption.
Qed.

Lemma sortWeeks_grouped (months : JS.obj MonthGroup.t) :
  Permutation (grouped (map (fun kv => (fst kv, sortWeeks (snd kv))) months))
              (grouped months).
Proof.
  unfold grouped. induction months as [|[k m] months IH]; simpl; [reflexivity|].
  apply Permutation_app; [|exact IH].
  apply flat_map_perm, sort_perm.
Qed.

(** C1. Clustering conserves the messages of a conversation: the [count]s
    of the week clusters add up to the number of messages, and so do the
    [totalMessages] of the month groups; moreover the weeks, and the weeks
    filed under the months, hold exactly the messages of the conversation,
    none lost and none twice. *)
Theorem clustering_conserves_messages (messages : list message) :
  let weekClusters := clusterByWeeks messages in
  let monthGroups := groupIntoMonths weekClusters in
  total WeekCluster.count weekClusters = List.length messages
  /\ total MonthGroup.totalMessages monthGroups = List.length messages
  /\ Permutation (clustered weekClusters) messages
  /\ Permutation (grouped monthGroups) messages.
Proof.
  intros weekClusters monthGroups.
  destruct (clusterByWeeks_conserves messages) as (Ht & Hc & Hp).
  destruct (months_fold weekClusters [] Hc) as [Hmt Hmp].
  fold weekClusters in Ht, Hp.
  repeat split; auto.
  - unfold monthGroups, groupIntoMonths, total. rewrite map_map. simpl.
    unfold total in Hmt. simpl in Hmt. rewrite <- Ht. exact Hmt.
  - unfold monthGroups, groupIntoMonths.
    rewrite sortWeeks_grouped, Hmp. simpl. exact Hp.
Qed.

End Clustering.

(** ** Message bursts *)
Section Bursts.
Import Processor.

Lemma within30_spec (a b : message) :
  Qle_bool (inject_Z (Message.timestamp b - Message.timestamp a) / inject_Z (1000 * 60))
           BURST_THRESHOLD = true
  <-> within30 a b.
Proof.
  unfold within30. rewrite Qle_bool_iff.
  unfold BURST_THRESHOLD, Qle, Qdiv, Qmult, Qinv, inject_Z. simpl. lia.
Qed.

Lemma pushBurst_spec (bursts : list Burst.t) (r : list message) :
  pushBurst bursts r = bursts ++ bursts_of [r].
Proof.
  unfold pushBurst, bursts_of, MIN_BURST_SIZE. cbn [flat_map]. rewrite app_nil_r.
  destruct (5 <=? List.length r); [|now rewrite app_nil_r].
  destruct r as [|first r]; [now rewrite app_nil_r|reflexivity].
Qed.

Lemma bursts_of_cons (r : list message) (rs : list (list message)) :
  bursts_of (r :: rs) = bursts_of [r] ++ bursts_of rs.
Proof. unfold bursts_of. simpl. now rewrite app_nil_r. Qed.

Lemma run_nonempty (r : list message) : run r -> r <> [].
Proof. destruct 1; discriminate. Qed.

Lemma run_snoc (r : list message) (d m : message) :
  run r -> within30 (last r d) m -> run (r ++ [m]).
Proof.
  induction 1 as [x|a b l Hab Hr IH]; intros Hw.
  - simpl in *. constructor; [exact Hw|constructor].
  - simpl. constructor; [exact Hab|]. apply IH. exact Hw.
Qed.

Lemma run_app_inv (r : list message) (d e : message) (ext : list message) :
  r <> [] -> run (r ++ e :: ext) -> within30 (last r d) e /\ run (r ++ [e]).
Proof.
  induction r as [|a r IH]; [contradiction|]. intros _ H.
  destruct r as [|b r].
  - simpl in *. inversion H; subst. split; [assumption|]. constructor; [assumption|constructor].
  - inversion H; subst.
    destruct (IH ltac:(discriminate) H4) as [Hw Hr].
    split; [exact Hw|]. simpl. constructor; assumption.
Qed.

Lemma burstStep_extend (bursts : list Burst.t) (first m : message) (cur : list message) :
  within30 (last (first :: cur) first) m ->
  burstStep (bursts, first :: cur) m = (bursts, (first :: cur) ++ [m]).
Proof.
  intros Hw. apply within30_spec in Hw. unfold burstStep. now rewrite Hw.
Qed.

Lemma burstStep_break (bursts : list Burst.t) (first m : message) (cur : list message) :
  ~ within30 (last (first :: cur) first) m ->
  burstStep (bursts, first :: cur) m = (pushBurst bursts (first :: cur), [m]).
Proof.
  intros Hw. unfold burstStep.
  destruct (Qle_bool _ BURST_THRESHOLD) eqn:Eq; [|reflexivity].
  apply within30_spec in Eq. contradiction.
Qed.

(** Inside a run, every turn of the loop extends [currentBurst]. *)
Lemma loop_inside_run (ext : list message) :
  forall (bursts : list Burst.t) (first : message) (cur : list message),
    run ((first :: cur) ++ ext) ->
    fold_left burstStep ext (bursts, first :: cur) = (bursts, (first :: cur) ++ ext).
Proof.
  induction ext as [|e ext IH]; intros bursts first cur Hr.
  - now rewrite app_nil_r.
  - destruct (run_app_inv (first :: cur) first e ext ltac:(discriminate) Hr) as [Hw _].
    cbn [fold_left]. rewrite (burstStep_extend _ _ _ _ Hw).
    change ((first :: cur) ++ [e]) with (first :: (cur ++ [e])).
    rewrite IH; rewrite <- app_comm_cons, <- app_assoc; [reflexivity|exact Hr].
Qed.

Lemma maximal_runs_concat (messages : list message) (runs : list (list message)) :
  maximal_runs messages runs -> messages = List.concat runs.
Proof.
  induction 1; simpl in *.
  - reflexivity.
  - now rewrite app_nil_r.
  - now rewrite IHmaximal_runs.
Qed.

Lemma last_snoc (l : list message) (a d : message) : last (l ++ [a]) d = a.
Proof. apply last_last. Qed.

(** The loop, started on the first message of a division in maximal runs,
    ends with the bursts of that division. *)
Lemma loop_runs (messages : list message) (runs : list (list message)) :
  maximal_runs messages runs ->
  forall (first : message) (rest : list message) (bursts : list Burst.t),
    messages = first :: rest ->
    (let (bs, cur) := fold_left burstStep rest (bursts, [first]) in pushBurst bs cur)
    = bursts ++ bursts_of runs.
Proof.
  induction 1 as [|r Hr|l a b l' rest' rs Hr Hab Hrest IH]; intros first rest bursts E.
  - discriminate.
  - subst r. rewrite (loop_inside_run rest bursts first []) by exact Hr.
    apply pushBurst_spec.
  - pose proof (maximal_runs_concat _ _ Hrest) as Ec. simpl in Ec.
    destruct (l ++ [a]) as [|f ext] eqn:El; [now destruct l|].
    simpl in E. injection E as <- <-.
    assert (Hlast : last (f :: ext) f = a) by (rewrite <- El; apply last_snoc).
    rewrite fold_left_app.
    rewrite (loop_inside_run ext bursts f []) by exact Hr.
    rewrite Ec. cbn [fold_left app].
    rewrite burstStep_break by (rewrite Hlast; exact Hab).
    rewrite (IH b _ (pushBurst bursts (f :: ext)) Ec).
    rewrite pushBurst_spec, <- app_assoc.
    now rewrite (bursts_of_cons (f :: ext) ((b :: l') :: rs)).
Qed.

Lemma within30_dec (a b : message) : {within30 a b} + {~ within30 a b}.
Proof. unfold within30. apply Z_le_dec. Qed.

(** Every list of messages divides into maximal runs. *)
Lemma maximal_runs_exist (messages : list message) :
  exists runs, maximal_runs messages runs.
Proof.
  induction messages as [|m messages [runs IH]].
  - exists []. constructor.
  - inversion IH as [|r Hr|l a b l' rest rs Hr Hab Hrest]; subst.
    + exists [[m]]. do 2 constructor.
    + destruct messages as [|b r']; [now apply run_nonempty in Hr|].
      destruct (within30_dec m b) as [Hw|Hw].
      * exists [m :: b :: r']. constructor. now constructor.
      * exists ([m] :: [b :: r']).
        change (m :: b :: r') with (([] ++ [m]) ++ b :: r').
        apply runs_more; [constructor|exact Hw|now constructor].
    + destruct (l ++ [a]) as [|c r'] eqn:El; [now destruct l|].
      destruct (within30_dec m c) as [Hw|Hw].
      * exists ((m :: c :: r') :: (b :: l') :: rs).
        change ((m :: c :: r') ++ rest) with (m :: (c :: r') ++ rest).
        rewrite <- El in *.
        change (m :: (l ++ [a]) ++ rest) with (((m :: l) ++ [a]) ++ rest).
        change (m :: l ++ [a]) with ((m :: l) ++ [a]).
        apply runs_more; auto.
        simpl. rewrite El. constructor; [exact Hw|]. rewrite <- El. exact Hr.
      * exists ([m] :: (c :: r') :: (b :: l') :: rs).
        change (m :: (c :: r') ++ rest) with (([] ++ [m]) ++ (c :: r') ++ rest).
        apply runs_more; [constructor|exact Hw|exact IH].
Qed.

(** C5. [detectMessageBursts] emits exactly the bursts of the maximal runs
    of the list: the list divides into maximal runs, and for any such
    division the result is the list of the bursts of its runs of at least
    5 messages, each with the length of the run as [messageCount] and the
    minutes between its first and last message as [duration]. In
    particular a run of 5 messages is one burst of count 5, and a run of 4
    messages gives no burst. (Sortedness of the list is not needed.) *)
Theorem detectMessageBursts_maximal_runs (messages : list message) :
  (exists runs, maximal_runs messages runs)
  /\ (forall runs, maximal_runs messages runs ->
        detectMessageBursts messages = bursts_of runs)
  /\ (run messages -> List.length messages = 5 ->
        exists b, detectMessageBursts messages = [b] /\ Burst.messageCount b = 5
                  /\ burst_of_run messages = [b])
  /\ (run messages -> List.length messages = 4 -> detectMessageBursts messages = []).
Proof.
  assert (H : forall runs, maximal_runs messages runs ->
                detectMessageBursts messages = bursts_of runs).
  { intros runs Hruns. unfold detectMessageBursts.
    destruct messages as [|first rest].
    - inversion Hruns; subst; [reflexivity|now apply run_nonempty in H|now destruct l].
    - cbn [fold_left burstStep].
      exact (loop_runs _ _ Hruns first rest [] eq_refl). }
  split; [apply maximal_runs_exist|]. split; [exact H|]. split.
  - intros Hr Hlen. rewrite (H [messages] (runs_last _ Hr)).
    unfold bursts_of. simpl. rewrite Hlen. simpl. rewrite app_nil_r.
    destruct messages as [|first rest]; [discriminate|].
    eexists. split; [reflexivity|]. split; [exact Hlen|reflexivity].
  - intros Hr Hlen. rewrite (H [messages] (runs_last _ Hr)).
    unfold bursts_of. simpl. now rewrite Hlen.
Qed.

End Bursts.

(** ** Balance score *)
Section Balance.
Import Processor.

Lemma sent_by_le (who : string) (messages : list message) :
  sent_by who messages <= List.length messages.
Proof. apply filter_length_le. Qed.

Lemma countStep_fold (who : string) (messages : list message) (you them : nat) :
  fold_left (countStep who) messages (you, them)
  = (you + sent_by who messages,
     them + (List.length messages - sent_by who messages)).
Proof.
  revert you them. induction messages as [|m messages IH]; intros you them.
  - unfold sent_by. simpl. f_equal; lia.
  - cbn [fold_left]. unfold countStep at 2. unfold sent_by in *. cbn [filter fst snd].
    destruct (String.eqb (Message.from m) who); rewrite IH; cbn [List.length fst snd];
      match goal with
      | |- context [List.length (filter ?p messages)] =>
          pose proof (filter_length_le p messages)
      end; unfold message in *; f_equal; lia.
Qed.

#[local] Instance toFixed1_Q_compat : Proper (Qeq ==> eq) JS.toFixed1_Q.
Proof.
  intros q q' E. unfold JS.toFixed1_Q.
  assert (Hle : Qle_bool 0 q = Qle_bool 0 q').
  { apply eq_true_iff_eq. rewrite !Qle_bool_iff. now rewrite E. }
  rewrite Hle. destruct (negb (Qle_bool 0 q')); cbn zeta.
  - assert (Hf : Qfloor (- q * 10 + (1 # 2)) = Qfloor (- q' * 10 + (1 # 2)))
      by (apply Qfloor_comp; now rewrite E).
    now rewrite Hf.
  - assert (Hf : Qfloor (q * 10 + (1 # 2)) = Qfloor (q' * 10 + (1 # 2)))
      by (apply Qfloor_comp; now rewrite E).
    now rewrite Hf.
Qed.

#[local] Instance balanceOf_compat : Proper (Qeq ==> Qeq) balanceOf.
Proof. intros p p' E. unfold balanceOf. now rewrite E. Qed.

Lemma inject_nat_nonzero (n : nat) : 0 < n -> ~ inject_Z (Z.of_nat n) == 0.
Proof.
  intros Hn E. unfold Qeq in E. simpl in E. lia.
Qed.

Lemma percentage_all (n : nat) : 0 < n -> percentageOf n n == 100.
Proof.
  intros Hn. unfold percentageOf. field. now apply inject_nat_nonzero.
Qed.

Lemma percentage_none (total : nat) : percentageOf 0 total == 0.
Proof. unfold percentageOf, Qdiv. simpl. ring. Qed.

Lemma percentage_half (n : nat) : 0 < n -> percentageOf n (n + n) == 50.
Proof.
  intros Hn. unfold percentageOf.
  rewrite Nat2Z.inj_add, inject_Z_plus. field.
  intros E. apply (inject_nat_nonzero n Hn).
  setoid_replace (inject_Z (Z.of_nat n))
    with ((inject_Z (Z.of_nat n) + inject_Z (Z.of_nat n)) / 2)%Q by field.
  rewrite E. reflexivity.
Qed.

Variable userIdentity : option string.

Lemma calculateBalanceScore_nonempty (messages : list message) :
  messages <> [] ->
  let who := getUserIdentity userIdentity messages in
  let you := sent_by who messages in
  let total := List.length messages in
  calculateBalanceScore userIdentity messages
  = BalanceScore.mk (StrV (JS.toFixed1_Q (balanceOf (percentageOf you total))))
      (StrV (JS.toFixed1_Q (percentageOf you total)))
      (StrV (JS.toFixed1_Q (percentageOf (total - you) total)))
      you (total - you).
Proof.
  intros Hne who you total. unfold calculateBalanceScore.
  destruct messages as [|m messages]; [contradiction|].
  cbn [List.length Nat.eqb]. rewrite countStep_fold. cbn [fst snd].
  fold who. fold you.
  pose proof (sent_by_le who (m :: messages)) as Hle. fold you in Hle.
  change (List.length (m :: messages)) with total in Hle |- *.
  replace (0 + (total - you)) with (total - you) by lia.
  replace (0 + you) with you by lia.
  replace (you + (total - you)) with total by lia.
  destruct (total =? 0) eqn:E; [apply Nat.eqb_eq in E; unfold total in E; discriminate|].
  reflexivity.
Qed.

Lemma existsb_sender (who : string) (messages : list message) :
  existsb (fun m => String.eqb (Message.from m) who) messages = true ->
  0 < sent_by who messages.
Proof.
  unfold sent_by. induction messages as [|m messages IH]; simpl; [discriminate|].
  destruct (String.eqb (Message.from m) who); simpl; [lia|exact IH].
Qed.

(** With an identity selected, the fallback resolves to a sender of the
    conversation. *)
Lemma getUserIdentity_sender (messages : list message) :
  identity_selected userIdentity -> messages <> [] ->
  0 < sent_by (getUserIdentity userIdentity messages) messages.
Proof.
  intros (u & -> & Hu) Hne. unfold getUserIdentity.
  destruct (String.eqb_spec u ""); [contradiction|].
  match goal with |- context [existsb ?p messages] => destruct (existsb p messages) eqn:E end.
  - now apply existsb_sender.
  - destruct messages as [|m messages]; [contradiction|].
    unfold sent_by. simpl. rewrite String.eqb_refl. simpl. lia.
Qed.

Lemma sent_by_all (who s : string) (messages : list message) :
  Forall (fun m => Message.from m = s) messages ->
  sent_by who messages = if String.eqb s who then List.length messages else 0.
Proof.
  unfold sent_by. induction 1 as [|m messages Hm _ IH]; simpl.
  - now destruct (String.eqb s who).
  - rewrite Hm. destruct (String.eqb s who); simpl; now rewrite IH.
Qed.

Lemma sent_by_two (a b : string) (messages : list message) :
  a <> b ->
  Forall (fun m => Message.from m = a \/ Message.from m = b) messages ->
  sent_by a messages + sent_by b messages = List.length messages.
Proof.
  intros Hab. unfold sent_by. induction 1 as [|m messages Hm _ IH]; simpl; [reflexivity|].
  destruct Hm as [-> | ->].
  - rewrite String.eqb_refl. destruct (String.eqb_spec a b); [contradiction|]. simpl. lia.
  - rewrite String.eqb_refl. destruct (String.eqb_spec b a); [congruence|]. simpl. lia.
Qed.

Lemma sent_by_other (who a b : string) (messages : list message) :
  Forall (fun m => Message.from m = a \/ Message.from m = b) messages ->
  0 < sent_by who messages -> who = a \/ who = b.
Proof.
  unfold sent_by. induction 1 as [|m messages Hm _ IH]; simpl; [lia|].
  destruct (String.eqb_spec (Message.from m) who) as [<-|_]; [intros _; exact Hm|exact IH].
Qed.

Lemma score_of_balance (messages : list message) (q : Q) :
  messages <> [] -> balance userIdentity messages == q ->
  BalanceScore.score (calculateBalanceScore userIdentity messages) = StrV (JS.toFixed1_Q q).
Proof.
  intros Hne Hq. rewrite calculateBalanceScore_nonempty by exact Hne. cbn [BalanceScore.score].
  f_equal. rewrite <- Hq. apply toFixed1_Q_compat.
  unfold balance, balanceOf. ring.
Qed.


End Balance.


(** The spec's scenario: 3 messages from [bob] and 2 from [you] give 80, a
    single sender gives 0 and the split 2/2 gives 100. *)
Lemma balance_score_scenario :
  let t := 1735560000000%Z in
  let m1 := message_at t "bob" "a" Message.text in
  let m2 := message_at (t + 1000) "you" "b" Message.text in
  BalanceScore.score (Processor.calculateBalanceScore (Some "you"%string) [m1; m2; m1; m2; m1])
  = StrV "80.0"
  /\ BalanceScore.score (Processor.calculateBalanceScore (Some "you"%string) [m1; m1; m1])
     = StrV "0.0"
  /\ BalanceScore.score (Processor.calculateBalanceScore (Some "you"%string) [m1; m2; m2; m1])
     = StrV "100.0".
Proof. vm_compute. repeat split. Qed.

(** ** Content classification *)
Section Scanning.
Import JS Parser.

Lemma any_byte_app (p : ascii -> bool) (s t : string) :
  any_byte p (s ++ t) = any_byte p s || any_byte p t.
Proof.
  induction s as [|c s IH]; simpl; [reflexivity|]. now rewrite IH, orb_assoc.
Qed.

Lemma ws2_bytes (a b : ascii) : ws2 a b = true -> ws_byte a = true /\ ws_byte b = true.
Proof.
  unfold ws2, ws_byte. rewrite andb_true_iff, !Nat.eqb_eq. intros [-> ->].
  split; apply orb_true_r.
Qed.

Lemma ws3_bytes (a b c : ascii) :
  ws3 a b c = true -> ws_byte a = true /\ ws_byte b = true /\ ws_byte c = true.
Proof.
  unfold ws3, ws_byte. intros H.
  assert (128 <= code a /\ 128 <= code b /\ 128 <= code c) as (Ha & Hb & Hc).
  { repeat rewrite ?orb_true_iff, ?andb_true_iff, ?Nat.eqb_eq, ?Nat.leb_le in H. lia. }
  repeat split; apply orb_true_iff; right; now apply Nat.leb_le.
Qed.

(** A blank string is made of white-space bytes. *)
Lemma blank_bytes (n : nat) :
  forall s, String.length s <= n -> blank s = true ->
            any_byte (fun c => negb (ws_byte c)) s = false.
Proof.
  induction n as [|n IH]; intros s Hn Hb.
  - destruct s; [reflexivity|simpl in Hn; lia].
  - destruct s as [|a r1]; [reflexivity|].
    simpl in Hn. cbn [blank] in Hb. cbn [any_byte].
    destruct (ws1 a) eqn:E1.
    + unfold ws_byte. rewrite E1. simpl. apply IH; [lia|exact Hb].
    + destruct r1 as [|b r2]; [discriminate|]. simpl in Hn. cbn [any_byte].
      destruct (ws2 a b) eqn:E2.
      * destruct (ws2_bytes _ _ E2) as [-> ->]. simpl. apply IH; [lia|exact Hb].
      * destruct r2 as [|c r3]; [discriminate|]. simpl in Hn. cbn [any_byte].
        destruct (ws3 a b c) eqn:E3; [|discriminate].
        destruct (ws3_bytes _ _ _ E3) as (-> & -> & ->). simpl. apply IH; [lia|exact Hb].
Qed.

Lemma any_byte_weaken (p q : ascii -> bool) (s : string) :
  (forall c, p c = true -> q c = true) -> any_byte q s = false -> any_byte p s = false.
Proof.
  intros Hpq. induction s as [|c s IH]; simpl; [reflexivity|].
  rewrite orb_false_iff. intros [Hq Hs]. rewrite (IH Hs), orb_false_r.
  destruct (p c) eqn:E; [|reflexivity]. now rewrite (Hpq c E) in Hq.
Qed.

Lemma blank_no_byte (p : ascii -> bool) (s : string) :
  (forall c, p c = true -> ws_byte c = false) ->
  blank s = true -> any_byte p s = false.
Proof.
  intros Hp Hb. apply (any_byte_weaken p (fun c => negb (ws_byte c))).
  - intros c Hc. now rewrite (Hp c Hc).
  - now apply (blank_bytes (String.length s)).
Qed.

Section Driver.
Variable A : Type.
Variable exec : string -> option (A * string).

Lemma test_false_inv (c : ascii) (s : string) :
  test exec (String c s) = false -> exec (String c s) = None /\ test exec s = false.
Proof.
  cbn [test]. destruct (exec (String c s)); [discriminate|auto].
Qed.

(** Without a match, [replace] changes nothing and [match] finds nothing. *)
Lemma replace_no_match (f : A -> result string) (s : string) :
  test exec s = false -> replace exec f s = Ok s.
Proof.
  unfold replace. induction s as [|c s IH]; intros H; [reflexivity|].
  destruct (test_false_inv c s H) as [He Ht].
  cbn [replace_from]. rewrite He, (IH Ht). reflexivity.
Qed.

Lemma matches_no_match (s : string) :
  test exec s = false -> matches exec s = [].
Proof.
  unfold matches. induction s as [|c s IH]; intros H; [reflexivity|].
  destruct (test_false_inv c s H) as [He Ht].
  cbn [matches_from]. now rewrite He, (IH Ht).
Qed.

(** With a match, [match] finds a first one. *)
Lemma matches_first (s : string) :
  exec EmptyString = None ->
  test exec s = true -> exists first rest, matches exec s = first :: rest.
Proof.
  intros Hnil. unfold matches. induction s as [|c s IH]; cbn [test matches_from].
  - rewrite Hnil. discriminate.
  - destruct (exec (String c s)) as [[a r]|]; [eauto|exact IH].
Qed.

(** A replacer that never throws makes [replace] return. *)
Lemma replace_returns (f : A -> result string) (s : string) :
  (forall a, exists x, f a = Ok x) ->
  forall skip, exists r, replace_from exec f skip s = Ok r.
Proof.
  intros Hf. induction s as [|c s IH]; intros skip; cbn [replace_from]; [eauto|].
  destruct skip as [|k]; [|apply IH].
  destruct (exec (String c s)) as [[a rest]|].
  - destruct (Hf a) as [x ->]. destruct (IH (String.length (String c s) - String.length rest - 1)) as [r ->].
    simpl. eauto.
  - destruct (IH 0) as [r ->]. simpl. eauto.
Qed.

(** What [replace] returns is its argument, or contains a replacement. *)
Lemma replace_shape (p : ascii -> bool) (f : A -> result string) (s : string) :
  (forall a x, f a = Ok x -> any_byte p x = true) ->
  forall skip r, replace_from exec f skip s = Ok r ->
                 r = drop skip s \/ any_byte p r = true.
Proof.
  intros Hf. induction s as [|c s IH]; intros skip r; cbn [replace_from].
  - intros [= <-]. left. now destruct skip.
  - destruct skip as [|k]; [|apply IH].
    destruct (exec (String c s)) as [[a rest]|].
    + destruct (f a) as [x|] eqn:Ef; [|discriminate]. simpl.
      destruct (replace_from exec f _ s) as [tl|]; [|discriminate]. simpl.
      intros [= <-]. right. rewrite any_byte_app, (Hf a x Ef). reflexivity.
    + destruct (replace_from exec f 0 s) as [tl|] eqn:Et; [|discriminate]. simpl.
      intros [= <-]. destruct (IH 0 tl Et) as [-> | H]; [now left|right].
      simpl. rewrite H. apply orb_true_r.
Qed.

(** A match needs the text [http] somewhere. *)
Lemma test_contains (p : string) (s : string) :
  (forall s, exec s <> None -> contains_ci p s = true) ->
  test exec s = true -> contains_ci p s = true.
Proof.
  intros He. induction s as [|c s IH]; cbn [test].
  - destruct (exec EmptyString) eqn:E; [|discriminate]. intros _. apply He. congruence.
  - destruct (exec (String c s)) eqn:E.
    + intros _. apply He. congruence.
    + intros H. cbn [contains_ci]. rewrite (IH H). now destruct (strip_prefix_ci p _).
Qed.

(** A match needs a first byte of the expression somewhere. *)
Lemma test_any_byte (p : ascii -> bool) (s : string) :
  (forall s, exec s <> None -> exists c s', s = String c s' /\ p c = true) ->
  test exec s = true -> any_byte p s = true.
Proof.
  intros He. induction s as [|c s IH]; cbn [test].
  - destruct (exec EmptyString) eqn:E; [|discriminate]. intros _.
    destruct (He EmptyString) as (c & s' & Hs & _); [congruence|discriminate].
  - destruct (exec (String c s)) eqn:E.
    + intros _. destruct (He (String c s)) as (c' & s' & [= <- <-] & Hp); [congruence|].
      simpl. now rewrite Hp.
    + intros H. simpl. rewrite (IH H). apply orb_true_r.
Qed.

End Driver.

End Scanning.

Section Expressions.
Import JS Parser.

Lemma strip_prefix_cons (c : ascii) (s r : string) :
  strip_prefix (String c EmptyString) s = Some r -> s = String c r.
Proof.
  destruct s as [|d s]; simpl; [discriminate|].
  destruct (Ascii.eqb_spec c d) as [->|_]; [now intros [= ->]|discriminate].
Qed.

Lemma strip_prefix_ci_of (p s r : string) :
  strip_prefix p s = Some r -> strip_prefix_ci p s = Some r.
Proof.
  revert s. induction p as [|a p IH]; intros s; simpl; [auto|].
  destruct s as [|b s]; [discriminate|].
  destruct (Ascii.eqb_spec a b) as [->|_]; [|discriminate].
  rewrite Ascii.eqb_refl. apply IH.
Qed.

Lemma strip_prefix_ci_shorter (p q s r : string) :
  strip_prefix_ci (p ++ q) s = Some r -> exists r', strip_prefix_ci p s = Some r'.
Proof.
  revert s. induction p as [|a p IH]; intros s; simpl; [eauto|].
  destruct s as [|b s]; [discriminate|].
  destruct (Ascii.eqb (lower a) (lower b)); [apply IH|discriminate].
Qed.

Lemma contains_ci_prefix (p s r : string) :
  strip_prefix_ci p s = Some r -> contains_ci p s = true.
Proof. intros H. destruct s; simpl; now rewrite H. Qed.

Lemma contains_ci_cons (p : string) (c : ascii) (s : string) :
  contains_ci p s = true -> contains_ci p (String c s) = true.
Proof. intros H. cbn [contains_ci]. rewrite H. now destruct (strip_prefix_ci p _). Qed.

Lemma scheme_ci_http (s r : string) :
  scheme_ci s = Some r -> contains_ci "http" s = true.
Proof.
  unfold scheme_ci. intros H.
  destruct (strip_prefix_ci "https://" s) as [r1|] eqn:E1.
  - destruct (strip_prefix_ci_shorter "http" "s://" s r1 E1) as [r' Hr'].
    exact (contains_ci_prefix _ _ _ Hr').
  - destruct (strip_prefix_ci_shorter "http" "://" s r H) as [r' Hr'].
    exact (contains_ci_prefix _ _ _ Hr').
Qed.

Lemma scheme_http (s r : string) :
  scheme s = Some r -> contains_ci "http" s = true.
Proof.
  unfold scheme. intros H.
  destruct (strip_prefix "https://" s) as [r1|] eqn:E1.
  - apply strip_prefix_ci_of in E1.
    destruct (strip_prefix_ci_shorter "http" "s://" s r1 E1) as [r' Hr'].
    exact (contains_ci_prefix _ _ _ Hr').
  - apply strip_prefix_ci_of in H.
    destruct (strip_prefix_ci_shorter "http" "://" s r H) as [r' Hr'].
    exact (contains_ci_prefix _ _ _ Hr').
Qed.

Lemma stickerRegex_http (s : string) :
  stickerRegex s <> None -> contains_ci "http" s = true.
Proof.
  unfold stickerRegex. intros H.
  destruct (strip_prefix "[" s) as [s1|] eqn:E1; [|contradiction].
  apply strip_prefix_cons in E1. subst s.
  destruct (scheme s1) as [s2|] eqn:E2; [|contradiction].
  apply contains_ci_cons. exact (scheme_http _ _ E2).
Qed.

Lemma tiktokRegex_http (s : string) :
  tiktokRegex s <> None -> contains_ci "http" s = true.
Proof.
  unfold tiktokRegex. intros H.
  destruct (scheme_ci s) as [s1|] eqn:E1; [|contradiction].
  exact (scheme_ci_http _ _ E1).
Qed.

Lemma linkRegex_http (s : string) :
  linkRegex s <> None -> contains_ci "http" s = true.
Proof.
  unfold linkRegex. intros H.
  destruct (scheme s) as [s1|] eqn:E1; [|contradiction].
  exact (scheme_http _ _ E1).
Qed.

(** A blank string does not contain [http]. *)
Lemma is_h_not_ws (c : ascii) :
  Ascii.eqb (lower "h") (lower c) = true -> ws_byte c = false.
Proof.
  destruct c as [[] [] [] [] [] [] [] []]; vm_compute; intros H;
    first [reflexivity | discriminate].
Qed.

Lemma contains_http_byte (s : string) :
  contains_ci "http" s = true ->
  any_byte (fun c => Ascii.eqb (lower "h") (lower c)) s = true.
Proof.
  induction s as [|c s IH]; cbn [contains_ci any_byte].
  - discriminate.
  - destruct (strip_prefix_ci "http" (String c s)) eqn:E.
    + intros _. cbn [strip_prefix_ci] in E.
      destruct (Ascii.eqb (lower "h") (lower c)); [reflexivity|discriminate].
    + intros H. rewrite (IH H). apply orb_true_r.
Qed.

Lemma blank_no_http (s : string) : blank s = true -> contains_ci "http" s = false.
Proof.
  intros Hb. destruct (contains_ci "http" s) eqn:E; [|reflexivity].
  apply contains_http_byte in E.
  now rewrite (blank_no_byte _ s is_h_not_ws Hb) in E.
Qed.

(** Without [http], none of the three expressions matches. *)
Lemma no_http_no_match (s : string) :
  contains_ci "http" s = false ->
  test stickerRegex s = false /\ test tiktokRegex s = false /\ test linkRegex s = false.
Proof.
  intros H. repeat split.
  - destruct (test stickerRegex s) eqn:E; [|reflexivity].
    now rewrite (test_contains _ _ "http" s stickerRegex_http E) in H.
  - destruct (test tiktokRegex s) eqn:E; [|reflexivity].
    now rewrite (test_contains _ _ "http" s tiktokRegex_http E) in H.
  - destruct (test linkRegex s) eqn:E; [|reflexivity].
    now rewrite (test_contains _ _ "http" s linkRegex_http E) in H.
Qed.

Lemma is_open_not_ws (c : ascii) : is_open c = true -> ws_byte c = false.
Proof.
  unfold is_open. destruct (Ascii.eqb_spec c "[") as [->|_]; [reflexivity|discriminate].
Qed.

Lemma stickerPlaceholder_open (p1 x : string) :
  stickerPlaceholder p1 = Ok x -> any_byte is_open x = true.
Proof.
  unfold stickerPlaceholder. destruct (decodeURIComponent p1); simpl; [|discriminate].
  now intros [= <-].
Qed.

Lemma tiktokPlaceholder_open (u : unit) (x : string) :
  tiktokPlaceholder u = Ok x -> any_byte is_open x = true.
Proof. now intros [= <-]. Qed.

(** The content after both replacements is blank only when nothing was
    replaced in a blank content. *)
Lemma clean_blank (content c1 c2 : string) :
  replace stickerRegex stickerPlaceholder content = Ok c1 ->
  replace tiktokRegex tiktokPlaceholder c1 = Ok c2 ->
  blank c2 = true -> c1 = content /\ c2 = content.
Proof.
  intros H1 H2 Hb.
  pose proof (blank_no_byte is_open c2 is_open_not_ws Hb) as Hno.
  destruct (replace_shape _ _ is_open _ c1 tiktokPlaceholder_open 0 c2 H2) as [E|E];
    [|now rewrite E in Hno].
  simpl in E. subst c2.
  destruct (replace_shape _ _ is_open _ content stickerPlaceholder_open 0 c1 H1) as [E|E];
    [|now rewrite E in Hno].
  simpl in E. now subst c1.
Qed.

Lemma tiktok_replace_returns (s : string) :
  exists r, replace tiktokRegex tiktokPlaceholder s = Ok r.
Proof.
  apply replace_returns. intros a. now exists "[Media: TikTok Video]".
Qed.

Variable host : Host.

Lemma processContent_blank (content : string) :
  blank content = true ->
  processContent host content = Ok (EmptyString, Message.empty).
Proof.
  intros Hb. unfold processContent.
  destruct (no_http_no_match content (blank_no_http _ Hb)) as (Hs & Ht & _).
  rewrite (replace_no_match _ _ _ _ Hs). simpl.
  rewrite (replace_no_match _ _ _ _ Ht). simpl. now rewrite Hb.
Qed.

Lemma processContent_sticker (content : string) :
  blank content = false -> test stickerRegex content = true ->
  processContent host content
  = (c1 <- replace stickerRegex stickerPlaceholder content ;;
     c2 <- replace tiktokRegex tiktokPlaceholder c1 ;;
     Ok (c2, Message.sticker)).
Proof.
  intros Hb Hs. unfold processContent.
  destruct (replace stickerRegex stickerPlaceholder content) as [c1|e] eqn:E1; [|reflexivity].
  simpl. destruct (replace tiktokRegex tiktokPlaceholder c1) as [c2|e] eqn:E2; [|reflexivity].
  simpl. destruct (blank c2) eqn:Eb.
  - destruct (clean_blank _ _ _ E1 E2 Eb) as [_ ->]. congruence.
  - now rewrite Hs.
Qed.

Lemma processContent_tiktok (content : string) :
  blank content = false -> test stickerRegex content = false ->
  test tiktokRegex content = true ->
  exists c2,
    replace tiktokRegex tiktokPlaceholder content = Ok c2
    /\ processContent host content = Ok (c2, Message.media).
Proof.
  intros Hb Hs Ht. unfold processContent.
  rewrite (replace_no_match _ _ _ _ Hs). simpl.
  destruct (tiktok_replace_returns content) as [c2 E2]. exists c2. split; [exact E2|].
  rewrite E2. simpl. destruct (blank c2) eqn:Eb.
  - destruct (clean_blank content content c2 (replace_no_match _ _ _ _ Hs) E2 Eb) as [_ ->].
    congruence.
  - now rewrite Hs, Ht.
Qed.

Lemma processContent_link (content : string) :
  blank content = false -> test stickerRegex content = false ->
  test tiktokRegex content = false -> test linkRegex content = true ->
  exists first rest,
    matches linkRegex content = first :: rest
    /\ processContent host content
       = if hasMediaExtension (first :: rest) then Ok (content, Message.media)
         else
           match URL_parse host first with
           | Some (hostname, pathname) =>
               Ok (("[Link: " ++ hostname ++ pathname ++ "]")%string, Message.link)
           | None => Throw TypeError
           end.
Proof.
  intros Hb Hs Ht Hl. unfold processContent.
  destruct (matches_first _ _ content eq_refl Hl) as (first & rest & Hm).
  exists first, rest. split; [exact Hm|].
  rewrite (replace_no_match _ _ _ _ Hs). simpl.
  rewrite (replace_no_match _ _ _ _ Ht). simpl.
  rewrite Hb, Hs, Ht, Hl, Hm. reflexivity.
Qed.

Lemma processContent_text (content : string) :
  blank content = false -> test stickerRegex content = false ->
  test tiktokRegex content = false -> test linkRegex content = false ->
  processContent host content = Ok (content, Message.text).
Proof.
  intros Hb Hs Ht Hl. unfold processContent.
  rewrite (replace_no_match _ _ _ _ Hs). simpl.
  rewrite (replace_no_match _ _ _ _ Ht). simpl.
  now rewrite Hb, Hs, Ht, Hl.
Qed.


(** What a returned type says about the returned text. *)
Lemma processContent_unchanged (content c : string) (t : Message.messageType) :
  processContent host content = Ok (c, t) ->
  (t = Message.empty -> c = EmptyString) /\ (t = Message.text -> c = content).
Proof.
  intros H.
  destruct (blank content) eqn:Hb.
  { rewrite (processContent_blank _ Hb) in H. injection H as <- <-.
    split; [reflexivity|discriminate]. }
  destruct (test stickerRegex content) eqn:Hs.
  { rewrite (processContent_sticker _ Hb Hs) in H.
    destruct (replace stickerRegex stickerPlaceholder content); [|discriminate].
    simpl in H. destruct (replace tiktokRegex tiktokPlaceholder _); [|discriminate].
    injection H as <- <-. split; discriminate. }
  destruct (test tiktokRegex content) eqn:Ht.
  { destruct (processContent_tiktok _ Hb Hs Ht) as (c2 & _ & P). rewrite P in H.
    injection H as <- <-. split; discriminate. }
  destruct (test linkRegex content) eqn:Hl.
  { destruct (processContent_link _ Hb Hs Ht Hl) as (first & rest & _ & P). rewrite P in H.
    destruct (hasMediaExtension _).
    - injection H as <- <-. split; discriminate.
    - destruct (URL_parse host first) as [[hn pn]|]; [|discriminate].
      injection H as <- <-. split; discriminate. }
  rewrite (processContent_text _ Hb Hs Ht Hl) in H. injection H as <- <-.
  split; [discriminate|reflexivity].
Qed.

(** C3, as the code has it. A second pass of [processContent] over its own
    output returns the same type and the same text whenever the first pass
    returned [text] or [empty] or left the text unchanged (which media
    detected by extension does). A rewritten placeholder that contains no
    [http] is not rewritten again, but a second pass classifies it as
    [text], whatever the first pass returned. *)
Theorem processContent_second_pass (content c : string) (t : Message.messageType) :
  (processContent host content = Ok (c, t) ->
     t = Message.text \/ t = Message.empty \/ c = content ->
     processContent host c = Ok (c, t))
  /\ (contains_ci "http" c = false -> blank c = false ->
        processContent host c = Ok (c, Message.text)).
Proof.
  split.
  - intros H Hcase. destruct (processContent_unchanged _ _ _ H) as [He Ht].
    destruct Hcase as [-> | [-> | ->]].
    + rewrite (Ht eq_refl). rewrite (Ht eq_refl) in H. exact H.
    + rewrite (He eq_refl). reflexivity.
    + exact H.
  - intros Hh Hb. destruct (no_http_no_match c Hh) as (Hs & Ht & Hl).
    now apply processContent_text.
Qed.

End Expressions.
(** ** Examples of content classification *)

(** The examples of the comments of [processContent], and one content of
    each type. *)
Lemma processContent_examples :
  Parser.processContent Sample.host
    "[https://media.tenor.com/HtqnVrUcTecAAAAl/plink-cat-blink.webp]"
  = JS.Ok ("[Sticker: plink-cat-blink]"%string, Message.sticker)
  /\ Parser.processContent Sample.host
       "[https://media.tenor.com/YjLre9jqK4IAAAAl/h%E1%BA%A3-l%C3%A0-sao.webp]"
     = JS.Ok ("[Sticker: hả-là-sao]"%string, Message.sticker)
  /\ Parser.processContent Sample.host
       "https://www.tiktokv.com/share/video/7555462846398631176/"
     = JS.Ok ("[Media: TikTok Video]"%string, Message.media)
  /\ Parser.processContent Sample.host "look https://example.com/a.JPG now"
     = JS.Ok ("look https://example.com/a.JPG now"%string, Message.media)
  /\ Parser.processContent Sample.host "look https://example.com/page now"
     = JS.Ok ("[Link: example.com/page]"%string, Message.link)
  /\ Parser.processContent Sample.host "   " = JS.Ok (EmptyString, Message.empty)
  /\ Parser.processContent Sample.host "see you" = JS.Ok ("see you"%string, Message.text).
Proof. vm_compute. repeat split. Qed.


(** The claim C3 as stated fails on the spec's own example: the text
    rewritten for a link, a sticker or a TikTok URL is classified as
    [text] by a second pass, and a sticker next to a link is rewritten
    again. *)
Lemma processContent_not_idempotent :
  Parser.processContent Sample.host "https://example.com/page"
  = JS.Ok ("[Link: example.com/page]"%string, Message.link)
  /\ Parser.processContent Sample.host "[Link: example.com/page]"
     = JS.Ok ("[Link: example.com/page]"%string, Message.text)
  /\ Parser.processContent Sample.host
       "https://www.tiktokv.com/share/video/7555462846398631176/"
     = JS.Ok ("[Media: TikTok Video]"%string, Message.media)
  /\ Parser.processContent Sample.host "[Media: TikTok Video]"
     = JS.Ok ("[Media: TikTok Video]"%string, Message.text)
  /\ Parser.processContent Sample.host "[https://x.com/a.webp] https://example.com/page"
     = JS.Ok ("[Sticker: a] https://example.com/page"%string, Message.sticker)
  /\ Parser.processContent Sample.host "[Sticker: a] https://example.com/page"
     = JS.Ok ("[Link: example.com/page]"%string, Message.link).
Proof. vm_compute. repeat split. Qed.

(** ** Ingestion *)
Section Ingestion.
Import JS Json Parser.

Lemma validateMessage_well_typed (element : json) :
  well_typed element = true -> validateMessage element = Ok (spec_keeps element).
Proof.
  destruct element as [| | | | |fields]; try discriminate.
  unfold well_typed, spec_keeps, validateMessage. cbn [get bind].
  destruct (obj_get fields "Date") as [[| | |d| |]|]; try discriminate;
    destruct (obj_get fields "From") as [[| | |f| |]|]; try discriminate; intros _; cbn;
    try reflexivity.
  - destruct (String.eqb d ""); cbn; [reflexivity|].
    destruct (String.eqb f ""); cbn; [reflexivity|].
    now destruct (obj_get fields "Content").
  - now destruct (String.eqb d "").
Qed.

Lemma validateMessage_returns (element : json) :
  element <> JNull -> validateMessage element = Ok (accepted element).
Proof.
  intros Hn. unfold accepted.
  destruct element as [| | | | |fields]; try reflexivity; [contradiction|].
  unfold validateMessage. cbn [get bind].
  destruct (negb (truthy_opt (obj_get fields "Date"))); [reflexivity|].
  destruct (negb (truthy_opt (obj_get fields "From"))); [reflexivity|].
  now destruct (obj_get fields "Content").
Qed.

Variable host : Host.

(** The inner loop keeps the accepted elements, in order, and parses them. *)
Lemma validMessages_filter (elements : list json) :
  Forall (fun e => e <> JNull) elements ->
  validMessages host elements = mapM (parseMessage host) (filter accepted elements).
Proof.
  induction 1 as [|e elements He _ IH]; [reflexivity|].
  cbn [validMessages filter]. rewrite (validateMessage_returns e He). cbn [bind].
  destruct (accepted e); [|exact IH].
  cbn [mapM]. now rewrite IH.
Qed.

(** What the outer loop leaves in the mapping. *)
Lemma extractAll_entries (entries : list (string * json)) :
  forall conversations result,
    extractAll host conversations entries = Ok result ->
    forall name messages,
      obj_get result name = Some messages ->
      obj_get conversations name = Some messages
      \/ (messages <> []
          /\ exists key value elements,
               In (key, value) entries /\ iterate value = Ok elements
               /\ personName key = name /\ validMessages host elements = Ok messages).
Proof.
  induction entries as [|[key value] entries IH]; intros conversations result; cbn [extractAll].
  - intros [= <-] name messages H. now left.
  - unfold extractOne at 1. cbn [fst snd].
    destruct (iterate value) as [elements|] eqn:Ei; [|discriminate]. cbn [bind].
    destruct (validMessages host elements) as [valid|] eqn:Ev; [|discriminate]. cbn [bind].
    intros H name messages Hget.
    destruct (IH _ _ H name messages Hget) as [Hc|(Hne & k & v & es & Hin & Hrest)].
    + destruct (0 <? List.length valid) eqn:El; [|now left].
      destruct (String.eqb_spec (personName key) name) as [<-|Hk].
      * rewrite obj_get_set_same in Hc. injection Hc as <-. right. split.
        { intros ->. discriminate. }
        exists key, value, elements. repeat split; auto. now left.
      * rewrite obj_get_set_other in Hc by exact Hk. now left.
    + right. split; [exact Hne|]. exists k, v, es. split; [now right|exact Hrest].
Qed.


End Ingestion.


(** An extraction: the elements with an empty [Date], without [From] or
    without [Content] are dropped, the one with an empty [Content] is kept,
    and the conversation left without any message is not in the mapping. *)
Lemma extraction_example :
  let data :=
    Json.JObj [("Direct Message"%string,
                Json.JObj [("Direct Messages"%string,
                            Json.JObj [("ChatHistory"%string,
                                        Json.JObj
                                          [("Chat History with bob:"%string,
                                            Json.JArr
                                              [Sample.element "2024-12-30 12:00:00" "bob" "hi";
                                               Sample.element "" "bob" "no date";
                                               Json.JObj [("Date"%string, Json.JStr "2024-12-30 12:02:00");
                                                          ("Content"%string, Json.JStr "no sender")];
                                               Json.JObj [("Date"%string, Json.JStr "2024-12-30 12:03:00");
                                                          ("From"%string, Json.JStr "bob")];
                                               Sample.element "2024-12-30 12:04:00" "you" ""]);
                                           ("Chat History with eve:"%string,
                                            Json.JArr [Sample.element "" "eve" "no date"])])])])] in
  exists first second,
    Parser.extractConversations Sample.host data = JS.Ok [("bob"%string, [first; second])]
    /\ Message.content first = "hi"%string
    /\ Message.type second = Message.empty.
Proof. vm_compute. do 2 eexists. repeat split. Qed.

(** ** Week keys and week ranges *)
Section WeekKeys.
Import JS Processor.

Lemma obj_set_In_key {V : Type} (o : obj V) (k : string) (v : V) (kv : string * V) :
  In kv (obj_set o k v) -> In kv o \/ kv = (k, v).
Proof.
  induction o as [|[k' v'] o IH]; simpl.
  - intros [<-|[]]; auto.
  - destruct (String.eqb_spec k' k) as [->|_]; simpl.
    + intros [<-|H]; auto.
    + intros [<-|H]; auto. destruct (IH H); auto.
Qed.

Lemma obj_get_map {V W : Type} (f : V -> W) (o : obj V) (k : string) :
  obj_get (map (fun kv => (fst kv, f (snd kv))) o) k = option_map f (obj_get o k).
Proof.
  induction o as [|[k' v'] o IH]; simpl; [reflexivity|].
  now destruct (String.eqb k' k).
Qed.

Lemma addToWeek_files (weeks : obj WeekCluster.t) (msg : message) :
  filed (addToWeek weeks msg) msg.
Proof.
  unfold filed, addToWeek. rewrite obj_get_set_same. eexists. split; [reflexivity|].
  simpl. apply in_or_app. right. now left.
Qed.

Lemma addToWeek_keeps (weeks : obj WeekCluster.t) (msg m : message) :
  filed weeks m -> filed (addToWeek weeks msg) m.
Proof.
  intros (c & Hget & Hin). unfold filed, addToWeek.
  set (key := weekKey (Message.year msg) (Message.week msg)).
  destruct (String.eqb_spec key (weekKey (Message.year m) (Message.week m))) as [E|E].
  - rewrite <- E in *. rewrite obj_get_set_same, Hget. eexists. split; [reflexivity|].
    simpl. apply in_or_app. now left.
  - rewrite obj_get_set_other by exact E. eauto.
Qed.

Lemma addToWeek_keyed (weeks : obj WeekCluster.t) (msg : message) :
  keyed weeks -> keyed (addToWeek weeks msg).
Proof.
  intros Hk k c Hin. unfold addToWeek in Hin.
  apply obj_set_In_key in Hin. destruct Hin as [Hin|[= -> ->]]; [now apply Hk|].
  simpl. destruct (obj_get weeks _) as [w|] eqn:E; simpl; [|reflexivity].
  apply obj_get_In in E. now apply Hk in E.
Qed.

Lemma weeks_fold_filed (messages : list message) :
  forall weeks,
    keyed weeks ->
    keyed (fold_left addToWeek messages weeks)
    /\ (forall m, filed weeks m \/ In m messages ->
                  filed (fold_left addToWeek messages weeks) m).
Proof.
  induction messages as [|msg messages IH]; intros weeks Hk; simpl.
  - split; [exact Hk|]. intros m [H|[]]. exact H.
  - destruct (IH _ (addToWeek_keyed weeks msg Hk)) as [Hk' Hf]. split; [exact Hk'|].
    intros m [H|[<-|H]]; apply Hf.
    + left. now apply addToWeek_keeps.
    + left. apply addToWeek_files.
    + now right.
Qed.

(** The clusters of [clusterByWeeks]: each message is filed under the key
    made of its calendar year and its ISO week number; each cluster is
    stored under the key of its [year] and [week], and its [dateRange] is
    the range [getWeekDateRange] computes from these two. *)
Lemma clusterByWeeks_keys (messages : list message) :
  (forall m, In m messages -> filed (clusterByWeeks messages) m)
  /\ (forall k c, In (k, c) (clusterByWeeks messages) ->
        k = weekKey (WeekCluster.year c) (WeekCluster.week c)
        /\ WeekCluster.dateRange c
           = Some (Parser.getWeekDateRange (WeekCluster.year c) (WeekCluster.week c))).
Proof.
  assert (Hnil : keyed []) by (intros k c []).
  destruct (weeks_fold_filed messages [] Hnil) as [Hk Hf].
  unfold clusterByWeeks. split.
  - intros m Hin. destruct (Hf m (or_intror Hin)) as (c & Hget & Hc).
    exists (setDateRange c). rewrite obj_get_map, Hget. split; [reflexivity|exact Hc].
  - intros k c Hin. apply in_map_iff in Hin. destruct Hin as ([k' c'] & [= <- <-] & Hin).
    simpl. split; [now apply Hk|reflexivity].
Qed.

End WeekKeys.


(** ** The analytics on an empty list *)

(** C8. On the empty list the analytics that test for it return their
    neutral result: response times, initiator score, bursts and balance.
    [calculateMilestones] does not: it reads [messages[0].date] after the
    guarded part and throws a [TypeError]; [getDetailedContentBreakdown]
    returns the text [NaN] for every percentage. On a non-empty list
    [calculateMilestones] returns. *)
Theorem analytics_on_empty_list (host : Host) (identity : option string) :
  Processor.calculateResponseTimes identity [] = ResponseTimes.mk 0 0 0 0
  /\ Processor.calculateInitiatorScore identity []
     = InitiatorScore.mk 0 0 (NumV (JS.Num 0)) (NumV (JS.Num 0))
  /\ Processor.detectMessageBursts [] = []
  /\ Processor.calculateBalanceScore identity []
     = BalanceScore.mk (NumV (JS.Num 0)) (NumV (JS.Num 0)) (NumV (JS.Num 0)) 0 0
  /\ StatsIndividual.calculateMilestones host (Processor.processOne []) = JS.Throw JS.TypeError
  /\ ContentBreakdown.percentages (StatsIndividual.getDetailedContentBreakdown [])
     = TypePercentages.mk "NaN" "NaN" "NaN" "NaN" "NaN"
  /\ (forall processedData,
        ProcessedData.messages processedData <> [] ->
        exists milestones,
          StatsIndividual.calculateMilestones host processedData = JS.Ok milestones).
Proof.
  repeat split; try reflexivity.
  intros processedData Hne. unfold StatsIndividual.calculateMilestones.
  destruct (ProcessedData.messages processedData); [contradiction|]. eauto.
Qed.

(** ** Failures of the pipeline *)
Section PipelineFacts.
Import JS App.

Variable host : Host.
Variables Processed Overview Enhanced : Type.
Variable processOne : list Parser.parsed -> list Parser.parsed * Processed.
Variable generateOverviewStats : obj Processed -> result Overview.
Variable generateEnhancedOverviewStats : obj Processed -> result Enhanced.
Variable populateOverview : Overview -> result unit.

Local Notation "'pipeline'" :=
  (processData host Processed Overview Enhanced processOne
     generateOverviewStats generateEnhancedOverviewStats populateOverview).
Local Notation "'session'" := (appData Processed Overview Enhanced).
Local Notation "'clustering'" := (Processor.processConversations processOne).


End PipelineFacts.


(** A failure of the statistics leaves more behind: the conversations and
    their clustering. *)
Lemma processData_failed_statistics :
  let before :=
    App.mkAppData unit unit unit (Some Sample.upload_text) None None None None
      (Some "you"%string) ["bob"%string; "you"%string] in
  let after :=
    App.processData Sample.host unit unit unit (fun messages => (messages, tt))
      (fun _ => JS.Throw JS.RangeError) (fun _ => JS.Ok tt) (fun _ => JS.Ok tt) before in
  snd after = App.FailedStats
  /\ (exists first second,
        App.conversations _ _ _ (fst after) = Some [("bob"%string, [first; second])])
  /\ App.processed _ _ _ (fst after) = Some [("bob"%string, tt)].
Proof.
  cbv zeta. split; [vm_compute; reflexivity|]. split.
  - do 2 eexists. vm_compute. reflexivity.
  - vm_compute. reflexivity.
Qed.

(** The spec's scenario: an upload without the [ChatHistory] key fails in
    [parseJSON] and the session is unchanged. *)
Lemma processData_missing_key :
  let before :=
    App.mkAppData unit unit unit (Some Sample.upload_without_history_text) None None None None
      (Some "you"%string) [] in
  App.processData Sample.host unit unit unit (fun messages => (messages, tt))
    (fun _ => JS.Ok tt) (fun _ => JS.Ok tt) (fun _ => JS.Ok tt) before
  = (before, App.FailedParse).
Proof. vm_compute. reflexivity. Qed.

(** ** Export *)
Section ExportFacts.
Import JS Processor Exporter.

Lemma append_inj_l (p a b : string) : (p ++ a = p ++ b)%string -> a = b.
Proof. induction p as [|c p IH]; simpl; [auto|]. intros [= H]. auto. Qed.

Lemma append_assoc (a b c : string) : ((a ++ b) ++ c = a ++ b ++ c)%string.
Proof. induction a as [|x a IH]; simpl; [reflexivity|]. now rewrite IH. Qed.

Lemma append_length (a b : string) :
  String.length (a ++ b) = String.length a + String.length b.
Proof. induction a as [|c a IH]; simpl; [reflexivity|]. now rewrite IH. Qed.

Lemma append_inj_r (s a b : string) : (a ++ s = b ++ s)%string -> a = b.
Proof.
  intros H.
  assert (Hlen : String.length a = String.length b).
  { apply (f_equal String.length) in H. rewrite !append_length in H. lia. }
  revert b H Hlen. induction a as [|c a IH]; intros [|d b]; simpl; try discriminate.
  - reflexivity.
  - intros [= -> H] [= Hlen]. f_equal. now apply IH.
Qed.

Lemma fileName_inj (personName k k' : string) :
  fileName personName k = fileName personName k' -> k = k'.
Proof.
  unfold fileName. intros H. apply append_inj_l in H. simpl in H.
  injection H as H. now apply append_inj_r in H.
Qed.

Lemma first_occurrences_spec (l : list string) :
  forall seen,
    NoDup (first_occurrences seen l)
    /\ forall k, In k (first_occurrences seen l)
                 <-> In k l /\ existsb (String.eqb k) seen = false.
Proof.
  induction l as [|k0 l IH]; intros seen; cbn [first_occurrences].
  - split; [constructor|]. intros k. simpl. tauto.
  - destruct (existsb (String.eqb k0) seen) eqn:E.
    + destruct (IH seen) as [Hn Hin]. split; [exact Hn|].
      intros k. rewrite Hin. simpl. split; [tauto|].
      intros [[<-|H] Hk]; [congruence|tauto].
    + destruct (IH (seen ++ [k0])) as [Hn Hin]. split.
      * constructor; [|exact Hn]. rewrite Hin, existsb_app. simpl.
        rewrite String.eqb_refl, orb_true_r. intros [_ H]. discriminate.
      * intros k. simpl. rewrite Hin, existsb_app. simpl. rewrite orb_false_r.
        destruct (String.eqb_spec k k0) as [->|Hk].
        -- rewrite orb_true_r. split; [intros _; auto|auto].
        -- rewrite orb_false_r. split.
           ++ intros [H|[H1 H2]]; [congruence|auto].
           ++ intros [[H|H] H2]; [congruence|auto].
Qed.

Section Files.
Variable file : string -> string * string.
Hypothesis file_inj : forall k k', fst (file k) = fst (file k') -> k = k'.

Lemma obj_set_seen (seen : list string) (k : string) :
  existsb (String.eqb k) seen = true ->
  obj_set (map file seen) (fst (file k)) (snd (file k)) = map file seen.
Proof.
  induction seen as [|k0 seen IH]; simpl; [discriminate|].
  destruct (String.eqb_spec k k0) as [->|Hk].
  - intros _. destruct (file k0) as [name text]. simpl. now rewrite String.eqb_refl.
  - simpl. intros H. destruct (file k0) as [name text] eqn:F0.
    destruct (String.eqb_spec name (fst (file k))) as [E|E].
    + exfalso. apply Hk. symmetry. apply file_inj. now rewrite F0.
    + now rewrite (IH H).
Qed.

Lemma obj_set_unseen (seen : list string) (k : string) :
  existsb (String.eqb k) seen = false ->
  obj_set (map file seen) (fst (file k)) (snd (file k)) = map file (seen ++ [k]).
Proof.
  induction seen as [|k0 seen IH]; simpl.
  - intros _. now rewrite <- surjective_pairing.
  - rewrite orb_false_iff. intros [Hk H].
    destruct (file k0) as [name text] eqn:F0.
    destruct (String.eqb_spec name (fst (file k))) as [E|E].
    + exfalso. assert (k0 = k) as -> by (apply file_inj; now rewrite F0).
      now rewrite String.eqb_refl in Hk.
    + now rewrite (IH H).
Qed.

End Files.

Lemma groupByDate_step (byDate : obj (list message)) (msg : message) :
  Permutation (List.concat (map snd (addByDate byDate msg)))
              (List.concat (map snd byDate) ++ [msg]).
Proof.
  unfold addByDate. set (key := Parser.formatDate _). clearbody key.
  induction byDate as [|[k g] byDate IH]; simpl; [reflexivity|].
  destruct (String.eqb k key); simpl.
  - rewrite <- !app_assoc. apply Permutation_app_head, Permutation_app_comm.
  - rewrite <- app_assoc. now apply Permutation_app_head.
Qed.

Lemma addByDate_dated (byDate : obj (list message)) (msg : message) :
  dated byDate -> dated (addByDate byDate msg).
Proof.
  intros Hd k g Hin. unfold addByDate in Hin.
  apply obj_set_In_key in Hin. destruct Hin as [Hin|[= -> ->]]; [now apply (Hd k)|].
  apply Forall_app. split; [|now repeat constructor].
  destruct (obj_get byDate _) as [g|] eqn:E; [|constructor].
  apply obj_get_In in E. now apply Hd in E.
Qed.

Lemma obj_get_None_keys {V : Type} (o : obj V) (k : string) :
  obj_get o k = None -> ~ In k (map fst o).
Proof.
  induction o as [|[k' v] o IH]; simpl; [auto|].
  destruct (String.eqb_spec k' k) as [->|Hk]; [discriminate|].
  intros H [E|Hin]; [contradiction|]. now apply IH.
Qed.

Lemma obj_set_NoDup {V : Type} (o : obj V) (k : string) (v : V) :
  NoDup (map fst o) -> NoDup (map fst (obj_set o k v)).
Proof.
  intros Hn. rewrite obj_set_keys.
  destruct (obj_get o k) eqn:E; [exact Hn|].
  apply NoDup_app; [exact Hn|repeat constructor; auto| ].
  intros x Hx [<-|[]]. exact (obj_get_None_keys o k E Hx).
Qed.

(** The groups of [groupByDate] divide the messages by formatted date: they
    hold each message once, every group holds the messages of its own
    date, and no date has two groups. *)
Lemma groupByDate_partition (messages : list message) :
  Permutation (List.concat (map snd (groupByDate messages))) messages
  /\ dated (groupByDate messages)
  /\ NoDup (map fst (groupByDate messages)).
Proof.
  unfold groupByDate.
  assert (H : forall byDate,
             dated byDate -> NoDup (map fst byDate) ->
             Permutation (List.concat (map snd (fold_left addByDate messages byDate)))
                         (List.concat (map snd byDate) ++ messages)
             /\ dated (fold_left addByDate messages byDate)
             /\ NoDup (map fst (fold_left addByDate messages byDate))).
  { induction messages as [|msg messages IH]; intros byDate Hd Hn; simpl.
    - rewrite app_nil_r. auto.
    - destruct (IH (addByDate byDate msg) (addByDate_dated _ _ Hd)
                  (obj_set_NoDup _ _ _ Hn)) as (Hp & Hd' & Hn').
      repeat split; auto.
      rewrite Hp, groupByDate_step, <- app_assoc. reflexivity. }
  apply (H []); [intros k g []|constructor].
Qed.

Variable host : Host.

Lemma exportWeeks_files (personName : string) (weekClusters : obj WeekCluster.t) :
  (forall k week, obj_get weekClusters k = Some week ->
                  exists markdown, generateWeekMarkdown host personName week = Ok markdown) ->
  forall selectedWeeks seen,
    exportWeeks host personName weekClusters
      (map (fileOf host personName weekClusters) seen) selectedWeeks
    = Ok (map (fileOf host personName weekClusters)
            (seen
             ++ first_occurrences seen
                  (filter (fun k => match obj_get weekClusters k with
                                    | Some _ => true
                                    | None => false
                                    end) selectedWeeks))).
Proof.
  intros Hmd.
  assert (Hinj : forall k k', fst (fileOf host personName weekClusters k)
                              = fst (fileOf host personName weekClusters k') -> k = k')
    by (intros k k'; apply fileName_inj).
  induction selectedWeeks as [|k rest IH]; intros seen; cbn [exportWeeks filter].
  - cbn. now rewrite app_nil_r.
  - unfold exportWeek at 1.
    destruct (obj_get weekClusters k) as [week|] eqn:Eg; [|cbn [bind]; apply IH].
    destruct (Hmd k week Eg) as [markdown Hm]. rewrite Hm. cbn [bind first_occurrences].
    assert (Hfile : fileOf host personName weekClusters k = (fileName personName k, markdown)).
    { unfold fileOf, markdownOf. now rewrite Eg, Hm. }
    change (personName ++ "_" ++ k ++ ".md")%string with (fileName personName k).
    replace (fileName personName k) with (fst (fileOf host personName weekClusters k))
      by now rewrite Hfile.
    replace markdown with (snd (fileOf host personName weekClusters k)) by now rewrite Hfile.
    destruct (existsb (String.eqb k) seen) eqn:Es.
    + rewrite (obj_set_seen _ Hinj seen k Es). apply IH.
    + rewrite (obj_set_unseen _ Hinj seen k Es), IH, <- app_assoc. reflexivity.
Qed.

Lemma clusterByWeeks_get (messages : list message) (k : string) (week : WeekCluster.t) :
  obj_get (clusterByWeeks messages) k = Some week ->
  k = weekKey (WeekCluster.year week) (WeekCluster.week week)
  /\ WeekCluster.dateRange week
     = Some (Parser.getWeekDateRange (WeekCluster.year week) (WeekCluster.week week)).
Proof.
  intros H. apply obj_get_In in H. now apply clusterByWeeks_keys in H.
Qed.


End ExportFacts.

(** ** The properties on the sample inputs *)


(** A second pass over media detected by extension, and over the
    placeholder of a link. *)
Lemma processContent_second_pass_sample :
  let content := "look https://example.com/a.JPG now"%string in
  let placeholder := "[Link: example.com/page]"%string in
  (Parser.processContent Sample.host content = JS.Ok (content, Message.media)
   /\ Parser.processContent Sample.host content = JS.Ok (content, Message.media))
  /\ (contains_ci "http" placeholder = false
      /\ JS.blank placeholder = false
      /\ Parser.processContent Sample.host placeholder = JS.Ok (placeholder, Message.text)).
Proof.
  cbv zeta. split.
  - split; [reflexivity|].
    apply (processContent_second_pass Sample.host
             "look https://example.com/a.JPG now" "look https://example.com/a.JPG now"
             Message.media); [reflexivity|auto].
  - split; [reflexivity|]. split; [reflexivity|].
    apply (processContent_second_pass Sample.host
             "[Link: example.com/page]" "[Link: example.com/page]" Message.text);
      reflexivity.
Defined.


(** Five messages a minute apart are one burst of five messages and four
    minutes. *)
Lemma detectMessageBursts_sample :
  let at_minute n := message_at (1735560000000 + n * 60000) "bob" "hi" Message.text in
  let messages := [at_minute 0; at_minute 1; at_minute 2; at_minute 3; at_minute 4]%Z in
  run messages
  /\ List.length messages = 5
  /\ exists b,
       Processor.detectMessageBursts messages = [b]
       /\ Burst.messageCount b = 5
       /\ burst_of_run messages = [b].
Proof.
  cbv zeta.
  assert (Hrun : run [message_at (1735560000000 + 0 * 60000) "bob" "hi" Message.text;
                      message_at (1735560000000 + 1 * 60000) "bob" "hi" Message.text;
                      message_at (1735560000000 + 2 * 60000) "bob" "hi" Message.text;
                      message_at (1735560000000 + 3 * 60000) "bob" "hi" Message.text;
                      message_at (1735560000000 + 4 * 60000) "bob" "hi" Message.text]).
  { repeat (apply run_cons; [unfold within30; simpl; lia|]). apply run_one. }
  split; [exact Hrun|]. split; [reflexivity|].
  apply (detectMessageBursts_maximal_runs _); [exact Hrun|reflexivity].
Defined.



(** The milestones of a conversation of one message are computed. *)
Lemma calculateMilestones_sample :
  let processedData :=
    Processor.processOne [message_at 1735560000000 "bob" "hi" Message.text] in
  ProcessedData.messages processedData <> []
  /\ exists milestones,
       StatsIndividual.calculateMilestones Sample.host processedData = JS.Ok milestones.
Proof.
  cbv zeta. split; [discriminate|].
  apply (analytics_on_empty_list Sample.host None). discriminate.
Defined.



(** * Part IV. Further properties of the code *)

(** ** The calendar *)
Section Calendar.
Import JSDate.
Local Open Scope Z_scope.

Ltac cases :=
  repeat match goal with
         | |- context [?a <=? ?b] => destruct (Z.leb_spec a b)
         | |- context [?a <? ?b] => destruct (Z.ltb_spec a b)
         | |- context [?a =? ?b] => destruct (Z.eqb_spec a b)
         end.

Ltac arith := cases; Z.div_mod_to_equations; lia.

Lemma civil_round_trip (z : Z) :
  days_from_civil (fst (fst (civil_from_days z))) (snd (fst (civil_from_days z)))
                  (snd (civil_from_days z)) = z
  /\ 1 <= snd (fst (civil_from_days z)) <= 12
  /\ 1 <= snd (civil_from_days z) <= 31.
Proof.
  unfold civil_from_days, days_from_civil. cbv zeta. cbn [fst snd]. arith.
Qed.

Lemma days_from_civil_day (y m d : Z) :
  days_from_civil y m d = days_from_civil y m 1 + d - 1.
Proof. unfold days_from_civil. cbv zeta. lia. Qed.

Lemma leap_step (yoe : Z) :
  1 <= yoe ->
  0 <= (yoe / 4 - (yoe - 1) / 4) - (yoe / 100 - (yoe - 1) / 100) <= 1.
Proof. intros H. Z.div_mod_to_equations; lia. Qed.

(** The first day of the year of a day is at most 365 days before it. *)
Lemma year_start (z : Z) :
  let y := fst (fst (civil_from_days z)) in
  days_from_civil y 1 1 <= z <= days_from_civil y 1 1 + 365.
Proof.
  unfold civil_from_days, days_from_civil. cbv zeta. cbn [fst snd].
  change (1 <=? 2) with true. cbv iota.
  change ((1 + 9) mod 12) with 10. change ((153 * 10 + 2) / 5 + 1 - 1) with 306.
  set (z' := z + 719468).
  set (era := z' / 146097).
  set (doe := z' - era * 146097).
  assert (Hdoe : 0 <= doe < 146097) by (subst doe era; Z.div_mod_to_equations; lia).
  set (yoe := (doe - doe / 1460 + doe / 36524 - doe / 146096) / 365).
  assert (Hyoe : 0 <= yoe <= 399) by (subst yoe; Z.div_mod_to_equations; lia).
  set (doy := doe - (365 * yoe + yoe / 4 - yoe / 100)).
  assert (Hdoy : 0 <= doy <= 365) by (subst doy yoe; Z.div_mod_to_equations; lia).
  set (mp := (5 * doy + 2) / 153).
  assert (Hz : z = era * 146097 + doe - 719468) by (subst doe z'; lia).
  assert (Hdoe' : doe = 365 * yoe + yoe / 4 - yoe / 100 + doy) by (subst doy; lia).
  clearbody doy yoe doe era. clear z'. subst z.
  destruct (Z.ltb_spec mp 10) as [Hmp|Hmp].
  - assert (Hd : doy <= 305) by (subst mp; Z.div_mod_to_equations; lia).
    assert (Hm : (mp + 3 <=? 2) = false) by (apply Z.leb_gt; subst mp; Z.div_mod_to_equations; lia).
    rewrite Hm.
    destruct (Z.eq_dec yoe 0) as [->|Hne].
    + replace ((0 + era * 400 - 1) / 400) with (era - 1) by (Z.div_mod_to_equations; lia).
      change (0 / 4) with 0 in *. change (0 / 100) with 0 in *.
      replace (0 + era * 400 - 1 - (era - 1) * 400) with 399 by lia.
      change (399 / 4) with 99. change (399 / 100) with 3. lia.
    + replace ((yoe + era * 400 - 1) / 400) with era by (Z.div_mod_to_equations; lia).
      replace (yoe + era * 400 - 1 - era * 400) with (yoe - 1) by lia.
      pose proof (leap_step yoe ltac:(lia)). lia.
  - assert (Hd : 306 <= doy) by (subst mp; Z.div_mod_to_equations; lia).
    assert (Hm : (mp - 9 <=? 2) = true) by (apply Z.leb_le; subst mp; Z.div_mod_to_equations; lia).
    rewrite Hm.
    replace ((yoe + era * 400 + 1 - 1) / 400) with era by (Z.div_mod_to_equations; lia).
    replace (yoe + era * 400 + 1 - 1 - era * 400) with yoe by lia. lia.
Qed.

Lemma time_of_day (t : Z) : t = Day t * msPerDay + TimeWithinDay t /\ 0 <= TimeWithinDay t < msPerDay.
Proof. unfold Day, TimeWithinDay, msPerDay. arith. Qed.

Lemma Day_MakeDate (day time : Z) :
  0 <= time < msPerDay -> Day (MakeDate day time) = day /\ TimeWithinDay (MakeDate day time) = time.
Proof. unfold Day, TimeWithinDay, MakeDate, msPerDay. intros H. arith. Qed.

Lemma MakeDay_of (t d : Z) :
  MakeDay (getFullYear t) (getMonth t) d = Day t + d - getDate t.
Proof.
  unfold MakeDay, getFullYear, getMonth, getDate.
  destruct (civil_round_trip (Day t)) as (H & Hm & _).
  set (m := snd (fst (civil_from_days (Day t)))) in *.
  replace ((m - 1) / 12) with 0 by arith.
  replace ((m - 1) mod 12 + 1) with m by arith.
  rewrite Z.add_0_r. rewrite (days_from_civil_day _ _ (snd _)) in H. lia.
Qed.

Lemma setDate_shift (t d : Z) : setDate t d = t + (d - getDate t) * msPerDay.
Proof.
  unfold setDate. rewrite MakeDay_of. unfold MakeDate.
  destruct (time_of_day t) as [H _]. lia.
Qed.

Lemma MakeDay_january (t d : Z) :
  let first := MakeDay (getFullYear t) 0 1 in
  MakeDay (getFullYear t) 0 d = first + d - 1 /\ first <= Day t <= first + 365.
Proof.
  cbv zeta. unfold MakeDay, getFullYear.
  change (0 / 12) with 0. change (0 mod 12 + 1) with 1. rewrite !Z.add_0_r.
  split; [lia|]. pose proof (year_start (Day t)) as H. cbv zeta in H. lia.
Qed.


Lemma Day_shift (t k : Z) :
  Day (t + k * msPerDay) = Day t + k
  /\ TimeWithinDay (t + k * msPerDay) = TimeWithinDay t
  /\ getDay (t + k * msPerDay) = (getDay t + k) mod 7.
Proof. unfold getDay, Day, TimeWithinDay, msPerDay. arith. Qed.

(** Day number of the first of January. *)
Lemma january_closed (y : Z) :
  days_from_civil y 1 1
  = ((y - 1) / 400) * 146097
    + ((y - 1) mod 400 * 365 + (y - 1) mod 400 / 4 - (y - 1) mod 400 / 100 + 306) - 719468.
Proof.
  unfold days_from_civil. cbv zeta. change (1 <=? 2) with true. cbv iota.
  change ((1 + 9) mod 12) with 10. change ((153 * 10 + 2) / 5 + 1 - 1) with 306.
  replace (y - 1 - (y - 1) / 400 * 400) with ((y - 1) mod 400)
    by (Z.div_mod_to_equations; lia).
  reflexivity.
Qed.

Lemma january_step (y : Z) :
  days_from_civil y 1 1 + 365 <= days_from_civil (y + 1) 1 1 <= days_from_civil y 1 1 + 366.
Proof.
  rewrite !january_closed. replace (y + 1 - 1) with (y - 1 + 1) by lia.
  set (x := y - 1). clearbody x.
  assert (Hr : 0 <= x mod 400 < 400) by (apply Z.mod_pos_bound; lia).
  destruct (Z.eq_dec (x mod 400) 399) as [E|E].
  - replace ((x + 1) / 400) with (x / 400 + 1) by (Z.div_mod_to_equations; lia).
    replace ((x + 1) mod 400) with 0 by (Z.div_mod_to_equations; lia).
    rewrite E. change (399 / 4) with 99. change (399 / 100) with 3.
    change (0 / 4) with 0. change (0 / 100) with 0. lia.
  - replace ((x + 1) / 400) with (x / 400) by (Z.div_mod_to_equations; lia).
    replace ((x + 1) mod 400) with (x mod 400 + 1) by (Z.div_mod_to_equations; lia).
    set (r := x mod 400) in *. clearbody r.
    pose proof (leap_step (r + 1) ltac:(lia)) as H.
    replace (r + 1 - 1) with r in H by lia. lia.
Qed.

Lemma january_mono (y y' : Z) :
  y < y' -> days_from_civil y 1 1 + 365 <= days_from_civil y' 1 1.
Proof.
  intros H. replace y' with (y + 1 + (y' - y - 1)) by lia.
  assert (Hk : 0 <= y' - y - 1) by lia. generalize (y' - y - 1) Hk. clear.
  intros k Hk. revert k Hk. apply (natlike_ind (fun k => _ <= days_from_civil (y + 1 + k) 1 1)).
  - rewrite Z.add_0_r. apply january_step.
  - intros k Hk IH. replace (y + 1 + Z.succ k) with (y + 1 + k + 1) by lia.
    pose proof (january_step (y + 1 + k)). lia.
Qed.

(** A day lies in its own year. *)
Lemma year_bounds (z : Z) :
  let y := fst (fst (civil_from_days z)) in
  days_from_civil y 1 1 <= z < days_from_civil (y + 1) 1 1.
Proof.
  cbv zeta. pose proof (year_start z) as Hs. cbv zeta in Hs. split; [lia|].
  revert Hs. rewrite !january_closed.
  unfold civil_from_days. cbv zeta. cbn [fst snd].
  set (z' := z + 719468).
  set (era := z' / 146097).
  set (doe := z' - era * 146097).
  assert (Hdoe : 0 <= doe < 146097) by (subst doe era; Z.div_mod_to_equations; lia).
  set (yoe := (doe - doe / 1460 + doe / 36524 - doe / 146096) / 365).
  assert (Hyoe : 0 <= yoe <= 399) by (subst yoe; Z.div_mod_to_equations; lia).
  set (doy := doe - (365 * yoe + yoe / 4 - yoe / 100)).
  assert (Hdoy : 0 <= doy <= 365) by (subst doy yoe; Z.div_mod_to_equations; lia).
  set (mp := (5 * doy + 2) / 153).
  assert (Hz : z = era * 146097 + doe - 719468) by (subst doe z'; lia).
  assert (Hdoe' : doe = 365 * yoe + yoe / 4 - yoe / 100 + doy) by (subst doy; lia).
  clearbody doy yoe doe era. clear z'. subst z. intros _.
  destruct (Z.ltb_spec mp 10) as [Hmp|Hmp].
  - assert (Hd : doy <= 305) by (subst mp; Z.div_mod_to_equations; lia).
    assert (Hm : (mp + 3 <=? 2) = false) by (apply Z.leb_gt; subst mp; Z.div_mod_to_equations; lia).
    rewrite Hm.
    replace ((yoe + era * 400 + 1 - 1) / 400) with era by (Z.div_mod_to_equations; lia).
    replace ((yoe + era * 400 + 1 - 1) mod 400) with yoe by (Z.div_mod_to_equations; lia).
    lia.
  - assert (Hm : (mp - 9 <=? 2) = true) by (apply Z.leb_le; subst mp; Z.div_mod_to_equations; lia).
    rewrite Hm.
    destruct (Z.eq_dec yoe 399) as [->|Hne].
    + replace ((399 + era * 400 + 1 + 1 - 1) / 400) with (era + 1) by (Z.div_mod_to_equations; lia).
      replace ((399 + era * 400 + 1 + 1 - 1) mod 400) with 0 by (Z.div_mod_to_equations; lia).
      change (0 / 4) with 0. change (0 / 100) with 0. lia.
    + replace ((yoe + era * 400 + 1 + 1 - 1) / 400) with era by (Z.div_mod_to_equations; lia).
      replace ((yoe + era * 400 + 1 + 1 - 1) mod 400) with (yoe + 1) by (Z.div_mod_to_equations; lia).
      pose proof (leap_step (yoe + 1) ltac:(lia)) as H.
      replace (yoe + 1 - 1) with yoe in H by lia. lia.
Qed.

(** The year is determined by the first of January on or before the day. *)
Lemma year_unique (z y : Z) :
  days_from_civil y 1 1 <= z < days_from_civil (y + 1) 1 1 ->
  fst (fst (civil_from_days z)) = y.
Proof.
  intros H. pose proof (year_bounds z) as Hb. cbv zeta in Hb.
  set (y2 := fst (fst (civil_from_days z))) in *. clearbody y2.
  destruct (Z.lt_trichotomy y2 y) as [Hlt|[E|Hgt]]; [|exact E|].
  - destruct (Z.eq_dec (y2 + 1) y) as [<-|Hne]; [lia|].
    pose proof (january_mono (y2 + 1) y ltac:(lia)). lia.
  - destruct (Z.eq_dec (y + 1) y2) as [<-|Hne]; [lia|].
    pose proof (january_mono (y + 1) y2 ltac:(lia)). lia.
Qed.

Lemma year_of_january (y : Z) : fst (fst (civil_from_days (days_from_civil y 1 1))) = y.
Proof. apply year_unique. pose proof (january_step y). lia. Qed.

End Calendar.

(** ** Weeks *)
Section Weeks.
Import JSDate Parser.
Local Open Scope Z_scope.

Ltac cases :=
  repeat match goal with
         | |- context [?a <=? ?b] => destruct (Z.leb_spec a b)
         | |- context [?a <? ?b] => destruct (Z.ltb_spec a b)
         | |- context [?a =? ?b] => destruct (Z.eqb_spec a b)
         end.
Ltac arith := cases; Z.div_mod_to_equations; lia.



Lemma Date_ymd_january (year d : Z) :
  Date_ymd year 0 d = (january (effective_year year) + d - 1) * msPerDay.
Proof.
  unfold Date_ymd, effective_year, MakeDate, MakeDay, january. cbv zeta.
  change (0 / 12) with 0. change (0 mod 12 + 1) with 1. rewrite !Z.add_0_r. reflexivity.
Qed.

Lemma Day_days (d : Z) : Day (d * msPerDay) = d /\ TimeWithinDay (d * msPerDay) = 0.
Proof. unfold Day, TimeWithinDay, msPerDay. arith. Qed.


Lemma getWeekDateRange_days (year week : Z) :
  DateRange.start (getWeekDateRange year week) = week_start_day year week * msPerDay
  /\ DateRange.end_ (getWeekDateRange year week) = (week_start_day year week + 6) * msPerDay.
Proof.
  unfold getWeekDateRange, week_start_day. cbv zeta. cbn [DateRange.start DateRange.end_].
  rewrite !setDate_shift. rewrite Date_ymd_january.
  set (s := january (effective_year year) + (week - 1) * 7).
  replace (january (effective_year year) + (1 + (week - 1) * 7) - 1) with s by (subst s; lia).
  unfold getDay. destruct (Day_days s) as [-> _].
  destruct (Z.leb_spec ((s + 4) mod 7) 4); split; lia.
Qed.






Lemma first_thursday_spec (y : Z) :
  january y <= first_thursday y <= january y + 6 /\ first_thursday y mod 7 = 0.
Proof. unfold first_thursday. generalize (january y). intros j. arith. Qed.

Lemma thursday_day_spec (t : Z) :
  Day t - 3 <= thursday_day t <= Day t + 3 /\ thursday_day t mod 7 = 0.
Proof. unfold thursday_day. generalize (Day t). intros d. arith. Qed.

Lemma MakeDay_january_of (y d : Z) : MakeDay y 0 d = january y + d - 1.
Proof.
  unfold MakeDay, january. change (0 / 12) with 0. change (0 mod 12 + 1) with 1.
  rewrite Z.add_0_r. reflexivity.
Qed.

Lemma getISOWeek_days (t : Z) :
  getISOWeek t = 1 + (thursday_day t - first_thursday (iso_year t)) / 7.
Proof.
  unfold getISOWeek. cbv zeta.
  rewrite setDate_shift.
  set (dayNr := (getDay t + 6) mod 7).
  replace (getDate t - dayNr + 3 - getDate t) with (3 - dayNr) by lia.
  set (target := t + (3 - dayNr) * msPerDay).
  destruct (Day_shift t (3 - dayNr)) as (HD & HT & _). fold target in HD, HT.
  assert (Hday : Day target = thursday_day t).
  { rewrite HD. unfold thursday_day, dayNr, getDay. generalize (Day t). intros d. arith. }
  assert (Hyear : getFullYear target = iso_year t).
  { unfold getFullYear, iso_year. now rewrite Hday. }
  destruct (time_of_day target) as [Htarget Htod].
  set (tod := TimeWithinDay target) in *.
  set (j := january (iso_year t)).
  assert (Hjan : setMonth target 0 1 = MakeDate j tod).
  { unfold setMonth. rewrite Hyear, MakeDay_january_of. fold tod j. f_equal. lia. }
  rewrite !Hjan.
  destruct (Day_MakeDate j tod Htod) as [Hj Hjt].
  assert (Hfirst :
            (if negb (getDay (MakeDate j tod) =? 4)
             then setMonth (MakeDate j tod) 0 (1 + (4 - getDay (MakeDate j tod) + 7) mod 7)
             else MakeDate j tod)
            = MakeDate (first_thursday (iso_year t)) tod).
  { unfold first_thursday. fold j. unfold getDay. rewrite Hj.
    destruct (Z.eqb_spec ((j + 4) mod 7) 4) as [E|E]; cbn [negb].
    - rewrite E. change ((4 - 4 + 7) mod 7) with 0. now rewrite Z.add_0_r.
    - unfold setMonth. rewrite Hjt. unfold getFullYear. rewrite Hj.
      unfold j at 1. unfold january. rewrite year_of_january. rewrite MakeDay_january_of.
      fold j. f_equal. lia. }
  rewrite Hfirst. rewrite Htarget at 1. rewrite Hday. unfold MakeDate.
  destruct (thursday_day_spec t) as [_ H1].
  destruct (first_thursday_spec (iso_year t)) as [_ H2].
  set (a := thursday_day t) in *. set (b := first_thursday (iso_year t)) in *.
  clearbody a b tod. unfold msPerDay. clear -H1 H2. Z.div_mod_to_equations. lia.
Qed.

Lemma week_number_bounds (a j j' : Z) :
  a mod 7 = 0 -> j <= a < j' -> j' <= j + 366 ->
  1 <= 1 + (a - (j + ((4 - (j + 4) mod 7) + 7) mod 7)) / 7 <= 53.
Proof. intros. Z.div_mod_to_equations. lia. Qed.

Lemma week_start_arith (a j : Z) :
  a mod 7 = 0 ->
  let s := j + (1 + (a - (j + ((4 - (j + 4) mod 7) + 7) mod 7)) / 7 - 1) * 7 in
  (if (s + 4) mod 7 <=? 4 then s - (s + 4) mod 7 + 1 else s + 8 - (s + 4) mod 7) = a - 3.
Proof. intros H. cbv zeta. arith. Qed.


Lemma week_start_of (t : Z) :
  ~ 0 <= iso_year t <= 99 ->
  week_start_day (iso_year t) (getISOWeek t) = thursday_day t - 3.
Proof.
  intros Hy. unfold week_start_day, effective_year.
  replace ((0 <=? iso_year t) && (iso_year t <=? 99)) with false
    by (symmetry; apply andb_false_iff; rewrite Z.leb_gt, Z.leb_gt; lia).
  rewrite getISOWeek_days.
  destruct (thursday_day_spec t) as [_ H1].
  exact (week_start_arith _ (january (iso_year t)) H1).
Qed.


Lemma monday_near (s : Z) :
  let start := if (s + 4) mod 7 <=? 4 then s - (s + 4) mod 7 + 1 else s + 8 - (s + 4) mod 7 in
  s - 3 <= start <= s + 3.
Proof. cbv zeta. arith. Qed.

Lemma week_start_other_year (d a j jn j' jn' : Z) :
  a mod 7 = 0 -> d - 3 <= a <= d + 3 ->
  j <= d < jn -> j + 365 <= jn ->
  j' <= a < jn' -> j' + 365 <= jn' ->
  jn <= j' \/ jn' <= j ->
  let s := j + (1 + (a - (j' + ((4 - (j' + 4) mod 7) + 7) mod 7)) / 7 - 1) * 7 in
  let start := if (s + 4) mod 7 <=? 4 then s - (s + 4) mod 7 + 1 else s + 8 - (s + 4) mod 7 in
  ~ start <= d <= start + 6.
Proof.
  intros H1 H2 H3 H4 H5 H6 H7. cbv zeta.
  set (f := j' + ((4 - (j' + 4) mod 7) + 7) mod 7).
  assert (Hf : j' <= f <= j' + 6 /\ f mod 7 = 0) by (subst f; Z.div_mod_to_equations; lia).
  clearbody f.
  set (k := (a - f) / 7).
  assert (Hk : a - f = 7 * k) by (subst k; Z.div_mod_to_equations; lia).
  clearbody k.
  replace (j + (1 + k - 1) * 7) with (j + 7 * k) by lia.
  pose proof (monday_near (j + 7 * k)) as Hm. cbv zeta in Hm.
  set (start := if (j + 7 * k + 4) mod 7 <=? 4 then _ else _) in *. clearbody start.
  destruct Hf as [Hf _]. clear H1. lia.
Qed.

Lemma in_days (t a : Z) : a * msPerDay <= t < (a + 6) * msPerDay + msPerDay <-> a <= Day t <= a + 6.
Proof. unfold Day, msPerDay. arith. Qed.

Lemma years_apart (y y' : Z) :
  y <> y' -> january (y + 1) <= january y' \/ january (y' + 1) <= january y.
Proof.
  intros H. unfold january.
  destruct (Z.lt_trichotomy y y') as [Hlt|[E|Hgt]]; [left|contradiction|right].
  - destruct (Z.eq_dec (y + 1) y') as [<-|Hne]; [lia|].
    pose proof (january_mono (y + 1) y' ltac:(lia)). lia.
  - destruct (Z.eq_dec (y' + 1) y) as [<-|Hne]; [lia|].
    pose proof (january_mono (y' + 1) y ltac:(lia)). lia.
Qed.


End Weeks.

(** ** Weeks, as the exporter and the filter see them *)
Section MoreWeeks.
Import JSDate Parser.
Local Open Scope Z_scope.

Ltac cases :=
  repeat match goal with
         | |- context [?a <=? ?b] => destruct (Z.leb_spec a b)
         | |- context [?a <? ?b] => destruct (Z.ltb_spec a b)
         | |- context [?a =? ?b] => destruct (Z.eqb_spec a b)
         end.
Ltac arith := cases; Z.div_mod_to_equations; lia.


Lemma thursday_from_sunday_last (d : Z) :
  d + 4 - (if (d + 4) mod 7 =? 0 then 7 else (d + 4) mod 7) = 7 * ((d + 3) / 7).
Proof. arith. Qed.

Lemma week_number_ceiling (a j tod : Z) :
  a mod 7 = 0 -> j <= a ->
  - ((- (a * 86400000 - j * 86400000 + 86400000)) / 604800000)
  = 1 + (a - (j + ((4 - (j + 4) mod 7) + 7) mod 7)) / 7.
Proof. intros H1 H2. Z.div_mod_to_equations. lia. Qed.


Lemma setHours_shift (t k : Z) : setHours t (getHours t + k) = t + k * 3600000.
Proof.
  unfold setHours, MakeDate, MakeTime, getHours, getMinutes, getSeconds, getMilliseconds.
  destruct (time_of_day t) as [Ht Hr].
  set (d := Day t) in *. set (r := TimeWithinDay t) in *. clearbody d r. subst t.
  unfold msPerDay in *. Z.div_mod_to_equations. lia.
Qed.

End MoreWeeks.

(** ** The time zone and the clock *)
Section Offsets.
Import JS JSDate Json Parser.
Local Open Scope Z_scope.

Lemma processContent_host (host host' : Host) (content : string) :
  URL_parse host' = URL_parse host ->
  processContent host' content = processContent host content.
Proof. intros H. unfold processContent. now rewrite H. Qed.


End Offsets.

Section ClockShift.
Import JS Processor.
Local Open Scope Z_scope.

Variable c : Z.

Lemma shifted_length (l l' : list message) : shifted c l l' -> List.length l' = List.length l.
Proof. intros H. symmetry. exact (Forall2_length H). Qed.

Lemma shifted_last (l l' : list message) (d d' : message) :
  shifted c l l' -> related c d d' -> related c (last l d) (last l' d').
Proof.
  intros H. revert d d'. induction H as [|m m' l l' Hm H IH]; intros d d' Hd; [exact Hd|].
  destruct H as [|m2 m2' l l' Hm2 H]; [exact Hm|].
  change (related c (last (m2 :: l) d) (last (m2' :: l') d')). now apply IH.
Qed.

Lemma shifted_app (l l' : list message) (m m' : message) :
  shifted c l l' -> related c m m' -> shifted c (l ++ [m]) (l' ++ [m']).
Proof. intros H Hm. apply Forall2_app; [exact H|]. constructor; [exact Hm|constructor]. Qed.

Lemma difference_shift (a b a' b' : message) :
  related c a a' -> related c b b' ->
  Message.timestamp b' - Message.timestamp a' = Message.timestamp b - Message.timestamp a.
Proof. intros [_ Ha] [_ Hb]. lia. Qed.

Lemma getUserIdentity_shift (identity : option string) (l l' : list message) :
  shifted c l l' -> getUserIdentity identity l' = getUserIdentity identity l.
Proof.
  intros H. unfold getUserIdentity. destruct identity as [u|]; [|reflexivity].
  destruct (String.eqb u ""); [reflexivity|].
  assert (He : existsb (fun m => String.eqb (Message.from m) u) l'
               = existsb (fun m => String.eqb (Message.from m) u) l).
  { induction H as [|m m' l l' [Hf _] H IH]; [reflexivity|]. simpl. now rewrite Hf, IH. }
  rewrite He. match goal with |- context [existsb ?f l] => destruct (existsb f l) end; [reflexivity|].
  destruct H as [|m m' l l' [Hf _] H]; [reflexivity|exact Hf].
Qed.

Lemma countStep_shift (who : string) (counts : nat * nat) (m m' : message) :
  related c m m' -> countStep who counts m' = countStep who counts m.
Proof. intros [Hf _]. unfold countStep. now rewrite Hf. Qed.

Lemma responseLoop_shift (who : string) (rest rest' : list message) :
  shifted c rest rest' ->
  forall prev prev' times,
    related c prev prev' ->
    responseLoop who prev' rest' times = responseLoop who prev rest times.
Proof.
  induction 1 as [|m m' rest rest' Hm H IH]; intros prev prev' times Hp; [reflexivity|].
  cbn [responseLoop]. rewrite (difference_shift _ _ _ _ Hp Hm).
  destruct Hp as [Hpf Hpt], Hm as [Hmf Hmt]. rewrite Hpf, Hmf.
  apply IH. now split.
Qed.

Lemma initiatorLoop_shift (who : string) (rest rest' : list message) :
  shifted c rest rest' ->
  forall prev prev' counts,
    related c prev prev' ->
    initiatorLoop who prev' rest' counts = initiatorLoop who prev rest counts.
Proof.
  induction 1 as [|m m' rest rest' Hm H IH]; intros prev prev' counts Hp; [reflexivity|].
  cbn [initiatorLoop]. rewrite (difference_shift _ _ _ _ Hp Hm), (countStep_shift _ _ _ _ Hm).
  now apply IH.
Qed.

Lemma fold_countStep_shift (who : string) (l l' : list message) :
  shifted c l l' ->
  forall counts, fold_left (countStep who) l' counts = fold_left (countStep who) l counts.
Proof.
  induction 1 as [|m m' l l' Hm H IH]; intros counts; [reflexivity|].
  simpl. now rewrite (countStep_shift _ _ _ _ Hm), IH.
Qed.

Lemma pushBurst_shift (bursts bursts' : list Burst.t) (cur cur' : list message) :
  map extent bursts' = map extent bursts -> shifted c cur cur' ->
  map extent (pushBurst bursts' cur') = map extent (pushBurst bursts cur).
Proof.
  intros Hb Hc. unfold pushBurst. rewrite (shifted_length _ _ Hc).
  destruct (MIN_BURST_SIZE <=? List.length cur)%nat; [|exact Hb].
  destruct Hc as [|m m' cur cur' Hm Hc]; [exact Hb|].
  rewrite !map_app, Hb. f_equal. cbn [map]. f_equal.
  unfold burstOf, extent. cbn [Burst.messageCount Burst.duration].
  assert (Hall : shifted c (m :: cur) (m' :: cur')) by now constructor.
  rewrite (shifted_length _ _ Hall).
  now rewrite (difference_shift _ _ _ _ Hm (shifted_last _ _ _ _ Hall Hm)).
Qed.

Lemma burstStep_shift (bursts bursts' : list Burst.t) (cur cur' : list message)
  (m m' : message) :
  map extent bursts' = map extent bursts -> shifted c cur cur' -> related c m m' ->
  map extent (fst (burstStep (bursts', cur') m')) = map extent (fst (burstStep (bursts, cur) m))
  /\ shifted c (snd (burstStep (bursts, cur) m)) (snd (burstStep (bursts', cur') m')).
Proof.
  intros Hb Hc Hm. unfold burstStep.
  destruct Hc as [|a a' cur cur' Ha Hc].
  - cbn [fst snd]. split; [exact Hb|]. constructor; [exact Hm|constructor].
  - assert (Hall : shifted c (a :: cur) (a' :: cur')) by now constructor.
    rewrite (difference_shift _ _ _ _ (shifted_last _ _ _ _ Hall Ha) Hm).
    destruct (Qle_bool _ BURST_THRESHOLD); cbn [fst snd].
    + split; [exact Hb|]. change (shifted c ((a :: cur) ++ [m]) ((a' :: cur') ++ [m'])).
      now apply shifted_app.
    + split; [now apply pushBurst_shift|]. constructor; [exact Hm|constructor].
Qed.

Lemma burstLoop_shift (l l' : list message) :
  shifted c l l' ->
  forall bursts bursts' cur cur',
    map extent bursts' = map extent bursts -> shifted c cur cur' ->
    map extent (fst (fold_left burstStep l' (bursts', cur')))
    = map extent (fst (fold_left burstStep l (bursts, cur)))
    /\ shifted c (snd (fold_left burstStep l (bursts, cur)))
                 (snd (fold_left burstStep l' (bursts', cur'))).
Proof.
  induction 1 as [|m m' l l' Hm H IH]; intros bursts bursts' cur cur' Hb Hc.
  - cbn. auto.
  - cbn [fold_left].
    destruct (burstStep_shift _ _ _ _ _ _ Hb Hc Hm) as [H1 H2].
    destruct (burstStep (bursts, cur) m) as [b1 c1].
    destruct (burstStep (bursts', cur') m') as [b1' c1']. now apply IH.
Qed.

(** X17. Shifting the clock of a conversation (as the choice of another
    time zone does) changes neither the response times, nor the initiator
    score, nor the balance score, nor the sizes and durations of the
    bursts. *)
Theorem analytics_clock_shift (identity : option string) (l l' : list message) :
  shifted c l l' ->
  calculateResponseTimes identity l' = calculateResponseTimes identity l
  /\ calculateInitiatorScore identity l' = calculateInitiatorScore identity l
  /\ calculateBalanceScore identity l' = calculateBalanceScore identity l
  /\ map extent (detectMessageBursts l') = map extent (detectMessageBursts l).
Proof.
  intros H. pose proof (getUserIdentity_shift identity _ _ H) as Hid.
  repeat split.
  - unfold calculateResponseTimes. rewrite Hid.
    destruct H as [|m m' l l' Hm H]; [reflexivity|].
    now rewrite (responseLoop_shift _ _ _ H m m' _ Hm).
  - unfold calculateInitiatorScore. rewrite Hid.
    destruct H as [|m m' l l' Hm H]; [reflexivity|].
    now rewrite (initiatorLoop_shift _ _ _ H m m' _ Hm), (countStep_shift _ _ _ _ Hm).
  - unfold calculateBalanceScore. rewrite Hid, (shifted_length _ _ H).
    now rewrite (fold_countStep_shift _ _ _ H).
  - unfold detectMessageBursts.
    destruct (burstLoop_shift _ _ H [] [] [] [] eq_refl (Forall2_nil _)) as [H1 H2].
    destruct (fold_left burstStep l ([], [])) as [b cur].
    destruct (fold_left burstStep l' ([], [])) as [b' cur']. now apply pushBurst_shift.
Qed.

End ClockShift.

(** ** Sorting, clustering and grouping *)
Section Sorting.
Import JS.
Context {A : Type}.
Variable le : A -> A -> bool.
Hypothesis le_total : forall a b, le a b = true \/ le b a = true.
Hypothesis le_trans : forall a b c, le a b = true -> le b c = true -> le a c = true.

Lemma insert_sorted_sorted (x : A) (l : list A) :
  StronglySorted (fun a b => le a b = true) l ->
  StronglySorted (fun a b => le a b = true) (insert_sorted le x l).
Proof.
  induction 1 as [|y l Hs IH Hy]; simpl; [repeat constructor|].
  destruct (le x y) eqn:E.
  - constructor; [now constructor|]. constructor; [exact E|].
    eapply Forall_impl; [|exact Hy]. intros z Hz. now apply (le_trans x y z).
  - constructor; [exact IH|].
    assert (Hyx : le y x = true) by (destruct (le_total x y); congruence).
    apply (Permutation_Forall (Permutation_sym (insert_sorted_perm le x l))).
    now constructor.
Qed.

Lemma sort_sorted (l : list A) : StronglySorted (fun a b => le a b = true) (sort le l).
Proof.
  induction l as [|x l IH]; simpl; [constructor|]. now apply insert_sorted_sorted.
Qed.

(** Elements that the order does not separate keep their relative order. *)
Lemma insert_sorted_filter (p : A -> bool) (x : A) (l : list A) :
  (forall y, p x = true -> p y = true -> le x y = true) ->
  filter p (insert_sorted le x l) = filter p (x :: l).
Proof.
  intros Hp. induction l as [|y l IH]; [reflexivity|].
  cbn [insert_sorted]. destruct (le x y) eqn:E; [reflexivity|].
  cbn [filter] in *. rewrite IH.
  destruct (p x) eqn:Px; [|reflexivity].
  destruct (p y) eqn:Py; [|reflexivity].
  rewrite (Hp y eq_refl Py) in E. discriminate.
Qed.

Lemma sort_stable (p : A -> bool) (l : list A) :
  (forall x y, p x = true -> p y = true -> le x y = true) ->
  filter p (sort le l) = filter p l.
Proof.
  intros Hp. induction l as [|x l IH]; [reflexivity|].
  cbn [sort]. rewrite insert_sorted_filter by (intros y; apply Hp).
  cbn [filter]. now rewrite IH.
Qed.

End Sorting.

Section Processing.
Import JS Processor.

Lemma byTimestamp_sorted (l : list message) :
  StronglySorted earlier (sort byTimestamp l).
Proof.
  assert (H : StronglySorted (fun a b => byTimestamp a b = true) (sort byTimestamp l)).
  { apply sort_sorted; unfold byTimestamp.
    - intros a b. rewrite !Z.leb_le. lia.
    - intros a b c. rewrite !Z.leb_le. lia. }
  induction H as [|x l' Hs IH Hx]; constructor; [exact IH|].
  eapply Forall_impl; [|exact Hx]. intros y. unfold byTimestamp, earlier. now rewrite Z.leb_le.
Qed.

Lemma sorted_last (l : list message) (first : message) :
  StronglySorted earlier (first :: l) ->
  Forall (fun m => earlier m (last (first :: l) first)) (first :: l).
Proof.
  revert first. induction l as [|m l IH]; intros first H.
  - cbn. constructor; [unfold earlier; lia|constructor].
  - inversion H as [|? ? Hs Hf]; subst. specialize (IH m Hs).
    change (last (first :: m :: l) first) with (last (m :: l) first).
    replace (last (m :: l) first) with (last (m :: l) m)
      by (clear; revert m; induction l; intros; [reflexivity|cbn in *; destruct l; auto]).
    constructor; [|exact IH].
    inversion Hf as [|? ? Hfm _]; subst. inversion IH as [|? ? Hm _]; subst.
    unfold earlier in *. lia.
Qed.

(** X8. The processing of one conversation keeps every message, in the
    order of the timestamps, messages of the same timestamp in the order
    they came in; [totalMessages] is their number, [firstMessage] one of
    the earliest and [lastMessage] one of the latest, and both exist when
    there is a message. *)
Theorem processOne_sorts (messages : list message) :
  let p := processOne messages in
  Permutation (ProcessedData.messages p) messages
  /\ StronglySorted earlier (ProcessedData.messages p)
  /\ (forall t,
        filter (fun m => (Message.timestamp m =? t)%Z) (ProcessedData.messages p)
        = filter (fun m => (Message.timestamp m =? t)%Z) messages)
  /\ ProcessedData.totalMessages p = List.length messages
  /\ (forall first, ProcessedData.firstMessage p = Some first ->
        In first messages /\ Forall (earlier first) messages)
  /\ (forall final, ProcessedData.lastMessage p = Some final ->
        In final messages /\ Forall (fun m => earlier m final) messages)
  /\ (messages <> [] ->
        exists first final,
          ProcessedData.firstMessage p = Some first /\ ProcessedData.lastMessage p = Some final).
Proof.
  cbv zeta. unfold processOne. cbv zeta.
  cbn [ProcessedData.messages ProcessedData.totalMessages ProcessedData.firstMessage
       ProcessedData.lastMessage].
  pose proof (sort_perm byTimestamp messages) as Hp.
  pose proof (byTimestamp_sorted messages) as Hs.
  split; [exact Hp|]. split; [exact Hs|]. split.
  { intros t. apply sort_stable. intros x y Hx Hy. unfold byTimestamp.
    apply Z.eqb_eq in Hx, Hy. apply Z.leb_le. lia. }
  split; [now rewrite (Permutation_length Hp)|].
  set (sorted := sort byTimestamp messages) in *. clearbody sorted.
  split; [|split].
  - intros first Hf. destruct sorted as [|m l]; [discriminate|]. injection Hf as ->.
    split; [apply (Permutation_in _ Hp); now left|].
    apply (Permutation_Forall Hp).
    inversion Hs; subst. constructor; [unfold earlier; lia|assumption].
  - intros final Hf. destruct sorted as [|m l]; [discriminate|].
    assert (Hl : final = last (m :: l) m).
    { rewrite <- (rev_involutive (m :: l)) at 1.
      destruct (rev (m :: l)) as [|x r] eqn:E; [discriminate|]. injection Hf as ->.
      cbn [rev]. now rewrite last_last. }
    subst final. split.
    + apply (Permutation_in _ Hp).
      destruct (@exists_last _ (m :: l) ltac:(discriminate)) as (l0 & x & E).
      rewrite E, last_last. apply in_or_app. right. now left.
    + apply (Permutation_Forall Hp). now apply sorted_last.
  - intros Hne. destruct sorted as [|m l].
    { apply Permutation_nil in Hp. contradiction. }
    destruct (rev (m :: l)) as [|x r] eqn:E.
    { apply (f_equal (@List.length _)) in E. rewrite length_rev in E. discriminate. }
    exists m, x. split; reflexivity.
Qed.

End Processing.

Section ClusterLookup.
Import JS Processor.

Lemma filedUnder_app (k : string) (l l' : list message) :
  filedUnder k (l ++ l') = filedUnder k l ++ filedUnder k l'.
Proof. apply filter_app. Qed.

Lemma addToWeek_lookup (weeks : obj WeekCluster.t) (seen : list message) (msg : message) :
  (forall k, obj_get weeks k = clusterOf false (filedUnder k seen)) ->
  forall k, obj_get (addToWeek weeks msg) k = clusterOf false (filedUnder k (seen ++ [msg])).
Proof.
  intros H k. unfold addToWeek. fold (keyOf msg). rewrite filedUnder_app.
  unfold filedUnder at 2. cbn [filter].
  destruct (String.eqb_spec (keyOf msg) k) as [<-|Hne].
  - rewrite obj_get_set_same, H.
    destruct (filedUnder (keyOf msg) seen) as [|first rest]; cbn.
    + reflexivity.
    + rewrite length_app. cbn. do 2 f_equal. lia.
  - rewrite obj_get_set_other by exact Hne. now rewrite app_nil_r.
Qed.

Lemma weeks_fold_lookup (messages : list message) :
  forall weeks seen,
    (forall k, obj_get weeks k = clusterOf false (filedUnder k seen)) ->
    NoDup (map fst weeks) ->
    (forall k, obj_get (fold_left addToWeek messages weeks) k
               = clusterOf false (filedUnder k (seen ++ messages)))
    /\ NoDup (map fst (fold_left addToWeek messages weeks)).
Proof.
  induction messages as [|msg messages IH]; intros weeks seen H Hn; cbn [fold_left].
  - rewrite app_nil_r. auto.
  - replace (seen ++ msg :: messages) with ((seen ++ [msg]) ++ messages)
      by now rewrite <- app_assoc.
    apply IH; [now apply addToWeek_lookup|]. unfold addToWeek. now apply obj_set_NoDup.
Qed.

(** X9. The cluster [clusterByWeeks] stores under a key holds exactly the
    messages of that calendar year and week number, in their order, with
    their number, the year and week of the first of them and the range of
    that week; a key without a message is absent, and no key occurs twice. *)
Theorem clusterByWeeks_lookup (messages : list message) (k : string) :
  obj_get (clusterByWeeks messages) k = clusterOf true (filedUnder k messages)
  /\ NoDup (map fst (clusterByWeeks messages)).
Proof.
  destruct (weeks_fold_lookup messages [] [] (fun _ => eq_refl) (NoDup_nil _)) as [H Hn].
  unfold clusterByWeeks. split.
  - rewrite obj_get_map, H. cbn [app].
    destruct (filedUnder k messages); reflexivity.
  - now rewrite map_map.
Qed.

End ClusterLookup.

Section MonthFacts.
Import JS Processor.

Lemma weekOrder_total (a b : MonthWeek.t) : weekOrder a b = true \/ weekOrder b a = true.
Proof.
  unfold weekOrder.
  destruct (Z.eqb_spec (MonthWeek.year a) (MonthWeek.year b)) as [E|E];
    destruct (Z.eqb_spec (MonthWeek.year b) (MonthWeek.year a)) as [E'|E'];
    rewrite ?Z.leb_le; lia.
Qed.

Lemma weekOrder_trans (a b c : MonthWeek.t) :
  weekOrder a b = true -> weekOrder b c = true -> weekOrder a c = true.
Proof.
  unfold weekOrder.
  destruct (Z.eqb_spec (MonthWeek.year a) (MonthWeek.year b));
    destruct (Z.eqb_spec (MonthWeek.year b) (MonthWeek.year c));
    destruct (Z.eqb_spec (MonthWeek.year a) (MonthWeek.year c));
    rewrite ?Z.leb_le; lia.
Qed.

Lemma list_sum_perm (l l' : list nat) : Permutation l l' -> list_sum l = list_sum l'.
Proof. induction 1; simpl; lia. Qed.

Lemma weekOfMonth_more (weeks weeks' : obj WeekCluster.t) (k : string) (w : MonthWeek.t) :
  (forall kv, In kv weeks -> In kv weeks') -> weekOfMonth weeks k w -> weekOfMonth weeks' k w.
Proof. intros H (c & first & rest & Hin & Hrest). exists c, first, rest. auto. Qed.

Lemma addToMonth_months (done : obj WeekCluster.t) (months : obj MonthGroup.t)
  (kv : string * WeekCluster.t) :
  (forall k m, In (k, m) months -> monthOf done k m) ->
  forall k m, In (k, m) (addToMonth months kv) -> monthOf (done ++ [kv]) k m.
Proof.
  intros H k m Hin.
  assert (Hold : forall k m, In (k, m) months -> monthOf (done ++ [kv]) k m).
  { intros k' m' Hin'. destruct (H _ _ Hin') as (Ht & Hne & Hw). repeat split; auto.
    eapply Forall_impl; [|exact Hw]. intros w. apply weekOfMonth_more.
    intros x Hx. apply in_or_app. now left. }
  unfold addToMonth in Hin. destruct kv as [weekKey week]. cbn [fst snd] in Hin.
  destruct (WeekCluster.messages week) as [|firstMsg rest] eqn:Em; [now apply Hold|].
  apply obj_set_In_key in Hin. destruct Hin as [Hin|Heq]; [now apply Hold|].
  injection Heq as Hk Hm. subst k m.
  assert (Hnew : weekOfMonth (done ++ [(weekKey, week)])
                   (monthKey (Message.year firstMsg) (Message.month firstMsg))
                   (monthWeekOf weekKey week)).
  { exists week, firstMsg, rest. cbn. repeat split; auto. apply in_or_app. right. now left. }
  unfold monthWeekOf in Hnew. rewrite Em in Hnew.
  destruct (obj_get months _) as [m0|] eqn:Eg.
  - apply obj_get_In in Eg. destruct (Hold _ _ Eg) as (Ht & Hne & Hw).
    unfold monthOf. cbn. repeat split.
    + rewrite map_app, list_sum_app, Ht. cbn. lia.
    + intros E. apply app_eq_nil in E. destruct E; discriminate.
    + apply Forall_app. split; [exact Hw|]. constructor; [exact Hnew|constructor].
  - unfold monthOf. cbn. repeat split; [lia|discriminate|].
    constructor; [exact Hnew|constructor].
Qed.

Lemma months_fold_months (weeks : obj WeekCluster.t) :
  forall done months,
    (forall k m, In (k, m) months -> monthOf done k m) ->
    forall k m, In (k, m) (fold_left addToMonth weeks months) -> monthOf (done ++ weeks) k m.
Proof.
  induction weeks as [|kv weeks IH]; intros done months H k m; cbn [fold_left].
  - rewrite app_nil_r. apply H.
  - replace (done ++ kv :: weeks) with ((done ++ [kv]) ++ weeks) by now rewrite <- app_assoc.
    apply IH. now apply addToMonth_months.
Qed.

(** X10. Every month group of [groupIntoMonths] has at least one week; each
    of its weeks is a week cluster whose first message is of that month;
    [totalMessages] is the sum of the counts of its weeks; and its weeks
    are sorted by year, then by week number. *)
Theorem groupIntoMonths_months (weekClusters : obj WeekCluster.t) (k : string)
  (m : MonthGroup.t) :
  In (k, m) (groupIntoMonths weekClusters) ->
  monthOf weekClusters k m
  /\ StronglySorted (fun a b => weekOrder a b = true) (MonthGroup.weeks m).
Proof.
  unfold groupIntoMonths. intros Hin. apply in_map_iff in Hin as ([k0 m0] & [= <- <-] & Hin).
  destruct (months_fold_months weekClusters [] [] (fun _ _ H => match H with end) _ _ Hin)
    as (Ht & Hne & Hw).
  cbn [app fst snd] in *. unfold sortWeeks. cbn [MonthGroup.weeks MonthGroup.totalMessages].
  pose proof (sort_perm weekOrder (MonthGroup.weeks m0)) as Hp.
  split; [|exact (sort_sorted weekOrder weekOrder_total weekOrder_trans _)].
  unfold monthOf. cbn [MonthGroup.weeks MonthGroup.totalMessages]. repeat split.
  - rewrite Ht. apply list_sum_perm. apply Permutation_map. now symmetry.
  - intros E. rewrite E in Hp. apply Permutation_nil in Hp. contradiction.
  - exact (Permutation_Forall (Permutation_sym Hp) Hw).
Qed.

End MonthFacts.

Section ConversationsLoop.
Import JS Processor.
Context {M P : Type}.
Variable body : list M -> list M * P.

Lemma obj_get_In_iff {V : Type} (o : obj V) (k : string) (v : V) :
  NoDup (map fst o) -> (obj_get o k = Some v <-> In (k, v) o).
Proof.
  intros Hn. split; [apply obj_get_In|].
  induction o as [|[k' v'] o IH]; [intros []|]. inversion Hn as [|? ? Hk Hn']; subst.
  cbn [obj_get]. intros [[= -> ->]|Hin].
  - now rewrite String.eqb_refl.
  - destruct (String.eqb_spec k' k) as [->|_]; [|now apply IH].
    exfalso. apply Hk. change k with (fst (k, v)). now apply in_map.
Qed.

Lemma obj_get_perm {V : Type} (o o' : obj V) (k : string) :
  Permutation o o' -> NoDup (map fst o') -> obj_get o k = obj_get o' k.
Proof.
  intros Hp Hn.
  assert (Hn0 : NoDup (map fst o)).
  { apply (Permutation_NoDup (l := map fst o')); [|exact Hn]. apply Permutation_map. now symmetry. }
  destruct (obj_get o k) as [v|] eqn:E.
  - symmetry. apply obj_get_In_iff; [exact Hn|]. apply (Permutation_in _ Hp).
    now apply obj_get_In_iff.
  - destruct (obj_get o' k) as [v|] eqn:E'; [|reflexivity].
    apply obj_get_In_iff in E'; [|exact Hn].
    apply (Permutation_in _ (Permutation_sym Hp)) in E'.
    apply obj_get_In_iff in E'; [congruence|exact Hn0].
Qed.

Lemma filter_partition_perm {V : Type} (p : V -> bool) (l : list V) :
  Permutation (filter p l ++ filter (fun x => negb (p x)) l) l.
Proof.
  induction l as [|x l IH]; [reflexivity|]. cbn [filter].
  destruct (p x); cbn [negb app].
  - now constructor.
  - rewrite <- Permutation_middle. now constructor.
Qed.

Lemma enumerate_perm {V : Type} (o : obj V) : Permutation (enumerate o) o.
Proof.
  unfold enumerate. rewrite sort_perm. apply filter_partition_perm.
Qed.

Lemma own_without_proto {V : Type} (o : obj V) :
  obj_get o "__proto__" = None -> own o = o.
Proof.
  unfold own. induction o as [|[k v] o IH]; [reflexivity|]. cbn [obj_get filter fst].
  destruct (String.eqb k "__proto__"); [discriminate|]. intros H. cbn [negb]. now rewrite IH.
Qed.

Lemma processLoop_own (es : list (string * list M)) :
  NoDup (map fst es) ->
  forall conversations processed,
    (forall k l, In (k, l) es -> obj_get conversations k <> None) ->
    exists conversations' processed',
      processLoop body (map ownEntry es) conversations processed
      = (conversations', Ok processed')
      /\ (forall name,
            obj_get processed' name
            = match obj_get es name with
              | Some l => Some (snd (body l))
              | None => obj_get processed name
              end)
      /\ (forall name,
            obj_get conversations' name
            = match obj_get es name with
              | Some l => Some (fst (body l))
              | None => obj_get conversations name
              end)
      /\ map fst conversations' = map fst conversations.
Proof.
  induction es as [|[k l] es IH]; intros Hn conversations processed Hin.
  - exists conversations, processed. cbn. auto.
  - inversion Hn as [|? ? Hk Hn']; subst. cbn [map ownEntry fst snd processLoop].
    destruct (body l) as [sorted entry] eqn:Eb.
    destruct (IH Hn' (obj_set conversations k sorted) (obj_set processed k entry))
      as (c' & p' & Hloop & Hp & Hc & Hkeys).
    { intros k' l' Hin'. destruct (String.eqb_spec k k') as [<-|Hne].
      - rewrite obj_get_set_same. discriminate.
      - rewrite obj_get_set_other by exact Hne. apply (Hin k' l'). now right. }
    exists c', p'. split; [exact Hloop|].
    assert (Hnone : obj_get es k = None).
    { destruct (obj_get es k) as [l'|] eqn:E; [|reflexivity].
      apply obj_get_In in E. exfalso. apply Hk. change k with (fst (k, l')). now apply in_map. }
    repeat split.
    + intros name. rewrite Hp. cbn [obj_get].
      destruct (String.eqb_spec k name) as [<-|Hne].
      * now rewrite Hnone, obj_get_set_same, Eb.
      * now rewrite obj_get_set_other by exact Hne.
    + intros name. rewrite Hc. cbn [obj_get].
      destruct (String.eqb_spec k name) as [<-|Hne].
      * now rewrite Hnone, obj_get_set_same, Eb.
      * now rewrite obj_get_set_other by exact Hne.
    + rewrite Hkeys, obj_set_keys.
      destruct (obj_get conversations k) eqn:E; [reflexivity|].
      exfalso. apply (Hin k l); [now left|exact E].
Qed.

(** X6. When no conversation is named [__proto__] (and each name is a key
    once, as in an object), [processConversations] returns; its result
    holds, under each name, what the processing makes of the messages of
    that conversation and nothing else, and the conversations object holds
    the sorted messages under the same names in the same order. *)
Theorem processConversations_own (conversations : obj (list M)) :
  obj_get conversations "__proto__" = None ->
  NoDup (map fst conversations) ->
  exists sorted processed,
    processConversations body conversations = (sorted, Ok processed)
    /\ (forall name,
          obj_get processed name
          = option_map (fun l => snd (body l)) (obj_get conversations name))
    /\ (forall name,
          obj_get sorted name
          = option_map (fun l => fst (body l)) (obj_get conversations name))
    /\ map fst sorted = map fst conversations.
Proof.
  intros Hproto Hn. unfold processConversations, forIn.
  rewrite Hproto, app_nil_r, (own_without_proto _ Hproto).
  pose proof (enumerate_perm conversations) as Hperm.
  assert (Hn' : NoDup (map fst (enumerate conversations))).
  { apply (Permutation_NoDup (l := map fst conversations)); [|exact Hn].
    apply Permutation_map. now symmetry. }
  destruct (processLoop_own (enumerate conversations) Hn' conversations [])
    as (c' & p' & Hloop & Hp & Hc & Hkeys).
  { intros k l Hin. apply (Permutation_in _ Hperm) in Hin.
    apply obj_get_In_iff in Hin; [congruence|exact Hn]. }
  exists c', p'. split; [exact Hloop|]. repeat split.
  - intros name. rewrite Hp, (obj_get_perm _ _ name Hperm Hn).
    now destruct (obj_get conversations name).
  - intros name. rewrite Hc, (obj_get_perm _ _ name Hperm Hn).
    now destruct (obj_get conversations name).
  - exact Hkeys.
Qed.

Lemma processLoop_inherited (es : list (string * list M)) (k : string) (x : M)
  (rest : list (string * property M)) :
  forall conversations processed,
    snd (processLoop body (map ownEntry es ++ (k, Inherited x) :: rest) conversations processed)
    = Throw TypeError.
Proof.
  induction es as [|[k' l] es IH]; intros conversations processed; [reflexivity|].
  cbn [map ownEntry fst snd app processLoop]. destruct (body l). apply IH.
Qed.

Lemma indices_head (n : nat) : exists tl, Json.indices (S n) = "0"%string :: tl.
Proof.
  induction n as [|n [tl IH]].
  - exists []. reflexivity.
  - exists (tl ++ [String_of_nat (S n)]). change (Json.indices (S (S n)))
      with (Json.indices (S n) ++ [String_of_nat (S n)]). now rewrite IH.
Qed.

(** X7. When the conversation named [__proto__] has a message (and the
    conversations object no own key [0]), [processConversations] throws a
    [TypeError]: the loop meets the index [0] of the prototype, whose value
    is not an array. *)
Theorem processConversations_inherited (conversations : obj (list M)) (element : M)
  (rest : list M) :
  obj_get conversations "__proto__" = Some (element :: rest) ->
  isOwn conversations "0" = false ->
  snd (processConversations body conversations) = Throw TypeError.
Proof.
  intros Hproto Hown. unfold processConversations, forIn. rewrite Hproto.
  destruct (indices_head (List.length rest)) as [tl Hi].
  change (List.length (element :: rest)) with (S (List.length rest)). rewrite Hi.
  cbn [combine filter fst]. rewrite Hown. cbn [negb map fst snd].
  apply (processLoop_inherited (enumerate (own conversations))).
Qed.

End ConversationsLoop.

(** ** Counting *)
Section Counting.
Import JS Processor.

Lemma countType_fold (messages : list message) :
  forall t l m s e,
    fold_left Stats.countType messages (TypeCounts.mk t l m s e)
    = TypeCounts.mk (t + typed Message.text messages) (l + typed Message.link messages)
        (m + typed Message.media messages) (s + typed Message.sticker messages)
        (e + typed Message.empty messages).
Proof.
  unfold typed. induction messages as [|msg messages IH]; intros t l m s e.
  - cbn. f_equal; lia.
  - cbn [fold_left]. unfold Stats.countType at 2.
    destruct (Message.type msg) eqn:E; rewrite IH; cbn [filter]; rewrite E; cbn;
      f_equal; lia.
Qed.

Lemma typed_total (messages : list message) :
  typed Message.text messages + typed Message.link messages + typed Message.media messages
  + typed Message.sticker messages + typed Message.empty messages = List.length messages.
Proof.
  unfold typed. induction messages as [|msg messages IH]; [reflexivity|].
  cbn [filter List.length]. destruct (Message.type msg); cbn; lia.
Qed.

(** X20. The five counters of [countMessageTypes] count every message
    once; its link and media counters are what [countLinks] and
    [countMedia] answer. *)
Theorem countMessageTypes_total (messages : list message) :
  let types := Stats.countMessageTypes messages in
  TypeCounts.text types + TypeCounts.link types + TypeCounts.media types
  + TypeCounts.sticker types + TypeCounts.empty types = List.length messages
  /\ TypeCounts.link types = Stats.countLinks messages
  /\ TypeCounts.media types = Stats.countMedia messages.
Proof.
  cbv zeta. unfold Stats.countMessageTypes. rewrite countType_fold.
  cbn [TypeCounts.text TypeCounts.link TypeCounts.media TypeCounts.sticker TypeCounts.empty].
  repeat split; try reflexivity. apply typed_total.
Qed.

Lemma timeOfDay_fold (messages : list message) :
  forall m a e n,
    fold_left timeOfDayStep messages (mkTimeOfDay m a e n)
    = mkTimeOfDay (m + in_hours 5 11 messages) (a + in_hours 12 17 messages)
        (e + in_hours 18 22 messages)
        (n + (List.length messages
              - (in_hours 5 11 messages + in_hours 12 17 messages + in_hours 18 22 messages))).
Proof.
  unfold in_hours. induction messages as [|msg messages IH]; intros m a e n.
  - cbn. f_equal; lia.
  - cbn [fold_left]. unfold timeOfDayStep at 2. cbn [filter List.length].
    pose proof (filter_length_le (fun m => (5 <=? Message.hour m)%Z && (Message.hour m <=? 11)%Z) messages).
    pose proof (filter_length_le (fun m => (12 <=? Message.hour m)%Z && (Message.hour m <=? 17)%Z) messages).
    pose proof (filter_length_le (fun m => (18 <=? Message.hour m)%Z && (Message.hour m <=? 22)%Z) messages).
    assert (Hsum : List.length (filter (fun m => (5 <=? Message.hour m)%Z && (Message.hour m <=? 11)%Z) messages)
                   + List.length (filter (fun m => (12 <=? Message.hour m)%Z && (Message.hour m <=? 17)%Z) messages)
                   + List.length (filter (fun m => (18 <=? Message.hour m)%Z && (Message.hour m <=? 22)%Z) messages)
                   <= List.length messages).
    { clear. induction messages as [|x l IHl]; [cbn; lia|]. cbn [filter List.length].
      destruct (Z.leb_spec 5 (Message.hour x)), (Z.leb_spec (Message.hour x) 11),
        (Z.leb_spec 12 (Message.hour x)), (Z.leb_spec (Message.hour x) 17),
        (Z.leb_spec 18 (Message.hour x)), (Z.leb_spec (Message.hour x) 22);
        cbn [andb List.length]; lia. }
    destruct (Z.leb_spec 5 (Message.hour msg)), (Z.leb_spec (Message.hour msg) 11),
      (Z.leb_spec 12 (Message.hour msg)), (Z.leb_spec (Message.hour msg) 17),
      (Z.leb_spec 18 (Message.hour msg)), (Z.leb_spec (Message.hour msg) 22);
      cbn [andb]; rewrite IH; cbn [List.length]; f_equal; lia.
Qed.

(** X16. The four counters of [getTimeOfDayDistribution] count every
    message once: the morning holds the hours 5 to 11, the afternoon 12 to
    17, the evening 18 to 22, and the night the rest. *)
Theorem getTimeOfDayDistribution_partition (messages : list message) :
  let d := getTimeOfDayDistribution messages in
  morning d + afternoon d + evening d + night d = List.length messages
  /\ morning d = in_hours 5 11 messages
  /\ afternoon d = in_hours 12 17 messages
  /\ evening d = in_hours 18 22 messages.
Proof.
  cbv zeta. unfold getTimeOfDayDistribution. rewrite timeOfDay_fold.
  cbn [morning afternoon evening night]. repeat split; try reflexivity.
  assert (Hsum : in_hours 5 11 messages + in_hours 12 17 messages + in_hours 18 22 messages
                 <= List.length messages).
  { unfold in_hours. induction messages as [|x l IHl]; [cbn; lia|]. cbn [filter List.length].
    destruct (Z.leb_spec 5 (Message.hour x)), (Z.leb_spec (Message.hour x) 11),
      (Z.leb_spec 12 (Message.hour x)), (Z.leb_spec (Message.hour x) 17),
      (Z.leb_spec 18 (Message.hour x)), (Z.leb_spec (Message.hour x) 22);
      cbn [andb List.length]; lia. }
  lia.
Qed.

Lemma increment_length (counts : list nat) (i : nat) :
  List.length (increment counts i) = List.length counts.
Proof. revert i. induction counts as [|c l IH]; intros [|i]; cbn; auto. Qed.

Lemma increment_nth (counts : list nat) (i j : nat) :
  i < List.length counts ->
  nth j (increment counts i) 0 = nth j counts 0 + (if Nat.eqb i j then 1 else 0).
Proof.
  revert i j. induction counts as [|c l IH]; intros [|i] [|j] H; cbn in *; try lia.
  apply IH. lia.
Qed.

Lemma increment_sum (counts : list nat) (i : nat) :
  i < List.length counts -> list_sum (increment counts i) = S (list_sum counts).
Proof.
  revert i. induction counts as [|c l IH]; intros [|i] H; cbn [increment List.length] in *;
    try lia.
  - reflexivity.
  - change (c + list_sum (increment l i) = S (c + list_sum l)). rewrite IH; lia.
Qed.

Lemma getDay_index (t : Z) : Z.to_nat (JSDate.getDay t) < 7.
Proof.
  unfold JSDate.getDay.
  pose proof (Z.mod_pos_bound (JSDate.Day t + 4) 7 ltac:(lia)). lia.
Qed.

Lemma byDay_fold (messages : list message) :
  forall byDay,
    List.length byDay = 7 ->
    let byDay' :=
      fold_left
        (fun byDay msg => increment byDay (Z.to_nat (JSDate.getDay (Message.timestamp msg))))
        messages byDay in
    List.length byDay' = 7
    /\ list_sum byDay' = list_sum byDay + List.length messages
    /\ forall d, nth d byDay' 0 = nth d byDay 0 + on_day d messages.
Proof.
  unfold on_day. induction messages as [|msg messages IH]; intros byDay Hlen; cbn zeta.
  - cbn. repeat split; auto.
  - cbn [fold_left].
    pose proof (getDay_index (Message.timestamp msg)) as Hi.
    destruct (IH (increment byDay (Z.to_nat (JSDate.getDay (Message.timestamp msg)))))
      as (H1 & H2 & H3); [now rewrite increment_length|].
    cbv zeta in *. split; [exact H1|]. split.
    + rewrite H2, increment_sum by lia. cbn [List.length]. lia.
    + intros d. rewrite H3, increment_nth by lia. cbn [filter].
      destruct (Nat.eqb _ d); cbn [List.length]; lia.
Qed.

(** X15. [getMessagesByDayOfWeek] answers seven counters, one per day of
    the week from Sunday; each is the number of messages sent on that day,
    and together they count every message once. *)
Theorem getMessagesByDayOfWeek_counts (messages : list message) :
  let byDay := getMessagesByDayOfWeek messages in
  List.length byDay = 7
  /\ list_sum byDay = List.length messages
  /\ forall d, nth d byDay 0 = on_day d messages.
Proof.
  cbv zeta. unfold getMessagesByDayOfWeek.
  destruct (byDay_fold messages (repeat 0 7) eq_refl) as (H1 & H2 & H3). cbv zeta in *.
  split; [exact H1|]. split; [exact H2|].
  intros d. rewrite H3. do 8 (destruct d as [|d]; [reflexivity|]). reflexivity.
Qed.

End Counting.

Section BalanceMore.
Import JS Processor.

Lemma sender_exists (who : string) (messages : list message) :
  0 < sent_by who messages ->
  existsb (fun m => String.eqb (Message.from m) who) messages = true.
Proof.
  unfold sent_by. induction messages as [|m messages IH]; cbn [filter existsb List.length].
  - lia.
  - destruct (String.eqb (Message.from m) who); [reflexivity|exact IH].
Qed.

Lemma getUserIdentity_present (who : string) (messages : list message) :
  who <> EmptyString -> 0 < sent_by who messages ->
  getUserIdentity (Some who) messages = who.
Proof.
  intros Hne Hs. unfold getUserIdentity.
  destruct (String.eqb_spec who ""); [contradiction|]. now rewrite sender_exists.
Qed.

Lemma percentage_complement (n total : nat) :
  n <= total -> 0 < total -> (percentageOf (total - n) total == 100 - percentageOf n total)%Q.
Proof.
  intros Hle Hpos. unfold percentageOf.
  rewrite Nat2Z.inj_sub by exact Hle. unfold Z.sub. rewrite inject_Z_plus, inject_Z_opp.
  field. now apply inject_nat_nonzero.
Qed.

Lemma balanceOf_complement (p : Q) : (balanceOf (100 - p) == balanceOf p)%Q.
Proof.
  unfold balanceOf.
  setoid_replace (50 - (100 - p))%Q with (- (50 - p))%Q by ring.
  now rewrite Qabs_opp.
Qed.


End BalanceMore.

Section BurstsMore.
Import JS Processor.

Lemma detectMessageBursts_runs (messages : list message) (runs : list (list message)) :
  maximal_runs messages runs -> detectMessageBursts messages = bursts_of runs.
Proof.
  intros Hruns. unfold detectMessageBursts.
  destruct messages as [|first rest].
  - inversion Hruns; subst; [reflexivity|now apply run_nonempty in H|now destruct l].
  - cbn [fold_left burstStep]. exact (loop_runs _ _ Hruns first rest [] eq_refl).
Qed.

Lemma bursts_of_counts (runs : list (list message)) :
  Forall (fun b => 5 <= Burst.messageCount b) (bursts_of runs)
  /\ list_sum (map Burst.messageCount (bursts_of runs)) <= List.length (List.concat runs).
Proof.
  unfold bursts_of. induction runs as [|r runs [IH1 IH2]]; [cbn; split; [constructor|lia]|].
  cbn [flat_map List.concat]. rewrite length_app, map_app, list_sum_app.
  destruct (5 <=? List.length r) eqn:E.
  - apply Nat.leb_le in E. destruct r as [|first r]; [cbn in E; lia|].
    cbn [burst_of_run map list_sum Burst.messageCount app]. split.
    + constructor; [exact E|exact IH1].
    + change (list_sum [List.length (first :: r)]) with (List.length (first :: r) + 0).
      unfold message in *. lia.
  - change (list_sum (map Burst.messageCount [])) with 0. cbn [app].
    split; [exact IH1|unfold message in *; lia].
Qed.

(** X19. Every burst of [detectMessageBursts] has at least five messages,
    and the bursts do not overlap: their sizes add up to no more than the
    number of messages, so there are at most a fifth as many bursts as
    messages. *)
Theorem detectMessageBursts_separate (messages : list message) :
  Forall (fun b => 5 <= Burst.messageCount b) (detectMessageBursts messages)
  /\ list_sum (map Burst.messageCount (detectMessageBursts messages)) <= List.length messages
  /\ 5 * List.length (detectMessageBursts messages) <= List.length messages.
Proof.
  destruct (maximal_runs_exist messages) as [runs Hruns].
  rewrite (detectMessageBursts_runs _ _ Hruns).
  destruct (bursts_of_counts runs) as [H1 H2].
  rewrite <- (maximal_runs_concat _ _ Hruns) in H2.
  split; [exact H1|]. split; [exact H2|].
  assert (H : 5 * List.length (bursts_of runs) <= list_sum (map Burst.messageCount (bursts_of runs))).
  { clear H2. induction H1 as [|b l Hb _ IH]; [cbn; lia|].
    change (list_sum (map Burst.messageCount (b :: l)))
      with (Burst.messageCount b + list_sum (map Burst.messageCount l)).
    cbn [List.length]. lia. }
  unfold message in *. lia.
Qed.

End BurstsMore.

Section QuestionsMore.
Import JS.

Lemma questionStep_fold (messages : list message) :
  forall q t,
    q <= t ->
    let counts := fold_left StatsIndividual.questionStep messages (q, t) in
    fst counts <= snd counts /\ snd counts <= t + typed Message.text messages.
Proof.
  unfold typed.
  induction messages as [|m messages IH]; intros q t Hqt; cbv zeta.
  - cbn. lia.
  - cbn [fold_left filter].
    assert (Hstep : fst (StatsIndividual.questionStep (q, t) m)
                    <= snd (StatsIndividual.questionStep (q, t) m)
                    /\ snd (StatsIndividual.questionStep (q, t) m)
                       <= t + (if Message.type_eqb (Message.type m) Message.text then 1 else 0)).
    { unfold StatsIndividual.questionStep.
      destruct (Message.type_eqb (Message.type m) Message.text); cbn [andb].
      - destruct (negb _); cbn [fst snd]; [destruct (occurs _ _)|]; lia.
      - cbn [fst snd]. lia. }
    destruct (StatsIndividual.questionStep (q, t) m) as [q' t']. cbn [fst snd] in Hstep.
    destruct (IH q' t' (proj1 Hstep)) as [H1 H2]. cbv zeta in *.
    split; [exact H1|].
    destruct (Message.type_eqb (Message.type m) Message.text); cbn [List.length];
      unfold message in *; lia.
Qed.

(** X21. [calculateQuestionRatio] counts no more questions than text
    messages with a content, and no more of these than text messages; the
    percentage is the number 0, not a text, exactly when there is no such
    message. *)
Theorem calculateQuestionRatio_bounds (messages : list message) :
  let r := StatsIndividual.calculateQuestionRatio messages in
  StatsIndividual.questionCount r <= StatsIndividual.textMessageCount r
  /\ StatsIndividual.textMessageCount r <= typed Message.text messages
  /\ (StatsIndividual.textMessageCount r = 0 <->
        StatsIndividual.percentage r = NumV (Num 0)).
Proof.
  cbv zeta. unfold StatsIndividual.calculateQuestionRatio.
  cbn [StatsIndividual.questionCount StatsIndividual.textMessageCount StatsIndividual.percentage].
  destruct (questionStep_fold messages 0 0 (le_n 0)) as [H1 H2]. cbv zeta in *.
  split; [exact H1|]. split; [exact H2|].
  destruct (Nat.ltb_spec 0 (snd (fold_left StatsIndividual.questionStep messages (0, 0)))).
  - split; [lia|discriminate].
  - split; [reflexivity|lia].
Qed.

End QuestionsMore.

(** ** The overview *)
Section Overview.
Import JS Processor.

Lemma StronglySorted_weaken {A : Type} (R R' : A -> A -> Prop) (l : list A) :
  (forall a b, R a b -> R' a b) -> StronglySorted R l -> StronglySorted R' l.
Proof.
  intros HR. induction 1 as [|x l Hs IH Hx]; constructor; [exact IH|].
  eapply Forall_impl; [|exact Hx]. intros y. apply HR.
Qed.

Lemma total_fold (entries : list (string * ProcessedData.t)) (n : nat) :
  fold_left (fun total kv => total + ProcessedData.totalMessages (snd kv)) entries n
  = n + list_sum (map (fun kv => ProcessedData.totalMessages (snd kv)) entries).
Proof.
  revert n. induction entries as [|kv entries IH]; intros n; cbn [fold_left map].
  - cbn. lia.
  - rewrite IH. change (list_sum (?x :: ?l)) with (x + list_sum l). lia.
Qed.

(** X11. [sortParticipantsByCount] lists every conversation once, with its
    number of messages, by decreasing number; the counts add up to
    [getTotalMessageCount]. *)
Theorem sortParticipantsByCount_descending (processed : obj ProcessedData.t) :
  let participants := sortParticipantsByCount processed in
  StronglySorted (fun a b => snd b <= snd a) participants
  /\ Permutation participants
       (map (fun kv => (fst kv, ProcessedData.totalMessages (snd kv))) processed)
  /\ list_sum (map snd participants) = getTotalMessageCount processed.
Proof.
  cbv zeta. unfold sortParticipantsByCount.
  set (l := map _ (enumerate processed)).
  assert (Hperm : Permutation (sort byCount l) l) by apply sort_perm.
  split; [|split].
  - assert (H : StronglySorted (fun a b => byCount a b = true) (sort byCount l)).
    { apply sort_sorted; unfold byCount.
      - intros a b. rewrite !Nat.leb_le. lia.
      - intros a b c. rewrite !Nat.leb_le. lia. }
    revert H. apply StronglySorted_weaken. intros a b. unfold byCount. now rewrite Nat.leb_le.
  - etransitivity; [exact Hperm|]. subst l. apply Permutation_map, enumerate_perm.
  - rewrite (list_sum_perm _ _ (Permutation_map snd Hperm)).
    unfold getTotalMessageCount. rewrite total_fold. subst l. now rewrite map_map.
Qed.

Lemma activeStep_fold (entries : list (string * MonthGroup.t)) :
  forall (best : option MonthGroup.t) (n : nat),
    match best with
    | Some m => MonthGroup.totalMessages m = n /\ 0 < n
    | None => n = 0
    end ->
    let state := fold_left activeStep entries (best, n) in
    match fst state with
    | Some m =>
        (best = Some m \/ exists k, In (k, m) entries)
        /\ MonthGroup.totalMessages m = snd state /\ 0 < snd state
    | None => best = None /\ snd state = 0
    end
    /\ n <= snd state
    /\ Forall (fun kv => MonthGroup.totalMessages (snd kv) <= snd state) entries.
Proof.
  induction entries as [|[k month] entries IH]; intros best n Hbest; cbv zeta.
  - cbn [fold_left fst snd]. split; [|split; [lia|constructor]].
    destruct best as [m|]; [|auto]. split; [now left|exact Hbest].
  - cbn [fold_left].
    change (activeStep (best, n) (k, month))
      with (if n <? MonthGroup.totalMessages month
            then (Some month, MonthGroup.totalMessages month) else (best, n)).
    destruct (Nat.ltb_spec n (MonthGroup.totalMessages month)) as [Hlt|Hge].
    + destruct (IH (Some month) (MonthGroup.totalMessages month) ltac:(split; [reflexivity|lia]))
        as (H1 & H2 & H3). cbv zeta in *.
      split; [|split; [lia|constructor; [exact H2|exact H3]]].
      destruct (fst (fold_left activeStep entries _)) as [m|].
      * destruct H1 as ([Hm|[k' Hin]] & Ht).
        -- injection Hm as <-. split; [right; exists k; now left|exact Ht].
        -- split; [right; exists k'; now right|exact Ht].
      * destruct H1 as [H1 _]. discriminate.
    + destruct (IH best n Hbest) as (H1 & H2 & H3). cbv zeta in *.
      split; [|split; [exact H2|constructor; [cbn [snd]; lia|exact H3]]].
      destruct (fst (fold_left activeStep entries _)) as [m|]; [|exact H1].
      destruct H1 as ([Hm|[k' Hin]] & Ht); (split; [|exact Ht]);
        [now left|right; exists k'; now right].
Qed.

(** X14. [findMostActiveMonth] answers a month group with at least one
    message and no fewer messages than any other; it answers [null]
    exactly when no month group has a message. *)
Theorem findMostActiveMonth_maximal (monthGroups : obj MonthGroup.t) :
  match findMostActiveMonth monthGroups with
  | Some m =>
      (exists k, In (k, m) monthGroups)
      /\ 0 < MonthGroup.totalMessages m
      /\ Forall (fun kv => MonthGroup.totalMessages (snd kv) <= MonthGroup.totalMessages m)
           monthGroups
  | None => Forall (fun kv => MonthGroup.totalMessages (snd kv) = 0) monthGroups
  end.
Proof.
  unfold findMostActiveMonth.
  destruct (activeStep_fold (enumerate monthGroups) None 0 eq_refl) as (H1 & _ & H3).
  cbv zeta in *.
  pose proof (enumerate_perm monthGroups) as Hperm.
  destruct (fst (fold_left activeStep (enumerate monthGroups) (None, 0))) as [m|].
  - destruct H1 as ([Hm|[k Hin]] & Ht & Hpos); [discriminate|].
    split; [exists k; exact (Permutation_in _ Hperm Hin)|]. split; [lia|].
    rewrite Ht. exact (Permutation_Forall Hperm H3).
  - destruct H1 as [_ H0]. rewrite H0 in H3.
    apply (Permutation_Forall Hperm). eapply Forall_impl; [|exact H3].
    intros kv Hkv. cbn beta in Hkv. lia.
Qed.

Local Open Scope Z_scope.

Lemma rangeLoop_missing (entries : list (string * ProcessedData.t)) :
  Exists (fun kv => without_messages (snd kv)) entries ->
  forall range, rangeLoop entries range = Throw TypeError.
Proof.
  induction 1 as [kv entries Hkv|kv entries _ IH]; intros range; cbn [rangeLoop].
  - unfold rangeStep. destruct Hkv as [-> | Hl]; [reflexivity|].
    destruct (ProcessedData.firstMessage (snd kv)); [|reflexivity]. now rewrite Hl.
  - destruct (rangeStep range (snd kv)) as [range'|e] eqn:E; cbn [bind].
    + apply IH.
    + unfold rangeStep in E.
      destruct (ProcessedData.firstMessage (snd kv)); [|congruence].
      destruct (ProcessedData.lastMessage (snd kv)); congruence.
Qed.

Lemma rangeLoop_spans (entries : list (string * ProcessedData.t)) :
  Forall (fun kv => exists first final, spans (snd kv) first final) entries ->
  forall lo hi,
    lo <> 0 -> hi <> 0 ->
    exists lo' hi',
      rangeLoop entries (Some lo, Some hi) = Ok (Some lo', Some hi')
      /\ lo' <> 0 /\ hi' <> 0
      /\ lo' <= lo /\ hi <= hi'
      /\ Forall (fun kv => forall first final, spans (snd kv) first final ->
                   lo' <= first /\ final <= hi') entries
      /\ (lo' = lo \/ Exists (fun kv => exists final, spans (snd kv) lo' final) entries)
      /\ (hi' = hi \/ Exists (fun kv => exists first, spans (snd kv) first hi') entries).
Proof.
  induction 1 as [|kv entries (first & final & Hs) _ IH]; intros lo hi Hlo Hhi.
  - exists lo, hi. cbn [rangeLoop]. repeat split; auto; try lia.
  - pose proof Hs as ((f & Hf & Hft) & (l & Hl & Hlt) & Hf0 & Hl0).
    cbn [rangeLoop]. unfold rangeStep. rewrite Hf, Hl. cbn [fst snd unset].
    rewrite Hft, Hlt.
    destruct (Z.eqb_spec lo 0) as [|_]; [contradiction|].
    destruct (Z.eqb_spec hi 0) as [|_]; [contradiction|]. cbn [orb bind].
    assert (Hsame : forall first' final', spans (snd kv) first' final' ->
                                          first' = first /\ final' = final).
    { intros first' final' ((f' & Hf' & Hft') & (l' & Hl' & Hlt') & _). split; congruence. }
    destruct (Z.ltb_spec first lo) as [Hlt1|Hge1]; destruct (Z.ltb_spec hi final) as [Hlt2|Hge2].
    + destruct (IH first final Hf0 Hl0) as (lo' & hi' & E & A & B & C & D & F & G & H).
      exists lo', hi'. rewrite E. repeat split; auto; try lia.
      * constructor; [|exact F]. intros a b Hab. destruct (Hsame a b Hab) as [-> ->]. lia.
      * right. destruct G as [->|G]; [left; now exists final|now right].
      * right. destruct H as [->|H]; [left; now exists first|now right].
    + destruct (IH first hi Hf0 Hhi) as (lo' & hi' & E & A & B & C & D & F & G & H).
      exists lo', hi'. rewrite E. repeat split; auto; try lia.
      * constructor; [|exact F]. intros a b Hab. destruct (Hsame a b Hab) as [-> ->]. lia.
      * right. destruct G as [->|G]; [left; now exists final|now right].
      * destruct H as [->|H]; [now left|right; now right].
    + destruct (IH lo final Hlo Hl0) as (lo' & hi' & E & A & B & C & D & F & G & H).
      exists lo', hi'. rewrite E. repeat split; auto; try lia.
      * constructor; [|exact F]. intros a b Hab. destruct (Hsame a b Hab) as [-> ->]. lia.
      * destruct G as [->|G]; [now left|right; now right].
      * right. destruct H as [->|H]; [left; now exists first|now right].
    + destruct (IH lo hi Hlo Hhi) as (lo' & hi' & E & A & B & C & D & F & G & H).
      exists lo', hi'. rewrite E. repeat split; auto; try lia.
      * constructor; [|exact F]. intros a b Hab. destruct (Hsame a b Hab) as [-> ->]. lia.
      * destruct G as [->|G]; [now left|right; now right].
      * destruct H as [->|H]; [now left|right; now right].
Qed.

(** X12. When every conversation has a first and a last message and none
    of their timestamps is 0, [getDateRange] returns the earliest first
    timestamp and the latest last timestamp: both are reached, and no
    conversation starts before or ends after them. *)
Theorem getDateRange_extremes (processed : obj ProcessedData.t) :
  processed <> [] ->
  Forall (fun kv => exists first final, spans (snd kv) first final) processed ->
  exists range,
    getDateRange processed = Ok range
    /\ Forall (fun kv => forall first final, spans (snd kv) first final ->
                 Parser.DateRange.start range <= first
                 /\ final <= Parser.DateRange.end_ range) processed
    /\ Exists (fun kv => exists final, spans (snd kv) (Parser.DateRange.start range) final)
         processed
    /\ Exists (fun kv => exists first, spans (snd kv) first (Parser.DateRange.end_ range))
         processed.
Proof.
  intros Hne Hall. unfold getDateRange.
  pose proof (enumerate_perm processed) as Hperm.
  apply (Permutation_Forall (Permutation_sym Hperm)) in Hall.
  assert (Hne' : enumerate processed <> []).
  { intros E. rewrite E in Hperm. apply Permutation_nil in Hperm. contradiction. }
  destruct (enumerate processed) as [|kv entries]; [contradiction|].
  inversion Hall as [|? ? (first & final & Hs) Hrest]; subst.
  pose proof Hs as ((f & Hf & Hft) & (l & Hl & Hlt) & Hf0 & Hl0).
  cbn [rangeLoop]. unfold rangeStep at 1. rewrite Hf, Hl. cbn [fst snd bind].
  rewrite Hft, Hlt.
  destruct (rangeLoop_spans entries Hrest first final Hf0 Hl0)
    as (lo' & hi' & E & A & B & C & D & F & G & H).
  rewrite E. cbn [bind fst snd]. eexists. split; [reflexivity|].
  cbn [Parser.DateRange.start Parser.DateRange.end_].
  assert (Hsame : forall first' final', spans (snd kv) first' final' ->
                                        first' = first /\ final' = final).
  { intros first' final' ((f' & Hf' & Hft') & (l' & Hl' & Hlt') & _). split; congruence. }
  split; [|split].
  - apply (Permutation_Forall Hperm). constructor; [|exact F].
    intros a b Hab. destruct (Hsame a b Hab) as [-> ->]. lia.
  - apply Exists_exists.
    assert (Hex : Exists (fun kv => exists final, spans (snd kv) lo' final) (kv :: entries)).
    { destruct G as [->|G]; [left; now exists final|now right]. }
    apply Exists_exists in Hex. destruct Hex as (x & Hin & Hx).
    exists x. split; [exact (Permutation_in _ Hperm Hin)|exact Hx].
  - apply Exists_exists.
    assert (Hex : Exists (fun kv => exists first, spans (snd kv) first hi') (kv :: entries)).
    { destruct H as [->|H]; [left; now exists first|now right]. }
    apply Exists_exists in Hex. destruct Hex as (x & Hin & Hx).
    exists x. split; [exact (Permutation_in _ Hperm Hin)|exact Hx].
Qed.

(** X13. When some conversation has no first or no last message,
    [getDateRange] throws a [TypeError]. *)
Theorem getDateRange_without_messages (processed : obj ProcessedData.t) :
  Exists (fun kv => without_messages (snd kv)) processed ->
  getDateRange processed = Throw TypeError.
Proof.
  intros Hex. unfold getDateRange.
  rewrite rangeLoop_missing; [reflexivity|].
  apply Exists_exists in Hex. destruct Hex as (x & Hin & Hx). apply Exists_exists.
  exists x. split; [|exact Hx].
  exact (Permutation_in _ (Permutation_sym (enumerate_perm processed)) Hin).
Qed.

End Overview.

(** ** The export, the names and the milestones *)
Section ExportMore.
Import JS Exporter.
Variable host : Host.

Lemma addByDate_lookup (byDate : obj (list message)) (seen : list message) (msg : message) :
  (forall d, obj_get byDate d = nonempty (writtenUnder d seen)) ->
  forall d, obj_get (addByDate byDate msg) d = nonempty (writtenUnder d (seen ++ [msg])).
Proof.
  intros H d. unfold addByDate. fold (headingOf msg).
  unfold writtenUnder. rewrite filter_app. fold (writtenUnder d seen). cbn [filter].
  destruct (String.eqb_spec (headingOf msg) d) as [<-|Hne].
  - rewrite obj_get_set_same, H.
    destruct (writtenUnder (headingOf msg) seen) as [|first rest]; reflexivity.
  - rewrite obj_get_set_other by exact Hne. now rewrite app_nil_r.
Qed.

Lemma byDate_fold_lookup (messages : list message) :
  forall byDate seen,
    (forall d, obj_get byDate d = nonempty (writtenUnder d seen)) ->
    NoDup (map fst byDate) ->
    (forall d, obj_get (fold_left addByDate messages byDate) d
               = nonempty (writtenUnder d (seen ++ messages)))
    /\ NoDup (map fst (fold_left addByDate messages byDate)).
Proof.
  induction messages as [|msg messages IH]; intros byDate seen H Hn; cbn [fold_left].
  - rewrite app_nil_r. auto.
  - replace (seen ++ msg :: messages) with ((seen ++ [msg]) ++ messages)
      by now rewrite <- app_assoc.
    apply IH; [now apply addByDate_lookup|]. unfold addByDate. now apply obj_set_NoDup.
Qed.

(** X23. In an exported week, the messages written under a date heading
    are exactly the messages of that date, in their order; no heading
    occurs twice, and none is empty. *)
Theorem groupByDate_lookup (messages : list message) :
  (forall d, obj_get (groupByDate messages) d = nonempty (writtenUnder d messages))
  /\ NoDup (map fst (groupByDate messages))
  /\ Forall (fun group => snd group = writtenUnder (fst group) messages
                          /\ snd group <> []) (groupByDate messages).
Proof.
  destruct (byDate_fold_lookup messages [] [] (fun _ => eq_refl) (NoDup_nil _)) as [H Hn].
  cbn [app] in H. fold (groupByDate messages) in H, Hn.
  split; [exact H|]. split; [exact Hn|].
  apply Forall_forall. intros [d group] Hin. cbn [fst snd].
  pose proof (proj2 (obj_get_In_iff (groupByDate messages) d group Hn) Hin) as Hget.
  rewrite H in Hget. destruct (writtenUnder d messages) as [|m l]; [discriminate|].
  cbn in Hget. injection Hget as <-. split; [reflexivity|discriminate].
Qed.

(** X25. The preview shows the file the export writes for the first
    selected week, whatever else is selected: between [<pre>] tags, or
    through [marked.parse] when the page has that library. *)
Theorem generatePreview_first_week (marked : option (string -> string))
  (personName : string) (processedData : ProcessedData.t) (weekKey : string)
  (others : list string) (zip : obj string) (markdown : string) :
  exportToZip host personName processedData [weekKey] = Ok zip ->
  obj_get zip (fileName personName weekKey) = Some markdown ->
  generatePreview host marked personName processedData (weekKey :: others)
  = Ok match marked with
       | Some parse => parse markdown
       | None => ("<pre>" ++ markdown ++ "</pre>")%string
       end.
Proof.
  unfold exportToZip, generatePreview. cbn [exportWeeks]. unfold exportWeek.
  destruct (obj_get (ProcessedData.weekClusters processedData) weekKey) as [week|].
  - destruct (generateWeekMarkdown host personName week) as [md|e]; cbn [bind].
    + intros Hzip Hfile.
      assert (E : zip = obj_set [] (fileName personName weekKey) md) by (injection Hzip; auto).
      rewrite E, obj_get_set_same in Hfile. injection Hfile as <-. now destruct marked.
    + discriminate.
  - cbn [bind]. intros [= <-]. discriminate.
Qed.

End ExportMore.

Section Names.
Import JS Parser.

Lemma strip_prefix_app (p s : string) : strip_prefix p (p ++ s)%string = Some s.
Proof.
  induction p as [|c p IH]; [reflexivity|]. cbn. now rewrite Ascii.eqb_refl.
Qed.

Lemma replace_first_colon (name : string) :
  occurs ":" name = false -> replace_first ":" "" (name ++ ":")%string = name.
Proof.
  induction name as [|c name IH]; [reflexivity|].
  cbn [occurs]. intros H. apply orb_false_iff in H. destruct H as [Hc Hn].
  cbn [append replace_first strip_prefix]. rewrite Hc. now rewrite IH.
Qed.

(** X1. The key [Chat History with NAME:] of an upload gives the
    conversation the name NAME, for every NAME without a colon. *)
Theorem personName_round_trip (name : string) :
  occurs ":" name = false ->
  personName ("Chat History with " ++ name ++ ":")%string = name.
Proof.
  intros H. unfold personName.
  assert (E : replace_first "Chat History with " "" ("Chat History with " ++ name ++ ":")%string
              = (name ++ ":")%string).
  { assert (Hs := strip_prefix_app "Chat History with " (name ++ ":")).
    set (key := ("Chat History with " ++ name ++ ":")%string) in *.
    destruct key; cbn [replace_first]; now rewrite Hs. }
  rewrite E. now apply replace_first_colon.
Qed.

End Names.

Section Zones.
Import DateRangeFilter.

(** X27. For every entry of the time-zone selector, [getTimezoneOffset]
    reads from the value of the entry the offset the entry declares, which
    lies between -12 and 12. *)
Theorem getTimezoneOffset_selector :
  Forall (fun zone => getTimezoneOffset (fst zone) = snd zone
                      /\ (-12 <= snd zone <= 12)%Z) timezones.
Proof. repeat constructor; vm_compute; congruence. Qed.

End Zones.

Section Milestones.
Import JS StatsIndividual.
Variable host : Host.

Lemma filter_perm {A : Type} (p : A -> bool) (l l' : list A) :
  Permutation l l' -> Permutation (filter p l) (filter p l').
Proof.
  induction 1 as [|x l l' _ IH|x y l|l l' l'' _ IH _ IH']; cbn [filter].
  - constructor.
  - destruct (p x); [now constructor|exact IH].
  - destruct (p x), (p y); try reflexivity. apply perm_swap.
  - now transitivity (filter p l').
Qed.

Lemma addCountMilestone_fold (messages : list message) (thresholds : list Z) :
  Forall (fun t => 1 <= t)%Z thresholds ->
  forall milestones,
    exists counted,
      fold_left (addCountMilestone host messages) thresholds milestones
      = (milestones ++ counted)%list
      /\ Forall (fun m => of_kind Milestone.count m = true) counted
      /\ List.length counted
         = List.length (filter (fun t => t <=? Z.of_nat (List.length messages))%Z thresholds).
Proof.
  induction 1 as [|t thresholds Ht _ IH]; intros milestones; cbn [fold_left filter].
  - exists []. rewrite app_nil_r. repeat split. constructor.
  - unfold addCountMilestone at 2.
    destruct (Z.leb_spec t (Z.of_nat (List.length messages))) as [Hle|Hgt].
    + destruct (nth_error messages (Z.to_nat (t - 1))) as [msg|] eqn:E.
      * destruct (IH (milestones ++ [Milestone.mk Milestone.count (Message.date msg)
                        (Number_toLocaleString host t ++ "th message") "💯"])%list)
          as (counted & Hfold & Hkind & Hlen).
        eexists (_ :: counted). rewrite Hfold, <- app_assoc. cbn [app List.length].
        repeat split; [constructor; [reflexivity|exact Hkind]|now rewrite Hlen].
      * apply nth_error_None in E. unfold message in *. lia.
    + apply IH.
Qed.

(** X22. For a conversation with a message, [calculateMilestones] returns
    the milestones by increasing date: one milestone of the first message,
    dated as that message; one count milestone for each of the thresholds
    the number of messages reaches; and one anniversary for each full
    period of 365 days between the first and the last message. *)
Theorem calculateMilestones_sorted (processedData : ProcessedData.t)
  (first : message) (rest : list message) :
  ProcessedData.messages processedData = first :: rest ->
  let messages := ProcessedData.messages processedData in
  let final := last messages first in
  exists milestones,
    calculateMilestones host processedData = Ok milestones
    /\ StronglySorted (fun a b => Milestone.date a <= Milestone.date b)%Z milestones
    /\ filter (of_kind Milestone.first) milestones
       = [Milestone.mk Milestone.first (Message.date first) "First message" "🎉"]
    /\ List.length (filter (of_kind Milestone.count) milestones)
       = List.length (filter (fun t => t <=? Z.of_nat (List.length messages))%Z countMilestones)
    /\ List.length (filter (of_kind Milestone.anniversary) milestones)
       = Z.to_nat ((Message.date final - Message.date first) / 31536000000).
Proof.
  intros Hm. cbv zeta. unfold calculateMilestones. rewrite Hm.
  eexists. split; [reflexivity|].
  set (messages := first :: rest).
  destruct (addCountMilestone_fold messages countMilestones
              ltac:(unfold countMilestones; repeat constructor; lia)
              [Milestone.mk Milestone.first (Message.date first) "First message" "🎉"])
    as (counted & Hfold & Hkind & Hlen).
  rewrite Hfold.
  set (years := Z.to_nat _).
  set (all := ((_ ++ counted) ++ _)%list).
  assert (Hperm : Permutation (sort byDate all) all) by apply sort_perm.
  assert (Hcounted : forall k, k <> Milestone.count -> filter (of_kind k) counted = []).
  { intros k Hk. clear - Hkind Hk. induction Hkind as [|m l Hm _ IH]; [reflexivity|].
    cbn [filter]. rewrite IH. unfold of_kind in *.
    destruct k, (Milestone.type m); try discriminate; try reflexivity; contradiction. }
  assert (Hcount : filter (of_kind Milestone.count) counted = counted).
  { clear - Hkind. induction Hkind as [|m l Hm _ IH]; [reflexivity|].
    cbn [filter]. now rewrite Hm, IH. }
  assert (Hann : forall k, filter (of_kind k) (map (anniversaryOf (Message.date first)) (seq 1 years))
                           = if of_kind k (anniversaryOf (Message.date first) 0)
                             then map (anniversaryOf (Message.date first)) (seq 1 years)
                             else []).
  { intros k. generalize (seq 1 years). induction l as [|y l IH]; cbn [map filter].
    - now destruct (of_kind _ _).
    - rewrite IH. unfold of_kind, anniversaryOf. cbn [Milestone.type]. now destruct k. }
  split; [|split; [|split]].
  - assert (H : StronglySorted (fun a b => byDate a b = true) (sort byDate all)).
    { apply sort_sorted; unfold byDate.
      - intros a b. rewrite !Z.leb_le. lia.
      - intros a b c. rewrite !Z.leb_le. lia. }
    revert H. apply StronglySorted_weaken. intros a b. unfold byDate. now rewrite Z.leb_le.
  - pose proof (filter_perm (of_kind Milestone.first) _ _ Hperm) as Hf.
    subst all. rewrite !filter_app, Hcounted, Hann in Hf by discriminate.
    cbn in Hf. now apply Permutation_sym, Permutation_length_1_inv in Hf.
  - rewrite (Permutation_length (filter_perm (of_kind Milestone.count) _ _ Hperm)).
    subst all. rewrite !filter_app, Hcount, Hann. cbn. rewrite app_nil_r. exact Hlen.
  - rewrite (Permutation_length (filter_perm (of_kind Milestone.anniversary) _ _ Hperm)).
    subst all. rewrite !filter_app, Hcounted, Hann by discriminate. cbn.
    rewrite length_map, length_seq. reflexivity.
Qed.

End Milestones.

(** ** The further properties on sample inputs *)

(** The key of the conversation with [alice] gives the name [alice]. *)
Lemma personName_round_trip_sample :
  JS.occurs ":" "alice" = false
  /\ Parser.personName "Chat History with alice:" = "alice"%string.
Proof.
  split; [reflexivity|]. exact (personName_round_trip "alice" eq_refl).
Defined.




(** A conversation of two messages, and the same an hour later. *)
Lemma analytics_clock_shift_sample :
  let l := [message_at 1735560000000 "bob" "hi" Message.text;
            message_at 1735560060000 "you" "hello" Message.text] in
  let l' := [message_at 1735563600000 "bob" "hi" Message.text;
             message_at 1735563660000 "you" "hello" Message.text] in
  shifted 3600000 l l'
  /\ Processor.calculateResponseTimes None l' = Processor.calculateResponseTimes None l
  /\ Processor.calculateInitiatorScore None l' = Processor.calculateInitiatorScore None l
  /\ Processor.calculateBalanceScore None l' = Processor.calculateBalanceScore None l
  /\ map extent (Processor.detectMessageBursts l')
     = map extent (Processor.detectMessageBursts l).
Proof.
  cbv zeta.
  assert (Hs : shifted 3600000
                 [message_at 1735560000000 "bob" "hi" Message.text;
                  message_at 1735560060000 "you" "hello" Message.text]
                 [message_at 1735563600000 "bob" "hi" Message.text;
                  message_at 1735563660000 "you" "hello" Message.text]).
  { constructor; [split; reflexivity|]. constructor; [split; reflexivity|constructor]. }
  split; [exact Hs|]. exact (analytics_clock_shift 3600000 None _ _ Hs).
Defined.

(** The month of a conversation of one message. *)
Lemma groupIntoMonths_months_sample :
  let weekClusters :=
    Processor.clusterByWeeks [message_at 1735560000000 "bob" "hi" Message.text] in
  exists k m,
    In (k, m) (Processor.groupIntoMonths weekClusters)
    /\ monthOf weekClusters k m
    /\ StronglySorted (fun a b => Processor.weekOrder a b = true) (MonthGroup.weeks m).
Proof.
  cbv zeta.
  pose proof (groupIntoMonths_months
                (Processor.clusterByWeeks [message_at 1735560000000 "bob" "hi" Message.text]))
    as H.
  destruct (Processor.groupIntoMonths _) as [|[k m] l] eqn:E; [vm_compute in E; discriminate|].
  exists k, m. split; [now left|]. apply H. now left.
Defined.

(** The conversations with [alice] and with [bob] are both processed. *)
Lemma processConversations_own_sample :
  let conversations :=
    [("alice"%string, [message_at 1735560060000 "alice" "hello" Message.text;
                       message_at 1735560000000 "you" "hi" Message.text]);
     ("bob"%string, [message_at 1735560000000 "bob" "hi" Message.text])] in
  exists sorted processed,
    Processor.processAll conversations = (sorted, JS.Ok processed)
    /\ (forall name,
          JS.obj_get processed name
          = option_map Processor.processOne (JS.obj_get conversations name))
    /\ (forall name,
          JS.obj_get sorted name
          = option_map (fun l => ProcessedData.messages (Processor.processOne l))
              (JS.obj_get conversations name))
    /\ map fst sorted = map fst conversations.
Proof.
  cbv zeta. unfold Processor.processAll.
  apply (processConversations_own
           (fun messages => let p := Processor.processOne messages in
                            (ProcessedData.messages p, p))).
  - reflexivity.
  - repeat constructor; cbn; intuition discriminate.
Defined.

(** A conversation with the partner [__proto__] stops the processing. *)
Lemma processConversations_inherited_sample :
  let conversations :=
    [("__proto__"%string, [message_at 1735560000000 "bob" "hi" Message.text])] in
  snd (Processor.processAll conversations) = JS.Throw JS.TypeError.
Proof.
  cbv zeta. unfold Processor.processAll.
  apply (processConversations_inherited _ _
           (message_at 1735560000000 "bob" "hi" Message.text) []); reflexivity.
Defined.


(** The range of one conversation of two messages. *)
Lemma getDateRange_extremes_sample :
  let processed :=
    [("bob"%string,
      Processor.processOne [message_at 1735560060000 "you" "hello" Message.text;
                            message_at 1735560000000 "bob" "hi" Message.text])] in
  Processor.getDateRange processed
  = JS.Ok (Parser.DateRange.mk 1735560000000 1735560060000)
  /\ exists range,
       Processor.getDateRange processed = JS.Ok range
       /\ Forall (fun kv => forall first final, spans (snd kv) first final ->
                    (Parser.DateRange.start range <= first
                     /\ final <= Parser.DateRange.end_ range)%Z) processed
       /\ Exists (fun kv => exists final, spans (snd kv) (Parser.DateRange.start range) final)
            processed
       /\ Exists (fun kv => exists first, spans (snd kv) first (Parser.DateRange.end_ range))
            processed.
Proof.
  cbv zeta. split; [vm_compute; reflexivity|].
  apply getDateRange_extremes; [discriminate|].
  constructor; [|constructor].
  exists 1735560000000%Z, 1735560060000%Z.
  split; [eexists; split; vm_compute; reflexivity|].
  split; [eexists; split; vm_compute; reflexivity|]. split; discriminate.
Defined.

(** A conversation without messages among the processed ones. *)
Lemma getDateRange_without_messages_sample :
  let processed :=
    [("bob"%string, Processor.processOne [message_at 1735560000000 "bob" "hi" Message.text]);
     ("alice"%string, Processor.processOne [])] in
  Processor.getDateRange processed = JS.Throw JS.TypeError.
Proof.
  cbv zeta. apply getDateRange_without_messages.
  right. left. left. reflexivity.
Defined.

(** The preview of a selection of two weeks is the file of the first. *)
Lemma generatePreview_first_week_sample :
  let processedData :=
    Processor.processOne [message_at 1735560000000 "bob" "hi" Message.text] in
  exists zip markdown,
    Exporter.exportToZip Sample.host "bob" processedData ["2024-W01"%string] = JS.Ok zip
    /\ JS.obj_get zip (fileName "bob" "2024-W01") = Some markdown
    /\ Exporter.generatePreview Sample.host None "bob" processedData
         ["2024-W01"; "2025-W07"]%string
       = JS.Ok ("<pre>" ++ markdown ++ "</pre>")%string.
Proof.
  cbv zeta. do 2 eexists.
  split; [vm_compute; reflexivity|]. split; [vm_compute; reflexivity|].
  eapply (generatePreview_first_week Sample.host None "bob" _ "2024-W01" ["2025-W07"%string]);
    vm_compute; reflexivity.
Defined.

(** The milestones of a conversation of two messages. *)
Lemma calculateMilestones_sorted_sample :
  let first := message_at 1735560000000 "bob" "hi" Message.text in
  let processedData :=
    Processor.processOne [first; message_at 1735560060000 "you" "hello" Message.text] in
  exists milestones,
    StatsIndividual.calculateMilestones Sample.host processedData = JS.Ok milestones
    /\ StronglySorted (fun a b => Milestone.date a <= Milestone.date b)%Z milestones
    /\ filter (of_kind Milestone.first) milestones
       = [Milestone.mk Milestone.first (Message.date first) "First message" "🎉"].
Proof.
  cbv zeta.
  destruct (calculateMilestones_sorted Sample.host
              (Processor.processOne [message_at 1735560000000 "bob" "hi" Message.text;
                                     message_at 1735560060000 "you" "hello" Message.text])
              (message_at 1735560000000 "bob" "hi" Message.text)
              [message_at 1735560060000 "you" "hello" Message.text])
    as (milestones & H1 & H2 & H3 & _); [vm_compute; reflexivity|].
  exists milestones. repeat split; assumption.
Defined.
